(** * Memory Preflight plugin: the per-turn orchestration, embedded in Rocq

    Two variants of the plugin are verified side by side:
    - [Hybrid]  : src/index.ts (Ollama extraction, QMD keyword search,
                  Gemini semantic fallback, JSONL audit log);
    - [MemTool] : the earlier variant (Ollama extraction with a stop-word
                  fallback, the host's memory search tool only).

    JavaScript strings are sequences of UTF-16 code units; [length],
    [slice], [trim] and the regular expressions of the source all work on
    code units, so a string is modelled as a list of code units.

    The calls that leave the plugin (the Ollama request, the [qmd] and
    [head] processes, the host's memory tool, the append to the log file)
    are answered by a [World] and recorded, in order, as [Event]s; a
    handler is a function from the state before the turn to its answer,
    the state after it and the events of the turn.  The diagnostic output
    ([console.log], [api.logger]) is left out. *)

From Stdlib Require Import List NArith ZArith Bool Lia String Ascii.
From Stdlib Require Import DecimalString.
Import ListNotations.

Set Implicit Arguments.

(* ================================================================== *)
(** ** JavaScript strings *)

Definition codeunit := N.
Definition jsstring := list codeunit.

(** An ASCII literal of the source as a JavaScript string. *)
Definition str (s : string) : jsstring :=
  List.map N_of_ascii (list_ascii_of_string s).

Definition chr (s : string) : codeunit :=
  match s with
  | String a _ => N_of_ascii a
  | EmptyString => 0%N
  end.

Definition LF : codeunit := 10%N.

Definition jsstring_eqb (a b : jsstring) : bool :=
  if list_eq_dec N.eq_dec a b then true else false.

(** ECMAScript WhiteSpace and LineTerminator code units: what [\s] matches
    and what [trim] strips. *)
Definition isLineTerminator (c : codeunit) : bool :=
  ((c =? 10) || (c =? 13) || (c =? 0x2028) || (c =? 0x2029))%N.

Definition isWhiteSpace (c : codeunit) : bool :=
  ((c =? 9) || (c =? 11) || (c =? 12) || (c =? 32) || (c =? 160)
   || (c =? 0x1680) || ((0x2000 <=? c) && (c <=? 0x200A))
   || (c =? 0x202F) || (c =? 0x205F) || (c =? 0x3000) || (c =? 0xFEFF)
   || isLineTerminator c)%N.

Fixpoint dropWhile (p : codeunit -> bool) (s : jsstring) : jsstring :=
  match s with
  | c :: s' => if p c then dropWhile p s' else s
  | [] => []
  end.

Definition trimStart (s : jsstring) : jsstring := dropWhile isWhiteSpace s.
Definition trimEnd (s : jsstring) : jsstring :=
  rev (dropWhile isWhiteSpace (rev s)).

(** [String.prototype.trim] *)
Definition trim (s : jsstring) : jsstring := trimEnd (trimStart s).

(** [s.slice(0, n)] for a non-negative [n] *)
Definition slice0 (n : nat) (s : jsstring) : jsstring := firstn n s.

(** [s.startsWith(p)] *)
Fixpoint startsWith (p s : jsstring) : bool :=
  match p, s with
  | [], _ => true
  | a :: p', b :: s' => (a =? b)%N && startsWith p' s'
  | _ :: _, [] => false
  end.

(** [s.split(sep)] for a one-code-unit separator: the pieces between the
    separators, [[""]] for the empty string. *)
Fixpoint splitOn (sep : codeunit) (s : jsstring) : list jsstring :=
  match s with
  | [] => [[]]
  | c :: s' =>
      if (c =? sep)%N then [] :: splitOn sep s'
      else match splitOn sep s' with
           | p :: ps => (c :: p) :: ps
           | [] => [[c]]
           end
  end.

(** [parts.join(sep)] *)
Fixpoint join (sep : jsstring) (parts : list jsstring) : jsstring :=
  match parts with
  | [] => []
  | [p] => p
  | p :: ps => p ++ sep ++ join sep ps
  end.

Definition isAscii (c : codeunit) : bool := (c <? 128)%N.

Definition asciiLower (c : codeunit) : codeunit :=
  if ((65 <=? c) && (c <=? 90))%N then (c + 32)%N else c.

Definition asciiUpper (c : codeunit) : codeunit :=
  if ((97 <=? c) && (c <=? 122))%N then (c - 32)%N else c.

(* ================================================================== *)
(** ** Regular expressions

    The fragment of ECMAScript regular expressions that the plugin uses:
    literals and character classes, concatenation, ordered alternation,
    greedy and lazy iteration of a character class, and the anchors [^]
    and [$] with or without the [m] flag.  Matching is by backtracking, as
    in the language: the matcher takes the continuation of the match. *)

Inductive cls : Type :=
| CLit (c : codeunit)            (* a literal code unit *)
| CLitI (c : codeunit)           (* an ASCII literal under the [i] flag *)
| CSpace                         (* \s *)
| CDigit                         (* \d *)
| CUpper                         (* [A-Z] *)
| CNotLit (c : codeunit)         (* [^c] *)
| CDot                           (* . *)
| CAny                           (* [\s\S] *)
| COneOf (cs : list codeunit).   (* [abc] *)

Definition clsMatch (cl : cls) (x : codeunit) : bool :=
  match cl with
  | CLit c => (x =? c)%N
  | CLitI c => (asciiUpper x =? asciiUpper c)%N
  | CSpace => isWhiteSpace x
  | CDigit => ((48 <=? x) && (x <=? 57))%N
  | CUpper => ((65 <=? x) && (x <=? 90))%N
  | CNotLit c => negb (x =? c)%N
  | CDot => negb (isLineTerminator x)
  | CAny => true
  | COneOf cs => existsb (N.eqb x) cs
  end.

Inductive regex : Type :=
| Eps
| Chr (c : cls)
| Cat (r1 r2 : regex)
| Alt (r1 r2 : regex)            (* r1|r2, r1 tried first *)
| Star (c : cls)                 (* c*  *)
| StarLazy (c : cls)             (* c*? *)
| Bol (multiline : bool)         (* ^ *)
| Eol (multiline : bool).        (* $ *)

(** The continuation gets the code unit before the current position (for
    [^] under [m]) and the rest of the input; the answer is the input left
    after the whole match. *)
Definition cont := option codeunit -> jsstring -> option jsstring.

Fixpoint starGreedy (c : cls) (k : cont) (prev : option codeunit)
  (s : jsstring) : option jsstring :=
  match s with
  | x :: s' =>
      if clsMatch c x then
        match starGreedy c k (Some x) s' with
        | Some r => Some r
        | None => k prev s
        end
      else k prev s
  | [] => k prev s
  end.

Fixpoint starLazy (c : cls) (k : cont) (prev : option codeunit)
  (s : jsstring) : option jsstring :=
  match k prev s with
  | Some r => Some r
  | None =>
      match s with
      | x :: s' => if clsMatch c x then starLazy c k (Some x) s' else None
      | [] => None
      end
  end.

Definition atLineStart (multiline : bool) (prev : option codeunit) : bool :=
  match prev with
  | None => true
  | Some p => multiline && isLineTerminator p
  end.

Definition atLineEnd (multiline : bool) (s : jsstring) : bool :=
  match s with
  | [] => true
  | x :: _ => multiline && isLineTerminator x
  end.

Fixpoint rmatchK (r : regex) (k : cont) (prev : option codeunit)
  (s : jsstring) : option jsstring :=
  match r with
  | Eps => k prev s
  | Chr c =>
      match s with
      | x :: s' => if clsMatch c x then k (Some x) s' else None
      | [] => None
      end
  | Cat r1 r2 => rmatchK r1 (rmatchK r2 k) prev s
  | Alt r1 r2 =>
      match rmatchK r1 k prev s with
      | Some res => Some res
      | None => rmatchK r2 k prev s
      end
  | Star c => starGreedy c k prev s
  | StarLazy c => starLazy c k prev s
  | Bol m => if atLineStart m prev then k prev s else None
  | Eol m => if atLineEnd m s then k prev s else None
  end.

(** A match of [r] starting exactly at the current position: the input
    left after it. *)
Definition rmatch (r : regex) (prev : option codeunit) (s : jsstring)
  : option jsstring :=
  rmatchK r (fun _ rest => Some rest) prev s.

(** [r.test(s)]: is there a match starting anywhere in [s]? *)
Fixpoint testFrom (r : regex) (prev : option codeunit) (s : jsstring) : bool :=
  match rmatch r prev s with
  | Some _ => true
  | None =>
      match s with
      | x :: s' => testFrom r (Some x) s'
      | [] => false
      end
  end.

Definition test (r : regex) (s : jsstring) : bool := testFrom r None s.

(** [s.replace(r, rep)] for [r] without the [g] flag: the first match
    only. *)
Fixpoint replaceFirstFrom (r : regex) (rep : jsstring)
  (prev : option codeunit) (s : jsstring) : jsstring :=
  match rmatch r prev s with
  | Some rest => rep ++ rest
  | None =>
      match s with
      | x :: s' => x :: replaceFirstFrom r rep (Some x) s'
      | [] => []
      end
  end.

Definition replaceFirst (r : regex) (rep s : jsstring) : jsstring :=
  replaceFirstFrom r rep None s.

(** [s.replace(r, rep)] for [r] with the [g] flag: every match, left to
    right, the search resuming where the last match ended (one code unit
    further after an empty match).  [skip] counts the code units of the
    current match that are still to be dropped. *)
Fixpoint replaceAllFrom (r : regex) (rep : jsstring) (skip : nat)
  (prev : option codeunit) (s : jsstring) : jsstring :=
  match s with
  | [] =>
      match skip with
      | O => match rmatch r prev [] with Some _ => rep | None => [] end
      | S _ => []
      end
  | x :: s' =>
      match skip with
      | S n => replaceAllFrom r rep n (Some x) s'
      | O =>
          match rmatch r prev s with
          | Some rest =>
              match List.length s - List.length rest with
              | O => rep ++ x :: replaceAllFrom r rep 0 (Some x) s'
              | S n => rep ++ replaceAllFrom r rep n (Some x) s'
              end
          | None => x :: replaceAllFrom r rep 0 (Some x) s'
          end
      end
  end.

Definition replaceAll (r : regex) (rep s : jsstring) : jsstring :=
  replaceAllFrom r rep 0 None s.

(** [s.split(r)]: the pieces between the non-empty matches of [r]; no
    match is tried at the end of the input, and an empty input gives no
    piece when [r] matches it and one empty piece otherwise.  [cur] is the
    piece being read, reversed. *)
Fixpoint splitReFrom (r : regex) (skip : nat) (cur : jsstring)
  (prev : option codeunit) (s : jsstring) : list jsstring :=
  match s with
  | [] => [rev cur]
  | x :: s' =>
      match skip with
      | S n => splitReFrom r n cur (Some x) s'
      | O =>
          match rmatch r prev s with
          | Some rest =>
              match List.length s - List.length rest with
              | O => splitReFrom r 0 (x :: cur) (Some x) s'
              | S n => rev cur :: splitReFrom r n [] (Some x) s'
              end
          | None => splitReFrom r 0 (x :: cur) (Some x) s'
          end
      end
  end.

Definition splitRe (r : regex) (s : jsstring) : list jsstring :=
  match s with
  | [] => match rmatch r None [] with Some _ => [] | None => [[]] end
  | _ => splitReFrom r 0 [] None s
  end.

(** Builders for the patterns of the source. *)
Definition Lit (s : string) : regex :=
  fold_right (fun c r => Cat (Chr (CLit c)) r) Eps (str s).
Definition LitI (s : string) : regex :=
  fold_right (fun c r => Cat (Chr (CLitI c)) r) Eps (str s).
Definition Opt (r : regex) : regex := Alt r Eps.
Definition Plus (c : cls) : regex := Cat (Chr c) (Star c).
Fixpoint Rep (n : nat) (c : cls) : regex :=
  match n with
  | O => Eps
  | S n' => Cat (Chr c) (Rep n' c)
  end.
Definition seq (rs : list regex) : regex := fold_right Cat Eps rs.
Fixpoint alts (rs : list regex) : regex :=
  match rs with
  | [] => Eps
  | [r] => r
  | r :: rs' => Alt r (alts rs')
  end.

(* ================================================================== *)
(** ** Message Normalizer

    The cleaning chain and the eligibility checks are the same text in the
    two variants of the [before_agent_start] handler. *)

(** [/\n?\[message_id:\s*[^\]]+\]/g] *)
Definition reMessageId : regex :=
  seq [Opt (Chr (CLit LF)); Lit "[message_id:"; Star CSpace;
       Plus (CNotLit (chr "]")); Lit "]"].

(** [/^\[(?:Mon|Tue|Wed|Thu|Fri|Sat|Sun)\s+\d{4}-\d{2}-\d{2}\s+\d{1,2}:\d{2}\s+[A-Z]+\]\s*/gm] *)
Definition reTimestamp : regex :=
  seq [Bol true; Lit "[";
       alts [Lit "Mon"; Lit "Tue"; Lit "Wed"; Lit "Thu"; Lit "Fri";
             Lit "Sat"; Lit "Sun"];
       Plus CSpace; Rep 4 CDigit; Lit "-"; Rep 2 CDigit; Lit "-";
       Rep 2 CDigit; Plus CSpace; Chr CDigit; Opt (Chr CDigit); Lit ":";
       Rep 2 CDigit; Plus CSpace; Plus CUpper; Lit "]"; Star CSpace].

(** [/^System:\s*\[.*?\].*$/gm] *)
Definition reSystemLine : regex :=
  seq [Bol true; Lit "System:"; Star CSpace; Lit "["; StarLazy CDot;
       Lit "]"; Star CDot; Eol true].

(** [/System:\s*\[[^\]]*\]\s*\{[\s\S]*?\n\}/g] *)
Definition reSystemBracketJson : regex :=
  seq [Lit "System:"; Star CSpace; Lit "["; Star (CNotLit (chr "]"));
       Lit "]"; Star CSpace; Lit "{"; StarLazy CAny; Chr (CLit LF); Lit "}"].

(** [/System:\s*\{[\s\S]*?\n\}/g] *)
Definition reSystemJson : regex :=
  seq [Lit "System:"; Star CSpace; Lit "{"; StarLazy CAny; Chr (CLit LF);
       Lit "}"].

(** The chain of [replace] calls and the final [trim] that turn
    [rawPrompt] into [prompt]. *)
Definition cleanPrompt (rawPrompt : jsstring) : jsstring :=
  let prompt := rawPrompt in
  let prompt := replaceAll reMessageId [] prompt in
  let prompt := replaceAll reTimestamp [] prompt in
  let prompt := replaceAll reSystemLine [] prompt in
  let prompt := replaceAll reSystemBracketJson [] prompt in
  let prompt := replaceAll reSystemJson [] prompt in
  trim prompt.

(** [/^(ok|okay|sure|thanks|thank you|yes|no|yep|nope|got it|sounds good)\.?$/i]
    and [/^(hi|hello|hey|morning|evening)\.?$/i] *)
Definition skipPatterns : list regex :=
  [ seq [Bol false;
         alts [LitI "ok"; LitI "okay"; LitI "sure"; LitI "thanks";
               LitI "thank you"; LitI "yes"; LitI "no"; LitI "yep";
               LitI "nope"; LitI "got it"; LitI "sounds good"];
         Opt (Chr (CLitI (chr "."))); Eol false];
    seq [Bol false;
         alts [LitI "hi"; LitI "hello"; LitI "hey"; LitI "morning";
               LitI "evening"];
         Opt (Chr (CLitI (chr "."))); Eol false] ].

(** [skipPatterns.some((p) => p.test(prompt))] *)
Definition matchesSkipPattern (prompt : jsstring) : bool :=
  existsb (fun p => test p prompt) skipPatterns.

(** [!rawPrompt || rawPrompt.length < 10]; [event.prompt] may be absent. *)
Definition rawTooShort (rawPrompt : option jsstring) : bool :=
  match rawPrompt with
  | None => true
  | Some raw => (List.length raw <? 10)%nat
  end.

(** The three checks on the cleaned prompt: shorter than 3, a slash
    command, an acknowledgement or a greeting. *)
Definition cleanedRejected (prompt : jsstring) : bool :=
  (List.length prompt <? 3)%nat
  || startsWith (str "/") prompt
  || matchesSkipPattern prompt.

(* ================================================================== *)
(** ** Numbers

    Scores reach the plugin as decimal literals: a field of a QMD output
    line read by [parseFloat], or a number of the JSON text returned by
    the memory tool.  A number is modelled by the mathematical value of
    its literal, [mant * 10^e10] with a sign; the runtime keeps the
    nearest IEEE double, which is not modelled. *)

Inductive number : Type :=
| NaN
| Infinity (neg : bool)
| Dec (neg : bool) (mant : N) (e10 : Z).

Definition isDigit (c : codeunit) : bool := ((48 <=? c) && (c <=? 57))%N.

Fixpoint takeDigits (s : jsstring) : jsstring * jsstring :=
  match s with
  | c :: s' =>
      if isDigit c then let (ds, rest) := takeDigits s' in (c :: ds, rest)
      else ([], s)
  | [] => ([], [])
  end.

Definition digitsValue (ds : jsstring) : N :=
  fold_left (fun acc d => (acc * 10 + (d - 48))%N) ds 0%N.

(** The sign, if any, in front of a literal or of an exponent. *)
Definition takeSign (s : jsstring) : bool * jsstring :=
  match s with
  | c :: s' =>
      if (c =? chr "-")%N then (true, s')
      else if (c =? chr "+")%N then (false, s')
      else (false, s)
  | [] => (false, s)
  end.

(** [ExponentPart]: [e] or [E], an optional sign and at least one digit;
    0 when there is none. *)
Definition takeExponent (s : jsstring) : Z :=
  match s with
  | c :: s' =>
      if ((c =? chr "e") || (c =? chr "E"))%N then
        let (eneg, s'') := takeSign s' in
        match fst (takeDigits s'') with
        | [] => 0%Z
        | ds => if eneg then (- Z.of_N (digitsValue ds))%Z
                else Z.of_N (digitsValue ds)
        end
      else 0%Z
  | [] => 0%Z
  end.

(** [parseFloat]: leading white space is skipped and the longest prefix
    that is a [StrDecimalLiteral] is read; [NaN] when there is none. *)
Definition parseFloat (s : jsstring) : number :=
  let (neg, s0) := takeSign (trimStart s) in
  if startsWith (str "Infinity") s0 then Infinity neg
  else
    let (ip, s1) := takeDigits s0 in
    let (fp, s2) :=
      match s1 with
      | c :: s' => if (c =? chr ".")%N then takeDigits s' else ([], s1)
      | [] => ([], s1)
      end in
    match ip ++ fp with
    | [] => NaN
    | ds => Dec neg (digitsValue ds)
              (takeExponent s2 - Z.of_nat (List.length fp))%Z
    end.

(* ================================================================== *)
(** ** The runtime and the external collaborators *)

(** Two library functions of the JavaScript runtime are taken as
    parameters: the Unicode lower-casing of a string that has a code unit
    outside ASCII, and [Number.prototype.toFixed(2)]. *)
Record Runtime : Type := {
  unicodeLower : jsstring -> jsstring;
  toFixed2 : number -> jsstring
}.

(** [String.prototype.toLowerCase] *)
Definition toLowerCase (rt : Runtime) (s : jsstring) : jsstring :=
  if forallb isAscii s then List.map asciiLower s else unicodeLower rt s.

(** The answer of the Ollama endpoint to [fetch] and [res.json()]. *)
Inductive OllamaReply : Type :=
| FetchThrows                            (* transport failure *)
| NotOk                                  (* [!res.ok] *)
| JsonThrows                             (* the body is not the expected JSON *)
| Json (response : option jsstring).     (* [data.response], maybe absent *)

Inductive MemorySearchTool : Type := Tool.

(** [api.runtime.tools.createMemorySearchTool(...)] *)
Inductive CreateOutcome : Type :=
| CreateThrows
| Created (tool : option MemorySearchTool).   (* [null] when not configured *)

(** type [MemoryResult] / the element type of [parsed.results] *)
Record MemoryResult : Type := {
  mr_path : jsstring;
  mr_snippet : jsstring;
  mr_score : number
}.

(** [JSON.parse(content.text)] *)
Inductive ParseOutcome : Type :=
| ParseThrows
| Parsed (disabled : bool) (results : option (list MemoryResult)).

(** [memoryTool.execute(...)] and the look at [result?.content?.[0]] *)
Inductive ExecuteOutcome : Type :=
| ExecuteThrows
| NoTextContent                     (* no content, or its type is not "text" *)
| TextContent (parsed : ParseOutcome).

(** type [SearchLog] *)
Record SearchLog : Type := {
  ts : jsstring;
  prompt : jsstring;
  entities : option jsstring;
  searchQuery : jsstring;
  results : list (jsstring * number);
  extractMs : Z;
  searchMs : Z;
  totalMs : Z
}.

(** The places where the hybrid handler reads the clock, each reached at
    most once in a turn. *)
Inductive Clock : Type :=
| StartTotal | StartExtract | EndExtract | StartSearch | EndSearch
| EndTotal | LogTs | StartGemini | EndGemini | FallbackLogTs
| FallbackEndTotal.

(** What the collaborators answer during one turn. *)
Record World : Type := {
  ollama : jsstring -> OllamaReply;
  (** stdout of the command line that [searchWithQmd(query, maxResults)]
      hands to the shell, [None] when [exec] rejects (exit status,
      timeout) *)
  qmd : jsstring -> nat -> option jsstring;
  (** stdout of [head -c 500 path], [None] when [exec] rejects *)
  head500 : jsstring -> option jsstring;
  createMemorySearchTool : CreateOutcome;
  (** [memoryTool.execute(callId, {query, maxResults, minScore})] *)
  execute : jsstring -> jsstring -> nat -> number -> ExecuteOutcome;
  (** does [appendFile(LOG_PATH, ...)] of this entry succeed? *)
  appendFile : SearchLog -> bool;
  dateNow : Clock -> Z;
  toISOString : Clock -> jsstring
}.

(** The calls that leave the plugin, in the order they are made. *)
Inductive Event : Type :=
| OllamaFetch (query : jsstring)
| QmdExec (query : jsstring) (maxResults : nat)
| HeadExec (path : jsstring)
| CreateMemorySearchTool
| ToolExecute (callId query : jsstring) (maxResults : nat) (minScore : number)
| AppendFile (entry : SearchLog) (written : bool).

(** The state a turn starts from and leaves behind: the lazily created
    tool handle of [register], and the audit log file, one record per
    line. *)
Record State : Type := {
  memoryTool : option MemorySearchTool;
  logFile : list SearchLog
}.

Definition initialState : State := {| memoryTool := None; logFile := [] |}.

(** What a computation leaves: its value, the state, and the calls it
    made. *)
Record Outcome (A : Type) : Type := mkOutcome {
  answer : A;
  after : State;
  events : list Event
}.

(** A small state-and-trace monad for the handlers. *)
Definition M (A : Type) : Type := State -> Outcome A.

Definition ret {A : Type} (a : A) : M A := fun st => mkOutcome a st [].

Definition bind {A B : Type} (m : M A) (f : A -> M B) : M B :=
  fun st =>
    let o1 := m st in
    let o2 := f (answer o1) (after o1) in
    mkOutcome (answer o2) (after o2) (events o1 ++ events o2).

Notation "x <- m ;; k" := (bind m (fun x => k))
  (at level 61, m at next level, right associativity).
Notation "m ;; k" := (bind m (fun _ => k))
  (at level 61, right associativity).

Definition emit (e : Event) : M unit := fun st => mkOutcome tt st [e].

Definition appendLog (entry : SearchLog) : M unit :=
  fun st =>
    mkOutcome tt {| memoryTool := memoryTool st;
                    logFile := logFile st ++ [entry] |} [].

Definition setMemoryTool (t : option MemorySearchTool) : M unit :=
  fun st => mkOutcome tt {| memoryTool := t; logFile := logFile st |} [].

Definition getMemoryTool : M (option MemorySearchTool) :=
  fun st => mkOutcome (memoryTool st) st [].

Fixpoint mapM {A B : Type} (f : A -> M B) (l : list A) : M (list B) :=
  match l with
  | [] => ret []
  | a :: l' => b <- f a ;; bs <- mapM f l' ;; ret (b :: bs)
  end.

(** [if (!memoryTool) memoryTool = createMemorySearchTool(...)], inside a
    [try]: [None] when the creation throws, else the handle, [null] or
    not. *)
Definition ensureMemoryTool (w : World) : M (option (option MemorySearchTool)) :=
  t <- getMemoryTool ;;
  match t with
  | Some t => ret (Some (Some t))
  | None =>
      emit CreateMemorySearchTool ;;
      match createMemorySearchTool w with
      | CreateThrows => ret None
      | Created t' => setMemoryTool t' ;; ret (Some t')
      end
  end.

(** [await memoryTool.execute(callId, { query, maxResults, minScore })] *)
Definition toolExecute (w : World) (callId query : jsstring)
  (maxResults : nat) (minScore : number) : M ExecuteOutcome :=
  emit (ToolExecute callId query maxResults minScore) ;;
  ret (execute w callId query maxResults minScore).

(** What [extractEntities] makes of the reply, in both variants: the
    trimmed [response] when it is not empty and shorter than [bound],
    [null] when the request fails, the status is not ok, the body is not
    the expected JSON, or the response is absent, empty or too long. *)
Definition entitiesOf (bound : nat) (reply : OllamaReply) : option jsstring :=
  match reply with
  | Json (Some response) =>
      let entities := trim response in
      if ((0 <? List.length entities) && (List.length entities <? bound))%nat
      then Some entities
      else None
  | Json None => None
  | FetchThrows | NotOk | JsonThrows => None
  end.

(** [0.3] *)
Definition minScore03 : number := Dec false 3 (-1).

(** [/^.*\.openclaw\/workspace\//] *)
Definition reWorkspacePrefix : regex :=
  seq [Bol false; Star CDot; Lit ".openclaw/workspace/"].

(** The text around the hint lines. *)
Definition hintBlock (hints : jsstring) : jsstring :=
  str "<memory-hints>" ++ [LF]
  ++ str "Possibly relevant (read if needed):" ++ [LF]
  ++ hints ++ [LF]
  ++ str "</memory-hints>".

(** [`- ${path} (${score.toFixed(2)}): "${preview}..."`] *)
Definition hintLine (rt : Runtime) (path : jsstring) (score : number)
  (preview : jsstring) : jsstring :=
  str "- " ++ path ++ str " (" ++ toFixed2 rt score ++ str "): "
  ++ [34%N] ++ preview ++ str "..." ++ [34%N].

(* ================================================================== *)
(** ** The hybrid variant: src/index.ts *)

Module Hybrid.
Section Plugin.

Variable rt : Runtime.
Variable w : World.

(** type [QmdResult] *)
Record QmdResult : Type := {
  hash : jsstring;
  score : number;
  path : jsstring
}.

(** [logSearch]: one line appended to the log file; a failure of
    [appendFile] is caught and nothing is written. *)
Definition logSearch (entry : SearchLog) : M unit :=
  if appendFile w entry then
    emit (AppendFile entry true) ;; appendLog entry
  else
    emit (AppendFile entry false).

(** [extractEntities], with the bound 300 *)
Definition extractEntities (query : jsstring) : M (option jsstring) :=
  emit (OllamaFetch query) ;;
  ret (entitiesOf 300 (ollama w query)).

(** [/^qmd:\/\/memory\//] *)
Definition reQmdPrefix : regex := seq [Bol false; Lit "qmd://memory/"].

(** The body of the loop over the lines of the QMD output: a line with
    fewer than three comma-separated parts gives no result. *)
Definition parseQmdLine (line : jsstring) : list QmdResult :=
  let parts := splitOn (chr ",") line in
  if (3 <=? List.length parts)%nat then
    let hash := nth 0 parts [] in
    let score := parseFloat (nth 1 parts []) in
    let qmdPath := join (str ",") (skipn 2 parts) in
    let relativePath := replaceFirst reQmdPrefix (str "memory/") qmdPath in
    [ {| hash := hash; score := score; path := relativePath |} ]
  else [].

Definition parseQmdOutput (stdout : jsstring) : list QmdResult :=
  match trim stdout with
  | [] => []
  | trimmed => flat_map parseQmdLine (splitOn LF trimmed)
  end.

(** [searchWithQmd]: any failure of the external process gives no
    result.  The event [QmdExec] keeps the two arguments of the call, the
    JavaScript string [query] and [maxResults]; the command line made
    from them is [qmdCommandLine] below.  How the shell reads that line,
    and so what [qmd] itself receives, is not modelled. *)
Definition keywordHits (query : jsstring) (maxResults : nat)
  : list QmdResult :=
  match qmd w query maxResults with
  | Some stdout => parseQmdOutput stdout
  | None => []
  end.

Definition searchWithQmd (query : jsstring) (maxResults : nat)
  : M (list QmdResult) :=
  emit (QmdExec query maxResults) ;;
  ret (keywordHits query maxResults).

(** [/^#.*\n/] *)
Definition reHeading : regex :=
  seq [Bol false; Lit "#"; Star CDot; Chr (CLit LF)].

(** The text of the preview, from what [head -c 500] printed. *)
Definition snippetOf (stdout : jsstring) (maxChars : nat) : jsstring :=
  let cleaned :=
    trim (replaceAll (Plus CSpace) (str " ") (replaceFirst reHeading [] stdout)) in
  slice0 maxChars cleaned.

(** [getSnippet]: [""] when the read fails. *)
Definition getSnippet (path : jsstring) (maxChars : nat) : M jsstring :=
  emit (HeadExec path) ;;
  match head500 w path with
  | Some stdout => ret (snippetOf stdout maxChars)
  | None => ret []
  end.

(** The hint returned when Ollama gave no entities. *)
Definition disabledHint : jsstring :=
  str "<memory-hints>" ++ [LF]
  ++ [0x26A0; 0xFE0F]%N
  ++ str " Local LLM (Ollama) not running. Memory search disabled." ++ [LF]
  ++ str "Run `ollama serve` and ensure gemma3:4b is available." ++ [LF]
  ++ str "</memory-hints>".

(** [allTerms], [searchTerms] and [searchQuery] of the handler. *)
Definition allTermsOf (llmEntities : jsstring) : list jsstring :=
  splitOn (chr " ")
    (trim (replaceAll (Plus CSpace) (str " ")
             (replaceAll (Chr (CLit (chr ","))) (str " ")
                (toLowerCase rt llmEntities)))).

Definition searchQueryOf (llmEntities : jsstring) : jsstring :=
  let allTerms := allTermsOf llmEntities in
  let searchTerms := firstn 3 allTerms in
  join (str " ") searchTerms.

(** One line of [geminiHints]. *)
Definition geminiHint (r : MemoryResult) : jsstring :=
  let relativePath := replaceFirst reWorkspacePrefix [] (mr_path r) in
  let preview :=
    slice0 80 (trim (replaceAll (Plus CSpace) (str " ") (mr_snippet r))) in
  hintLine rt relativePath (mr_score r) preview.

(** The branch [results.length === 0] of the handler, with its own
    [try]. *)
Definition geminiFallback (prompt llmEntities searchQuery : jsstring)
  (extractMs : Z) : M (option jsstring) :=
  created <- ensureMemoryTool w ;;
  match created with
  | None => ret None
  | Some None => ret None
  | Some (Some _) =>
      geminiResult <-
        toolExecute w (str "preflight-fallback") (slice0 200 prompt) 5 minScore03 ;;
      let geminiMs := (dateNow w EndGemini - dateNow w StartGemini)%Z in
      match geminiResult with
      | ExecuteThrows => ret None
      | NoTextContent => ret None
      | TextContent ParseThrows => ret None
      | TextContent (Parsed _ None) => ret None
      | TextContent (Parsed true (Some _)) => ret None
      | TextContent (Parsed false (Some [])) => ret None
      | TextContent (Parsed false (Some parsedResults)) =>
          let geminiHints := List.map geminiHint parsedResults in
          logSearch
            {| ts := toISOString w FallbackLogTs;
               prompt := slice0 200 prompt;
               entities := Some llmEntities;
               searchQuery := searchQuery ++ str " [GEMINI FALLBACK]";
               results :=
                 List.map (fun r =>
                   (replaceFirst reWorkspacePrefix [] (mr_path r), mr_score r))
                   parsedResults;
               extractMs := extractMs;
               searchMs := geminiMs;
               totalMs := (dateNow w FallbackEndTotal - dateNow w StartTotal)%Z |} ;;
          ret (Some (hintBlock (join [LF] geminiHints)))
      end
  end.

(** One line of [hintsWithSnippets]. *)
Definition hintWithSnippet (r : QmdResult) : M jsstring :=
  snippet <- getSnippet (path r) 100 ;;
  ret (hintLine rt (path r) (score r) snippet).

(** The [try] block of the handler: the keyword search, its audit record,
    and either the hints with their snippets or the fallback. *)
Definition searchCascade (prompt llmEntities searchQuery : jsstring)
  (extractMs : Z) : M (option jsstring) :=
  results <- searchWithQmd searchQuery 5 ;;
  let searchMs := (dateNow w EndSearch - dateNow w StartSearch)%Z in
  let totalMs := (dateNow w EndTotal - dateNow w StartTotal)%Z in
  logSearch
    {| ts := toISOString w LogTs;
       prompt := slice0 200 prompt;
       entities := Some llmEntities;
       searchQuery := searchQuery;
       results := List.map (fun r => (path r, score r)) results;
       extractMs := extractMs;
       searchMs := searchMs;
       totalMs := totalMs |} ;;
  match results with
  | [] => geminiFallback prompt llmEntities searchQuery extractMs
  | _ :: _ =>
      hintsWithSnippets <- mapM hintWithSnippet results ;;
      ret (Some (hintBlock (join [LF] hintsWithSnippets)))
  end.

(** The handler from the extraction on, for a prompt that passed the
    checks. *)
Definition recall (prompt : jsstring) : M (option jsstring) :=
  llmEntities <- extractEntities prompt ;;
  let extractMs := (dateNow w EndExtract - dateNow w StartExtract)%Z in
  match llmEntities with
  | None => ret (Some disabledHint)
  | Some llmEntities =>
      let searchQuery := searchQueryOf llmEntities in
      if (List.length searchQuery <? 2)%nat then ret None
      else searchCascade prompt llmEntities searchQuery extractMs
  end.

(** The [before_agent_start] handler: [None] is [undefined], [Some c] is
    [{ prependContext: c }]. *)
Definition before_agent_start (rawPrompt : option jsstring)
  : M (option jsstring) :=
  match rawPrompt with
  | None => ret None
  | Some rawPrompt =>
      if (List.length rawPrompt <? 10)%nat then ret None
      else
        let prompt := cleanPrompt rawPrompt in
        if (List.length prompt <? 3)%nat then ret None
        else if startsWith (str "/") prompt then ret None
        else if matchesSkipPattern prompt then ret None
        else recall prompt
  end.

End Plugin.
End Hybrid.

(* ================================================================== *)
(** ** The memory-tool variant *)

Module MemTool.
Section Plugin.

Variable rt : Runtime.
Variable w : World.

(** [extractEntities], with the bound 200 *)
Definition extractEntities (query : jsstring) : M (option jsstring) :=
  emit (OllamaFetch query) ;;
  ret (entitiesOf 200 (ollama w query)).

Definition stopWords : list jsstring :=
  List.map str
    [ "what"; "who"; "where"; "when"; "why"; "how"; "which";
      "is"; "are"; "was"; "were"; "be"; "been"; "being";
      "the"; "a"; "an"; "this"; "that"; "these"; "those";
      "i"; "you"; "he"; "she"; "it"; "we"; "they"; "me"; "him"; "her";
      "us"; "them";
      "my"; "your"; "his"; "its"; "our"; "their";
      "do"; "does"; "did"; "have"; "has"; "had"; "can"; "could"; "will";
      "would"; "should";
      "about"; "with"; "from"; "into"; "of"; "for"; "on"; "at"; "to"; "by";
      "and"; "or"; "but"; "if"; "then"; "so"; "because";
      "tell"; "know"; "think"; "see"; "say"; "talk"; "look"; "find"; "get";
      "give";
      "just"; "also"; "very"; "really"; "now"; "here"; "there";
      "hints"; "hint"; "seeing"; "showing"; "show"; "recall"; "remember";
      "remembered";
      "memory"; "memories"; "file"; "files"; "context"; "relevant";
      "related" ]%string.

(** [stopWords.has(x)] *)
Definition isStopWord (x : jsstring) : bool :=
  existsb (jsstring_eqb x) stopWords.

(** [/[?.,!]/g] *)
Definition rePunctuation : regex :=
  Chr (COneOf [chr "?"; chr "."; chr ","; chr "!"]).

(** The stop-word fallback of the handler. *)
Definition stopWordQuery (prompt : jsstring) : jsstring :=
  join (str " ")
    (filter (fun word =>
               (1 <? List.length word)%nat
               && negb (isStopWord (replaceAll rePunctuation [] word)))
       (splitRe (Plus CSpace) (toLowerCase rt prompt))).

(** [searchQuery], from the entities or from the fallback. *)
Definition searchQueryOf (prompt : jsstring) (llmEntities : option jsstring)
  : jsstring :=
  match llmEntities with
  | Some llmEntities =>
      replaceAll (Chr (CLit (chr ","))) (str " ") (toLowerCase rt llmEntities)
  | None => stopWordQuery prompt
  end.

(** One line of [hints]. *)
Definition hint (r : MemoryResult) : jsstring :=
  let relativePath := replaceFirst reWorkspacePrefix [] (mr_path r) in
  let preview :=
    trim (slice0 80
            (trim (replaceAll (Plus CSpace) (str " ") (mr_snippet r)))) in
  hintLine rt relativePath (mr_score r) preview.

(** The [try] block of the handler. *)
Definition searchMemory (searchQuery : jsstring) : M (option jsstring) :=
  created <- ensureMemoryTool w ;;
  match created with
  | None => ret None
  | Some None => ret None
  | Some (Some _) =>
      if (List.length searchQuery <? 3)%nat then ret None
      else
        result <- toolExecute w (str "preflight") searchQuery 5 minScore03 ;;
        match result with
        | ExecuteThrows => ret None
        | NoTextContent => ret None
        | TextContent ParseThrows => ret None
        | TextContent (Parsed _ None) => ret None
        | TextContent (Parsed true (Some _)) => ret None
        | TextContent (Parsed false (Some [])) => ret None
        | TextContent (Parsed false (Some results)) =>
            let hints := join [LF] (List.map hint results) in
            ret (Some (hintBlock hints))
        end
  end.

(** The [before_agent_start] handler.  The entities are asked for right
    after the cleaning; the checks on the cleaned prompt come after. *)
Definition before_agent_start (rawPrompt : option jsstring)
  : M (option jsstring) :=
  match rawPrompt with
  | None => ret None
  | Some rawPrompt =>
      if (List.length rawPrompt <? 10)%nat then ret None
      else
        let prompt := cleanPrompt rawPrompt in
        llmEntities <- extractEntities prompt ;;
        let searchQuery := searchQueryOf prompt llmEntities in
        if (List.length prompt <? 3)%nat then ret None
        else if startsWith (str "/") prompt then ret None
        else if matchesSkipPattern prompt then ret None
        else searchMemory searchQuery
  end.

End Plugin.
End MemTool.

(** A turn is rejected by the Normalizer when the raw text is missing or
    too short, or when the cleaned text fails one of its three checks. *)
Definition rejected (rawPrompt : option jsstring) : bool :=
  match rawPrompt with
  | None => true
  | Some raw => (List.length raw <? 10)%nat || cleanedRejected (cleanPrompt raw)
  end.

Definition eligible (rawPrompt : option jsstring) : bool :=
  negb (rejected rawPrompt).

(** Reference instances for running the handlers on concrete turns.  On
    ASCII text [unicodeLower] is never called.  [toFixed2Decimal] rounds
    the decimal value itself to hundredths (half up); it is used below
    only on scores that have at most two decimals, where the runtime
    prints the same digits. *)
Definition digitsOf (n : N) : jsstring :=
  let fix go (fuel : nat) (n : N) (acc : jsstring) : jsstring :=
    match fuel with
    | O => acc
    | S fuel' =>
        let acc' := ((n mod 10) + 48)%N :: acc in
        if (n / 10 =? 0)%N then acc' else go fuel' (n / 10)%N acc'
    end in
  go (S (N.to_nat (N.log2 n))) n [].

Definition hundredths (mant : N) (e10 : Z) : N :=
  if (-2 <=? e10)%Z then (mant * 10 ^ Z.to_N (e10 + 2))%N
  else
    let d := (10 ^ Z.to_N (- e10 - 2))%N in
    ((2 * mant + d) / (2 * d))%N.

Definition toFixed2Decimal (x : number) : jsstring :=
  match x with
  | NaN => str "NaN"
  | Infinity neg => if neg then str "-Infinity" else str "Infinity"
  | Dec neg mant e10 =>
      let h := hundredths mant e10 in
      (if neg then str "-" else [])
      ++ digitsOf (h / 100) ++ str "."
      ++ [((h / 10) mod 10 + 48)%N; (h mod 10 + 48)%N]
  end.

Definition asciiRuntime : Runtime :=
  {| unicodeLower := fun s => s; toFixed2 := toFixed2Decimal |}.

(* ================================================================== *)
(** ** Definitions used to state the properties *)

Definition isQmdExec (e : Event) : bool :=
  match e with QmdExec _ _ => true | _ => false end.
Definition isToolExecute (e : Event) : bool :=
  match e with ToolExecute _ _ _ _ => true | _ => false end.
Definition isAppendFile (e : Event) : bool :=
  match e with AppendFile _ _ => true | _ => false end.
Definition isWritten (e : Event) : bool :=
  match e with AppendFile _ written => written | _ => false end.

(** The turn reached stage 1 of the Search Cascade: the keyword backend
    was called. *)
Definition reachedSearch (evs : list Event) : bool := existsb isQmdExec evs.

(** The calls of the semantic backend, of [logSearch], and the records
    that were written. *)
Definition semanticCalls (evs : list Event) : list Event :=
  filter isToolExecute evs.
Definition logCalls (evs : list Event) : nat :=
  List.length (filter isAppendFile evs).
Definition logWrites (evs : list Event) : nat :=
  List.length (filter isWritten evs).

Definition isSome {A : Type} (o : option A) : bool :=
  match o with Some _ => true | None => false end.

(** The semantic fallback was called and the turn ended with a hint. *)
Definition fallbackAnswered (o : Outcome (option jsstring)) : bool :=
  existsb isToolExecute (events o) && isSome (answer o).

(** Is there a tool handle for the fallback: one kept from an earlier
    turn, or one that the host creates now? *)
Definition toolAvailable (w : World) (st : State) : bool :=
  match memoryTool st with
  | Some _ => true
  | None =>
      match createMemorySearchTool w with
      | Created (Some _) => true
      | Created None | CreateThrows => false
      end
  end.

(** The extractor is unavailable, in the words of the specification:
    transport failure, non-success status, or an empty or over-length
    response (a body that is not the expected JSON has no response). *)
Definition extractorUnavailable (bound : nat) (reply : OllamaReply) : bool :=
  match reply with
  | FetchThrows => true
  | NotOk => true
  | JsonThrows => true
  | Json None => true
  | Json (Some response) =>
      (List.length (trim response) =? 0)%nat
      || (bound <=? List.length (trim response))%nat
  end.

(** The audit record of the keyword search, and the state once
    [logSearch] has tried to write it. *)
Definition firstEntry (w : World) (prompt e q : jsstring) (ms : Z)
  : SearchLog :=
  {| ts := toISOString w LogTs;
     prompt := slice0 200 prompt;
     entities := Some e;
     searchQuery := q;
     results := List.map (fun r => (Hybrid.path r, Hybrid.score r))
                  (Hybrid.keywordHits w q 5);
     extractMs := ms;
     searchMs := (dateNow w EndSearch - dateNow w StartSearch)%Z;
     totalMs := (dateNow w EndTotal - dateNow w StartTotal)%Z |}.

Definition afterFirstEntry (w : World) (prompt e q : jsstring) (ms : Z)
  (st : State) : State :=
  if appendFile w (firstEntry w prompt e q ms)
  then {| memoryTool := memoryTool st;
          logFile := logFile st ++ [firstEntry w prompt e q ms] |}
  else st.

Definition noHits {A : Type} (l : list A) : bool :=
  match l with [] => true | _ :: _ => false end.

(** The query strings handed to a search backend. *)
Definition queriesIssued (evs : list Event) : list jsstring :=
  flat_map (fun e => match e with
                     | QmdExec q _ => [q]
                     | ToolExecute _ q _ _ => [q]
                     | _ => []
                     end) evs.

(** The acknowledgement and greeting words of [skipPatterns]. *)
Definition ackWords : list jsstring :=
  List.map str
    [ "ok"; "okay"; "sure"; "thanks"; "thank you"; "yes"; "no"; "yep";
      "nope"; "got it"; "sounds good";
      "hi"; "hello"; "hey"; "morning"; "evening" ]%string.

(** Patterns made of case-insensitive literals and the anchors without
    the [m] flag. *)
Fixpoint caseless (r : regex) : bool :=
  match r with
  | Eps => true
  | Chr (CLitI _) => true
  | Cat r1 r2 | Alt r1 r2 => caseless r1 && caseless r2
  | Bol m | Eol m => negb m
  | _ => false
  end.

(** *** Worlds for the examples *)

Definition tripResult : MemoryResult :=
  {| mr_path := str "/home/u/.openclaw/workspace/memory/notes/trip.md";
     mr_snippet := str "Toronto   trip: flights booked";
     mr_score := Dec false 45 (-2) |}.

(** Ollama answers "Toronto, trip"; QMD prints [qmdOut]; the memory tool
    is created as [tool] and answers [found]; the log can be written. *)
Definition exampleWorld (qmdOut : option jsstring)
  (tool : option MemorySearchTool) (found : list MemoryResult) : World :=
  {| ollama := fun _ => Json (Some (str "Toronto, trip"));
     qmd := fun _ _ => qmdOut;
     head500 := fun _ => Some (str "# Trip" ++ [LF] ++ str "Flights   booked");
     createMemorySearchTool := Created tool;
     execute := fun _ _ _ _ => TextContent (Parsed false (Some found));
     appendFile := fun _ => true;
     dateNow := fun _ => 0%Z;
     toISOString := fun _ => str "2026-01-01T00:00:00.000Z" |}.

(** The keyword search finds one file. *)
Definition worldKeywordHit : World :=
  exampleWorld (Some (str "#a1,0.92,qmd://memory/notes/trip.md")) (Some Tool)
    [tripResult].

(** The keyword search finds nothing, the semantic search one file. *)
Definition worldSemanticHit : World :=
  exampleWorld (Some []) (Some Tool) [tripResult].

(** The keyword search finds nothing and no memory tool is configured. *)
Definition worldNoTool : World := exampleWorld (Some []) None [].

(** Ollama is not running. *)
Definition worldOllamaDown : World :=
  {| ollama := fun _ => FetchThrows;
     qmd := fun _ _ => None;
     head500 := fun _ => None;
     createMemorySearchTool := Created None;
     execute := fun _ _ _ _ => NoTextContent;
     appendFile := fun _ => true;
     dateNow := fun _ => 0%Z;
     toISOString := fun _ => [] |}.

(** Ollama answers with a lone comma. *)
Definition worldComma : World :=
  {| ollama := fun _ => Json (Some (str ","));
     qmd := fun _ _ => None;
     head500 := fun _ => None;
     createMemorySearchTool := Created (Some Tool);
     execute := fun _ _ _ _ => NoTextContent;
     appendFile := fun _ => true;
     dateNow := fun _ => 0%Z;
     toISOString := fun _ => [] |}.

Definition tripQuestion : jsstring := str "tell me about the Toronto trip".


(** [requires c r]: every match of [r] contains the code unit [c],
    decided on the syntax of [r]. *)
Fixpoint requires (c : codeunit) (r : regex) : bool :=
  match r with
  | Chr (CLit c') => (c' =? c)%N
  | Cat r1 r2 => requires c r1 || requires c r2
  | Alt r1 r2 => requires c r1 && requires c r2
  | _ => false
  end.

(* ================================================================== *)
(** ** Further definitions for the properties of the code *)

(** [sub] is [full] with some code units deleted. *)
Inductive Subseq : jsstring -> jsstring -> Prop :=
| SubseqNil : Subseq [] []
| SubseqKeep (x : codeunit) (sub full : jsstring) :
    Subseq sub full -> Subseq (x :: sub) (x :: full)
| SubseqDrop (x : codeunit) (sub full : jsstring) :
    Subseq sub full -> Subseq sub (x :: full).

(** The code unit before the position reached after reading [u]. *)
Fixpoint lastOr (prev : option codeunit) (u : jsstring) : option codeunit :=
  match u with
  | [] => prev
  | x :: u' => lastOr (Some x) u'
  end.

(** No white space at either end. *)
Definition trimmedEnds (s : jsstring) : Prop :=
  match s with
  | [] => True
  | x :: _ => isWhiteSpace x = false /\ isWhiteSpace (last s x) = false
  end.

(** Every white-space code unit is a plain space, and no two of them are
    adjacent. *)
Fixpoint singleSpaced (s : jsstring) : bool :=
  match s with
  | [] => true
  | x :: s' =>
      (negb (isWhiteSpace x) || (x =? 32)%N)
      && match s' with
         | y :: _ => negb (isWhiteSpace x && isWhiteSpace y)
         | [] => true
         end
      && singleSpaced s'
  end.

(** The code units that are not white space, in order. *)
Definition inked (s : jsstring) : jsstring :=
  filter (fun c => negb (isWhiteSpace c)) s.

(** The annotation that the host puts after a message:
    a line feed and [[message_id: id]]. *)
Definition messageIdSuffix (id : jsstring) : jsstring :=
  LF :: str "[message_id: " ++ id ++ str "]".

Definition isCreateTool (e : Event) : bool :=
  match e with CreateMemorySearchTool => true | _ => false end.
Definition isHeadExec (e : Event) : bool :=
  match e with HeadExec _ => true | _ => false end.
Definition isOllamaFetch (e : Event) : bool :=
  match e with OllamaFetch _ => true | _ => false end.

Definition countEvents (f : Event -> bool) (evs : list Event) : nat :=
  List.length (filter f evs).

(** The host calls the handler of a plugin once per turn, each turn with
    its own prompt and its own answers of the collaborators; the state of
    the plugin goes from one turn to the next.  The events of all the
    turns, in order. *)
Fixpoint runTurns (handler : World -> option jsstring -> M (option jsstring))
  (turns : list (World * option jsstring)) (st : State) : list Event :=
  match turns with
  | [] => []
  | (w, raw) :: turns' =>
      events (handler w raw st)
      ++ runTurns handler turns' (after (handler w raw st))
  end.

(** The state of the plugin after the turns. *)
Fixpoint stateAfterTurns
  (handler : World -> option jsstring -> M (option jsstring))
  (turns : list (World * option jsstring)) (st : State) : State :=
  match turns with
  | [] => st
  | (w, raw) :: turns' =>
      stateAfterTurns handler turns' (after (handler w raw st))
  end.

(** What [s.replace(/\s+/g, " ")] should give, read off directly: each
    run of white space becomes one space.  [inRun] tells that the code
    unit before was white space. *)
Fixpoint collapseSpaces (inRun : bool) (s : jsstring) : jsstring :=
  match s with
  | [] => []
  | x :: s' =>
      if isWhiteSpace x then
        if inRun then collapseSpaces true s'
        else 32%N :: collapseSpaces true s'
      else x :: collapseSpaces false s'
  end.

(** The snippet that the hybrid handler shows for a path. *)
Definition snippetFor (w : World) (path : jsstring) : jsstring :=
  match head500 w path with
  | Some stdout => Hybrid.snippetOf stdout 100
  | None => []
  end.

(** The tool handle after a turn that needed it. *)
Definition toolAfter (w : World) (st : State) : option MemorySearchTool :=
  match memoryTool st with
  | Some t => Some t
  | None =>
      match createMemorySearchTool w with
      | Created t => t
      | CreateThrows => None
      end
  end.

(** What a call of the memory tool brings back for the handlers: the
    results of a well-formed, enabled answer, nothing in any other
    case. *)
Definition resultsOf (o : ExecuteOutcome) : list MemoryResult :=
  match o with
  | TextContent (Parsed false (Some rs)) => rs
  | _ => []
  end.

(** The results of the semantic fallback of the hybrid variant. *)
Definition fallbackResults (w : World) (prompt : jsstring) (st : State)
  : list MemoryResult :=
  if toolAvailable w st
  then resultsOf (execute w (str "preflight-fallback") (slice0 200 prompt) 5
                    minScore03)
  else [].

(** The audit record of an answered fallback. *)
Definition fallbackEntry (w : World) (prompt e q : jsstring) (ms : Z)
  (rs : list MemoryResult) : SearchLog :=
  {| ts := toISOString w FallbackLogTs;
     prompt := slice0 200 prompt;
     entities := Some e;
     searchQuery := q ++ str " [GEMINI FALLBACK]";
     results :=
       List.map (fun r =>
                   (replaceFirst reWorkspacePrefix [] (mr_path r), mr_score r))
         rs;
     extractMs := ms;
     searchMs := (dateNow w EndGemini - dateNow w StartGemini)%Z;
     totalMs := (dateNow w FallbackEndTotal - dateNow w StartTotal)%Z |}.

(** The records that the [AppendFile] events say were written. *)
Definition written (evs : list Event) : list SearchLog :=
  flat_map (fun e => match e with
                     | AppendFile entry true => [entry]
                     | _ => []
                     end) evs.

(** The results that the memory-tool variant gets for a query. *)
Definition memtoolResults (w : World) (q : jsstring) (st : State)
  : list MemoryResult :=
  if negb (List.length q <? 3)%nat && toolAvailable w st
  then resultsOf (execute w (str "preflight") q 5 minScore03)
  else [].

(** A state in which the memory tool was created in an earlier turn. *)
Definition stateWithTool : State :=
  {| memoryTool := Some Tool; logFile := [] |}.

(** Three turns for the examples: a question, an acknowledgement, the
    question again with no keyword hit. *)
Definition threeTurns : list (World * option jsstring) :=
  [ (worldKeywordHit, Some tripQuestion);
    (worldKeywordHit, Some (str "thank you."));
    (worldSemanticHit, Some tripQuestion) ].

(** No opening bracket of the text is followed by [m]: no message-id
    annotation starts in it. *)
Fixpoint noIdStart (s : jsstring) : bool :=
  match s with
  | [] => true
  | x :: s' =>
      negb ((x =? chr "[")%N
            && match s' with
               | y :: _ => (y =? chr "m")%N
               | [] => false
               end)
      && noIdStart s'
  end.

(** The names of the days in the timestamp pattern. *)
Definition weekdays : list jsstring :=
  List.map str ["Mon"; "Tue"; "Wed"; "Thu"; "Fri"; "Sat"; "Sun"]%string.

(** [n] decimal digits. *)
Definition digits (n : nat) (s : jsstring) : Prop :=
  List.length s = n /\ Forall (fun c => isDigit c = true) s.

(** The prefix that the host puts before a message:
    [[Day YYYY-MM-DD HH:MM TZ]]. *)
Definition timestampPrefix (day year month dayOfMonth hour minute zone
  : jsstring) : jsstring :=
  str "[" ++ day ++ str " " ++ year ++ str "-" ++ month ++ str "-"
  ++ dayOfMonth ++ str " " ++ hour ++ str ":" ++ minute ++ str " "
  ++ zone ++ str "]".

(** The parts of a prefix are well formed: a day name, a date and a time
    in digits (the hour in one or two), a zone in capital letters. *)
Definition wellFormedTimestamp (day year month dayOfMonth hour minute zone
  : jsstring) : Prop :=
  In day weekdays
  /\ digits 4 year /\ digits 2 month /\ digits 2 dayOfMonth
  /\ (digits 1 hour \/ digits 2 hour) /\ digits 2 minute
  /\ zone <> [] /\ Forall (fun c => clsMatch CUpper c = true) zone.

(** [lit] occurs somewhere in [s]. *)
Fixpoint occursIn (lit s : jsstring) : bool :=
  match s with
  | [] => startsWith lit []
  | _ :: s' => startsWith lit s || occursIn lit s'
  end.

(** The directory that the paths of the memory files go through. *)
Definition workspaceDir : jsstring := str ".openclaw/workspace/".

(* ------------------------------------------------------------------ *)
(** *** The command line of the keyword search *)

(** [`${n}`] for a non-negative integer *)
Definition decimal (n : nat) : jsstring :=
  str (NilZero.string_of_uint (Nat.to_uint n)).

(** The [replace] inside the command line: each double quote of the
    query gets a backslash before it. *)
Definition escapeQuotes (query : jsstring) : jsstring :=
  replaceAll (Chr (CLit 34%N)) [92; 34]%N query.

(** The command line that [searchWithQmd] hands to the shell: the path
    of [qmd] under [home] (for [process.env.HOME]), [search], the query
    between double quotes with [escapeQuotes] applied, [-n maxResults]
    and [--files 2>/dev/null]. *)
Definition qmdCommandLine (home query : jsstring) (maxResults : nat)
  : jsstring :=
  (home ++ str "/.bun/bin/qmd") ++ str " search " ++ [34%N]
  ++ escapeQuotes query ++ [34%N] ++ str " -n " ++ decimal maxResults
  ++ str " --files 2>/dev/null".

(** A backslash put before each double quote, every other code unit kept
    as it is. *)
Definition backslashBeforeQuotes (query : jsstring) : jsstring :=
  flat_map (fun c => if (c =? 34)%N then [92; 34]%N else [c]) query.

(* ------------------------------------------------------------------ *)
(** *** The heading line of a memory file *)

(** What follows the first line of [s], when that line ends in a line
    feed (and not in another line terminator, or with the text). *)
Fixpoint afterFirstLine (s : jsstring) : option jsstring :=
  match s with
  | [] => None
  | x :: s' =>
      if isLineTerminator x then
        if (x =? LF)%N then Some s' else None
      else afterFirstLine s'
  end.

(** What the [replace] with [/^#.*\n/] should give, read off directly:
    a first line that starts with [#] and ends in a line feed is taken
    away, and nothing else. *)
Definition withoutHeadingLine (stdout : jsstring) : jsstring :=
  match stdout with
  | x :: s' =>
      if (x =? chr "#")%N then
        match afterFirstLine s' with
        | Some rest => rest
        | None => stdout
        end
      else stdout
  | [] => []
  end.

(* ------------------------------------------------------------------ *)
(** *** The places where a pattern of the cleaning can start *)

(** [f] holds of [s] or of what is left of [s] after some of its first
    code units. *)
Fixpoint somewhere (f : jsstring -> bool) (s : jsstring) : bool :=
  f s
  || match s with
     | _ :: s' => somewhere f s'
     | [] => false
     end.

(** [System:], then any white space, then an opening bracket or brace:
    the start that the three patterns for System messages share. *)
Definition systemStart (t : jsstring) : bool :=
  startsWith (str "System:") t
  && match dropWhile isWhiteSpace (skipn 7 t) with
     | x :: _ => (x =? chr "[")%N || (x =? chr "{")%N
     | [] => false
     end.

(** The start of a message-id annotation, of a timestamp ([[Mon] to
    [[Sun]) or of a System message. *)
Definition startsMarker (t : jsstring) : bool :=
  startsWith (str "[message_id:") t
  || existsb (fun day => startsWith (chr "[" :: day) t) weekdays
  || systemStart t.

(** [s] holds, somewhere, the start of a message-id annotation, of a
    timestamp or of a System message. *)
Definition hasMarker (s : jsstring) : bool := somewhere startsMarker s.

(* ================================================================== *)
(** ** The matcher *)

Lemma starGreedy_consumes (c : cls) (k : cont) (s : jsstring) :
  forall prev res,
    starGreedy c k prev s = Some res ->
    exists prev' p s', s = p ++ s' /\ k prev' s' = Some res.
Proof.
  induction s as [|x s IH]; simpl; intros prev res H.
  - exists prev, [], []. auto.
  - destruct (clsMatch c x).
    + destruct (starGreedy c k (Some x) s) as [r|] eqn:E.
      * inversion H; subst r.
        destruct (IH _ _ E) as (prev' & p & s' & -> & Hk).
        exists prev', (x :: p), s'. auto.
      * exists prev, [], (x :: s). auto.
    + exists prev, [], (x :: s). auto.
Qed.

Lemma starLazy_consumes (c : cls) (k : cont) (s : jsstring) :
  forall prev res,
    starLazy c k prev s = Some res ->
    exists prev' p s', s = p ++ s' /\ k prev' s' = Some res.
Proof.
  induction s as [|x s IH]; simpl; intros prev res H.
  - destruct (k prev []) eqn:E; [|discriminate].
    exists prev, [], []. inversion H; subst. auto.
  - destruct (k prev (x :: s)) eqn:E.
    + inversion H; subst. exists prev, [], (x :: s). auto.
    + destruct (clsMatch c x); [|discriminate].
      destruct (IH _ _ H) as (prev' & p & s' & -> & Hk).
      exists prev', (x :: p), s'. auto.
Qed.

(** A successful match hands a suffix of the input to its continuation. *)
Lemma rmatchK_consumes (r : regex) :
  forall k prev s res,
    rmatchK r k prev s = Some res ->
    exists prev' p s', s = p ++ s' /\ k prev' s' = Some res.
Proof.
  induction r as [|c|r1 IH1 r2 IH2|r1 IH1 r2 IH2|c|c|m|m];
    simpl; intros k prev s res H.
  - exists prev, [], s. auto.
  - destruct s as [|x s]; [discriminate|].
    destruct (clsMatch c x); [|discriminate].
    exists (Some x), [x], s. auto.
  - destruct (IH1 _ _ _ _ H) as (p1 & u & s1 & -> & H1).
    destruct (IH2 _ _ _ _ H1) as (p2 & v & s2 & -> & H2).
    exists p2, (u ++ v), s2. rewrite app_assoc. auto.
  - destruct (rmatchK r1 k prev s) as [res'|] eqn:E.
    + inversion H; subst res'. eauto.
    + eauto.
  - eapply starGreedy_consumes; eauto.
  - eapply starLazy_consumes; eauto.
  - destruct (atLineStart m prev); [|discriminate].
    exists prev, [], s. auto.
  - destruct (atLineEnd m s); [|discriminate].
    exists prev, [], s. auto.
Qed.

(** A pattern that requires [c] matches only where [c] occurs. *)
Lemma rmatchK_requires (c : codeunit) (r : regex) :
  requires c r = true ->
  forall k prev s res, rmatchK r k prev s = Some res -> In c s.
Proof.
  induction r as [|cl|r1 IH1 r2 IH2|r1 IH1 r2 IH2|cl|cl|m|m];
    simpl; intros Hreq k prev s res H; try discriminate.
  - destruct cl; try discriminate.
    destruct s as [|x s]; [discriminate|].
    simpl in H. destruct (x =? c0)%N eqn:E; [|discriminate].
    apply N.eqb_eq in E. apply N.eqb_eq in Hreq. subst. now left.
  - apply orb_true_iff in Hreq. destruct Hreq as [Hreq|Hreq].
    + eapply IH1; eauto.
    + destruct (rmatchK_consumes _ _ _ _ H) as (p1 & u & s1 & -> & H1).
      apply in_or_app. right. eapply IH2; eauto.
  - apply andb_true_iff in Hreq. destruct Hreq as [Hq1 Hq2].
    destruct (rmatchK r1 k prev s) as [res'|] eqn:E.
    + eapply IH1; eauto.
    + eapply IH2; eauto.
Qed.

Lemma rmatch_without (c : codeunit) (r : regex) (prev : option codeunit)
  (s : jsstring) :
  requires c r = true -> ~ In c s -> rmatch r prev s = None.
Proof.
  intros Hreq Hnot. unfold rmatch.
  destruct (rmatchK r (fun _ rest => Some rest) prev s) eqn:E; [|reflexivity].
  exfalso. apply Hnot. eapply rmatchK_requires; eauto.
Qed.

(** Replacing the matches of a pattern that requires [c] leaves a text
    without [c] as it is. *)
Lemma replaceAll_without (c : codeunit) (r : regex) (rep s : jsstring) :
  requires c r = true -> ~ In c s -> replaceAll r rep s = s.
Proof.
  intros Hreq. unfold replaceAll. generalize (@None codeunit).
  induction s as [|x s IH]; intros prev Hnot; simpl.
  - now rewrite (@rmatch_without c r prev _ Hreq Hnot).
  - rewrite (@rmatch_without c r prev _ Hreq Hnot).
    f_equal. apply IH. intro Hin. apply Hnot. now right.
Qed.

(* ================================================================== *)
(** ** [trim] *)

Lemma dropWhile_head (p : codeunit -> bool) (s : jsstring) :
  match dropWhile p s with
  | x :: _ => p x = false
  | [] => True
  end.
Proof.
  induction s as [|x s IH]; simpl; [exact I|].
  destruct (p x) eqn:E; [exact IH|exact E].
Qed.

Lemma dropWhile_fixed (p : codeunit -> bool) (s : jsstring) :
  match s with x :: _ => p x = false | [] => True end ->
  dropWhile p s = s.
Proof.
  destruct s as [|x s]; simpl; [reflexivity|]. now intros ->.
Qed.

Lemma dropWhile_suffix (p : codeunit -> bool) (s : jsstring) :
  exists u, s = u ++ dropWhile p s.
Proof.
  induction s as [|x s [u IH]]; simpl.
  - now exists [].
  - destruct (p x).
    + exists (x :: u). simpl. now f_equal.
    + now exists [].
Qed.

(** A trimmed text is left alone by [trim]. *)
Lemma trim_idempotent (s : jsstring) : trim (trim s) = trim s.
Proof.
  unfold trim, trimEnd, trimStart.
  set (u := dropWhile isWhiteSpace s).
  set (v := dropWhile isWhiteSpace (rev u)).
  assert (Hstart : dropWhile isWhiteSpace (rev v) = rev v).
  { apply dropWhile_fixed.
    destruct (dropWhile_suffix isWhiteSpace (rev u)) as [z Hz].
    fold v in Hz.
    assert (Hu : u = rev v ++ rev z).
    { rewrite <- rev_app_distr, <- Hz. now rewrite rev_involutive. }
    destruct (rev v) as [|x t] eqn:Ev; [exact I|].
    pose proof (dropWhile_head isWhiteSpace s) as Hh. fold u in Hh.
    rewrite Hu in Hh. exact Hh. }
  rewrite Hstart, rev_involutive.
  f_equal. apply dropWhile_fixed.
  exact (dropWhile_head isWhiteSpace (rev u)).
Qed.

(* ================================================================== *)
(** ** Message Normalizer: properties *)

Lemma cleanPrompt_trimmed (raw : jsstring) :
  trim (cleanPrompt raw) = cleanPrompt raw.
Proof. unfold cleanPrompt. apply trim_idempotent. Qed.

(** A trimmed text with no bracket and no brace is a fixed point of the
    cleaning chain. *)
Lemma cleanPrompt_fixed (t : jsstring) :
  ~ In (chr "[") t -> ~ In (chr "{") t -> trim t = t -> cleanPrompt t = t.
Proof.
  intros Hb Hc Ht. unfold cleanPrompt.
  rewrite (@replaceAll_without (chr "[") reMessageId [] t); auto.
  rewrite (@replaceAll_without (chr "[") reTimestamp [] t); auto.
  rewrite (@replaceAll_without (chr "[") reSystemLine [] t); auto.
  rewrite (@replaceAll_without (chr "[") reSystemBracketJson [] t); auto.
  rewrite (@replaceAll_without (chr "{") reSystemJson [] t); auto.
Qed.

(** C7, as stated, fails: a timestamp prefix behind a leading blank is
    not at a line start in the first pass, and is after [trim]. *)
Lemma C7_counterexample :
  cleanPrompt (cleanPrompt (str " [Mon 2024-01-01 10:00 UTC] hello world"))
  <> cleanPrompt (str " [Mon 2024-01-01 10:00 UTC] hello world").
Proof. vm_compute. discriminate. Qed.

(* ================================================================== *)
(** ** The handlers, stage by stage *)

Lemma existsb_filter_nil (f : Event -> bool) (l : list Event) :
  existsb f l = false -> filter f l = [].
Proof.
  induction l as [|e l IH]; simpl; [reflexivity|].
  destruct (f e); simpl; [discriminate|exact IH].
Qed.

Lemma existsb_filter_nil_inv (f : Event -> bool) (l : list Event) :
  filter f l = [] -> existsb f l = false.
Proof.
  induction l as [|e l IH]; simpl; [reflexivity|].
  destruct (f e); simpl; [discriminate|exact IH].
Qed.

(** *** Case-insensitive patterns *)

Lemma asciiUpper_lower (x : codeunit) : asciiUpper (asciiLower x) = asciiUpper x.
Proof.
  unfold asciiUpper, asciiLower.
  destruct (N.leb_spec 65 x), (N.leb_spec x 90); cbn [andb];
    destruct (N.leb_spec 97 x), (N.leb_spec x 122); cbn [andb];
    destruct (N.leb_spec 97 (x + 32)), (N.leb_spec (x + 32) 122);
    cbn [andb]; lia.
Qed.

(** A caseless pattern cannot tell a text from its lower-cased copy. *)
Lemma rmatchK_caseless (r : regex) :
  caseless r = true ->
  forall (k k' : cont) prev prev' s,
    isSome prev = isSome prev' ->
    (forall p p' t,
        isSome p = isSome p' ->
        isSome (k p t) = isSome (k' p' (List.map asciiLower t))) ->
    isSome (rmatchK r k prev s)
    = isSome (rmatchK r k' prev' (List.map asciiLower s)).
Proof.
  induction r as [|c|r1 IH1 r2 IH2|r1 IH1 r2 IH2|c|c|m|m];
    cbn [caseless]; intros Hc k k' prev prev' s Hp Hk; try discriminate.
  - cbn [rmatchK]. now apply Hk.
  - destruct c; try discriminate.
    destruct s as [|x s]; cbn [rmatchK List.map]; [reflexivity|].
    cbn [clsMatch]. rewrite asciiUpper_lower.
    destruct (asciiUpper x =? asciiUpper c)%N; [|reflexivity].
    now apply Hk.
  - apply andb_true_iff in Hc. destruct Hc as [Hc1 Hc2].
    cbn [rmatchK]. apply IH1; try assumption.
    intros p p' t Hpp. apply IH2; assumption.
  - apply andb_true_iff in Hc. destruct Hc as [Hc1 Hc2].
    cbn [rmatchK].
    pose proof (IH1 Hc1 k k' prev prev' s Hp Hk) as H1.
    pose proof (IH2 Hc2 k k' prev prev' s Hp Hk) as H2.
    destruct (rmatchK r1 k prev s),
      (rmatchK r1 k' prev' (List.map asciiLower s));
      cbn [isSome] in *; try discriminate; auto.
  - destruct m; [discriminate|]. cbn [rmatchK].
    destruct prev, prev'; cbn [isSome atLineStart andb] in *;
      try discriminate; auto.
  - destruct m; [discriminate|]. cbn [rmatchK].
    destruct s; cbn [List.map atLineEnd andb]; auto.
Qed.

Lemma testFrom_caseless (r : regex) :
  caseless r = true ->
  forall s prev prev',
    isSome prev = isSome prev' ->
    testFrom r prev s = testFrom r prev' (List.map asciiLower s).
Proof.
  intros Hc. induction s as [|x s IH]; intros prev prev' Hp.
  - cbn [testFrom List.map]. unfold rmatch.
    pose proof (rmatchK_caseless r Hc (fun _ rest => Some rest)
                  (fun _ rest => Some rest) prev prev' [] Hp
                  (fun _ _ _ _ => eq_refl)) as H.
    cbn [List.map] in H.
    destruct (rmatchK r (fun _ rest => Some rest) prev []),
      (rmatchK r (fun _ rest => Some rest) prev' []);
      cbn [isSome] in H; try discriminate; reflexivity.
  - cbn [testFrom List.map]. unfold rmatch.
    pose proof (rmatchK_caseless r Hc (fun _ rest => Some rest)
                  (fun _ rest => Some rest) prev prev' (x :: s) Hp
                  (fun _ _ _ _ => eq_refl)) as H.
    cbn [List.map] in H.
    destruct (rmatchK r (fun _ rest => Some rest) prev (x :: s)),
      (rmatchK r (fun _ rest => Some rest) prev'
         (asciiLower x :: List.map asciiLower s));
      cbn [isSome] in H; try discriminate; [reflexivity|].
    now apply IH.
Qed.

(** The skip patterns look at the text up to the case of its letters. *)
Lemma matchesSkipPattern_lowered (s : jsstring) :
  matchesSkipPattern s = matchesSkipPattern (List.map asciiLower s).
Proof.
  unfold matchesSkipPattern, skipPatterns, test. cbn [existsb].
  rewrite 2 (fun r H => testFrom_caseless r H s None None eq_refl)
    by reflexivity.
  reflexivity.
Qed.

(** Each word of the patterns, alone or with one final period, is
    matched. *)
Lemma ackWords_match (word : jsstring) :
  In word ackWords ->
  matchesSkipPattern word = true
  /\ matchesSkipPattern (word ++ str ".") = true.
Proof.
  unfold ackWords. cbn [List.map In].
  intros H.
  repeat (destruct H as [<-|H]; [split; vm_compute; reflexivity|]).
  destruct H.
Qed.

Lemma queriesIssued_nil (evs : list Event) :
  filter isToolExecute evs = [] -> existsb isQmdExec evs = false ->
  queriesIssued evs = [].
Proof.
  induction evs as [|e evs IH]; [reflexivity|].
  destruct e; cbn; intros H1 H2; try discriminate; auto.
Qed.

Section Handlers.

Variable rt : Runtime.
Variable w : World.

(** A rejected turn leaves the hybrid handler at once: no call, no hint,
    the state as it was. *)
Lemma hybrid_rejected (raw : option jsstring) (st : State) :
  rejected raw = true ->
  Hybrid.before_agent_start rt w raw st = mkOutcome None st [].
Proof.
  unfold rejected, cleanedRejected, Hybrid.before_agent_start.
  destruct raw as [raw|]; [|reflexivity].
  destruct (List.length raw <? 10)%nat; [reflexivity|].
  cbv zeta. rewrite orb_false_l.
  destruct (List.length (cleanPrompt raw) <? 3)%nat; [reflexivity|].
  destruct (startsWith (str "/") (cleanPrompt raw)); [reflexivity|].
  destruct (matchesSkipPattern (cleanPrompt raw)); [reflexivity|].
  discriminate.
Qed.

Lemma hybrid_eligible (raw : jsstring) (st : State) :
  eligible (Some raw) = true ->
  Hybrid.before_agent_start rt w (Some raw) st
  = Hybrid.recall rt w (cleanPrompt raw) st.
Proof.
  unfold eligible, rejected, cleanedRejected, Hybrid.before_agent_start.
  destruct (List.length raw <? 10)%nat; [discriminate|].
  cbv zeta. rewrite orb_false_l.
  destruct (List.length (cleanPrompt raw) <? 3)%nat; [discriminate|].
  destruct (startsWith (str "/") (cleanPrompt raw)); [discriminate|].
  destruct (matchesSkipPattern (cleanPrompt raw)); [discriminate|].
  reflexivity.
Qed.

(** The three ways out of [recall]. *)
Lemma recall_unavailable (prompt : jsstring) (st : State) :
  entitiesOf 300 (ollama w prompt) = None ->
  Hybrid.recall rt w prompt st
  = mkOutcome (Some Hybrid.disabledHint) st [OllamaFetch prompt].
Proof.
  intros H. unfold Hybrid.recall, Hybrid.extractEntities, bind, emit, ret.
  cbn [answer after events app]. now rewrite H.
Qed.

Lemma recall_short (prompt e : jsstring) (st : State) :
  entitiesOf 300 (ollama w prompt) = Some e ->
  (List.length (Hybrid.searchQueryOf rt e) <? 2)%nat = true ->
  Hybrid.recall rt w prompt st = mkOutcome None st [OllamaFetch prompt].
Proof.
  intros H Hs. unfold Hybrid.recall, Hybrid.extractEntities, bind, emit, ret.
  cbn [answer after events app]. rewrite H. cbv zeta. now rewrite Hs.
Qed.

Lemma recall_search (prompt e : jsstring) (st : State) :
  entitiesOf 300 (ollama w prompt) = Some e ->
  (List.length (Hybrid.searchQueryOf rt e) <? 2)%nat = false ->
  let o := Hybrid.searchCascade rt w prompt e (Hybrid.searchQueryOf rt e)
             (dateNow w EndExtract - dateNow w StartExtract)%Z st in
  Hybrid.recall rt w prompt st
  = mkOutcome (answer o) (after o) (OllamaFetch prompt :: events o).
Proof.
  intros H Hs. unfold Hybrid.recall, Hybrid.extractEntities, bind, emit, ret.
  cbn [answer after events app]. rewrite H. cbv zeta. now rewrite Hs.
Qed.

(** Reading the snippets logs nothing and calls no search backend. *)
Lemma hintsWithSnippets_outcome (results : list Hybrid.QmdResult) (st : State) :
  after (mapM (Hybrid.hintWithSnippet rt w) results st) = st
  /\ events (mapM (Hybrid.hintWithSnippet rt w) results st)
     = List.map (fun r => HeadExec (Hybrid.path r)) results.
Proof.
  induction results as [|r results [IHa IHe]]; [now split|].
  assert (Hr : after (Hybrid.hintWithSnippet rt w r st) = st
               /\ events (Hybrid.hintWithSnippet rt w r st)
                  = [HeadExec (Hybrid.path r)]).
  { unfold Hybrid.hintWithSnippet, Hybrid.getSnippet, bind, emit, ret.
    cbn [answer after events app].
    destruct (head500 w (Hybrid.path r)); now split. }
  destruct Hr as [Hra Hre].
  cbn [mapM]. unfold bind, ret. cbn [answer after events].
  rewrite Hra, Hre, IHa, IHe, app_nil_r. now split.
Qed.

Lemma logSearch_outcome (entry : SearchLog) (st : State) :
  Hybrid.logSearch w entry st
  = mkOutcome tt
      (if appendFile w entry
       then {| memoryTool := memoryTool st; logFile := logFile st ++ [entry] |}
       else st)
      [AppendFile entry (appendFile w entry)].
Proof.
  unfold Hybrid.logSearch. destruct (appendFile w entry); reflexivity.
Qed.

Ltac fallback_cases st :=
  repeat (cbn [answer after events app memoryTool logFile];
          match goal with
          | |- context [appendFile w ?e] =>
              destruct (appendFile w e) eqn:?
          | |- context [memoryTool st] =>
              destruct (memoryTool st) eqn:?
          | |- context [createMemorySearchTool w] =>
              destruct (createMemorySearchTool w) as [|[|]] eqn:?
          | |- context [execute w ?a ?b ?c ?d] =>
              destruct (execute w a b c d) as [| |[|[|] [[|? ?]|]]] eqn:?
          end).

Ltac count_events :=
  cbn [answer after events app memoryTool logFile semanticCalls logCalls
       logWrites reachedSearch existsb filter isToolExecute isAppendFile
       isWritten isQmdExec isSome List.length orb andb];
  rewrite ?length_app; cbn [List.length];
  repeat split; try reflexivity; try lia.

(** What the fallback does: at most one call of the semantic backend,
    made when a tool handle is there; one audit record when it answers. *)
Lemma geminiFallback_outcome (prompt e q : jsstring) (ms : Z) (st : State) :
  semanticCalls (events (Hybrid.geminiFallback rt w prompt e q ms st))
  = (if toolAvailable w st
     then [ToolExecute (str "preflight-fallback") (slice0 200 prompt) 5
             minScore03]
     else [])
  /\ logCalls (events (Hybrid.geminiFallback rt w prompt e q ms st))
     = (if isSome (answer (Hybrid.geminiFallback rt w prompt e q ms st))
        then 1 else 0)
  /\ List.length
       (logFile (after (Hybrid.geminiFallback rt w prompt e q ms st)))
     = List.length (logFile st)
       + logWrites (events (Hybrid.geminiFallback rt w prompt e q ms st))
  /\ (if isSome (answer (Hybrid.geminiFallback rt w prompt e q ms st))
      then existsb isToolExecute
             (events (Hybrid.geminiFallback rt w prompt e q ms st)) = true
      else True)
  /\ reachedSearch (events (Hybrid.geminiFallback rt w prompt e q ms st))
     = false.
Proof.
  unfold Hybrid.geminiFallback, ensureMemoryTool, toolExecute, getMemoryTool,
    setMemoryTool, toolAvailable, bind, emit, ret.
  fallback_cases st; rewrite ?logSearch_outcome; fallback_cases st;
    count_events.
Qed.

(** The cascade starts with the keyword search and its audit record. *)
Lemma searchCascade_outcome (prompt e q : jsstring) (ms : Z) (st : State) :
  Hybrid.searchCascade rt w prompt e q ms st
  = match Hybrid.keywordHits w q 5 with
    | [] =>
        let o := Hybrid.geminiFallback rt w prompt e q ms
                   (afterFirstEntry w prompt e q ms st) in
        mkOutcome (answer o) (after o)
          (QmdExec q 5
           :: AppendFile (firstEntry w prompt e q ms)
                (appendFile w (firstEntry w prompt e q ms))
           :: events o)
    | r :: rs =>
        mkOutcome
          (Some (hintBlock
                   (join [LF]
                      (answer (mapM (Hybrid.hintWithSnippet rt w) (r :: rs)
                                 (afterFirstEntry w prompt e q ms st))))))
          (afterFirstEntry w prompt e q ms st)
          (QmdExec q 5
           :: AppendFile (firstEntry w prompt e q ms)
                (appendFile w (firstEntry w prompt e q ms))
           :: List.map (fun r => HeadExec (Hybrid.path r)) (r :: rs))
    end.
Proof.
  unfold Hybrid.searchCascade, Hybrid.searchWithQmd, afterFirstEntry,
    firstEntry, bind, emit, ret.
  cbn [answer after events app].
  rewrite logSearch_outcome. cbn [answer after events app].
  destruct (Hybrid.keywordHits w q 5) as [|r rs] eqn:Hhits.
  - reflexivity.
  - cbn [answer after events].
    match goal with
    | |- context [mapM _ _ ?s] =>
        destruct (hintsWithSnippets_outcome (r :: rs) s) as [Ha He]
    end.
    rewrite Ha, He, app_nil_r. reflexivity.
Qed.

Lemma toolAvailable_afterFirstEntry (prompt e q : jsstring) (ms : Z)
  (st : State) :
  toolAvailable w (afterFirstEntry w prompt e q ms st) = toolAvailable w st.
Proof.
  unfold afterFirstEntry, toolAvailable.
  destruct (appendFile w (firstEntry w prompt e q ms)); reflexivity.
Qed.

Lemma logFile_afterFirstEntry (prompt e q : jsstring) (ms : Z) (st : State) :
  List.length (logFile (afterFirstEntry w prompt e q ms st))
  = List.length (logFile st)
    + (if appendFile w (firstEntry w prompt e q ms) then 1 else 0).
Proof.
  unfold afterFirstEntry.
  destruct (appendFile w (firstEntry w prompt e q ms));
    cbn [logFile]; rewrite ?length_app; cbn [List.length]; lia.
Qed.

Lemma no_search_in_snippets (results : list Hybrid.QmdResult) (f : Event -> bool) :
  (forall p, f (HeadExec p) = false) ->
  filter f (List.map (fun r => HeadExec (Hybrid.path r)) results) = [].
Proof.
  intros Hf. induction results as [|r results IH]; [reflexivity|].
  cbn [List.map filter]. now rewrite Hf.
Qed.

(** How a hybrid turn goes, in one of four ways. *)
Lemma hybrid_turn (raw : option jsstring) (st : State) :
  Hybrid.before_agent_start rt w raw st = mkOutcome None st []
  \/ (exists r, raw = Some r
        /\ eligible raw = true
        /\ entitiesOf 300 (ollama w (cleanPrompt r)) = None
        /\ Hybrid.before_agent_start rt w raw st
           = mkOutcome (Some Hybrid.disabledHint) st
               [OllamaFetch (cleanPrompt r)])
  \/ (exists r e, raw = Some r
        /\ eligible raw = true
        /\ entitiesOf 300 (ollama w (cleanPrompt r)) = Some e
        /\ (List.length (Hybrid.searchQueryOf rt e) <? 2)%nat = true
        /\ Hybrid.before_agent_start rt w raw st
           = mkOutcome None st [OllamaFetch (cleanPrompt r)])
  \/ (exists r e, raw = Some r
        /\ eligible raw = true
        /\ entitiesOf 300 (ollama w (cleanPrompt r)) = Some e
        /\ (List.length (Hybrid.searchQueryOf rt e) <? 2)%nat = false
        /\ Hybrid.before_agent_start rt w raw st
           = mkOutcome
               (answer (Hybrid.searchCascade rt w (cleanPrompt r) e
                          (Hybrid.searchQueryOf rt e)
                          (dateNow w EndExtract - dateNow w StartExtract)%Z st))
               (after (Hybrid.searchCascade rt w (cleanPrompt r) e
                         (Hybrid.searchQueryOf rt e)
                         (dateNow w EndExtract - dateNow w StartExtract)%Z st))
               (OllamaFetch (cleanPrompt r)
                :: events (Hybrid.searchCascade rt w (cleanPrompt r) e
                             (Hybrid.searchQueryOf rt e)
                             (dateNow w EndExtract - dateNow w StartExtract)%Z
                             st))).
Proof.
  destruct (rejected raw) eqn:Hrej.
  - left. now apply hybrid_rejected.
  - destruct raw as [r|]; [|discriminate Hrej].
    assert (Hel : eligible (Some r) = true) by (unfold eligible; now rewrite Hrej).
    rewrite (hybrid_eligible _ st Hel).
    destruct (entitiesOf 300 (ollama w (cleanPrompt r))) as [e|] eqn:He.
    + destruct (List.length (Hybrid.searchQueryOf rt e) <? 2)%nat eqn:Hs.
      * right. right. left. exists r, e.
        rewrite (recall_short _ st He Hs). auto.
      * right. right. right. exists r, e.
        rewrite (recall_search _ st He Hs). auto.
    + right. left. exists r. rewrite (recall_unavailable _ st He). auto.
Qed.

(** C1 (amended): for every turn that reaches the search stage, the
    handler calls [logSearch] once after the keyword search, and once more
    exactly when the semantic fallback was called and gave the hint
    returned: two calls on that path, one on every other.  Each call
    appends one record to the log, unless [appendFile] fails. *)
Theorem C1_audit_records_of_a_search_turn (raw : option jsstring) (st : State) :
  reachedSearch (events (Hybrid.before_agent_start rt w raw st)) = true ->
  logCalls (events (Hybrid.before_agent_start rt w raw st))
  = (if fallbackAnswered (Hybrid.before_agent_start rt w raw st)
     then 2 else 1)
  /\ List.length (logFile (after (Hybrid.before_agent_start rt w raw st)))
     = List.length (logFile st)
       + logWrites (events (Hybrid.before_agent_start rt w raw st)).
Proof.
  destruct (hybrid_turn raw st)
    as [H|[(r & _ & _ & _ & H)|[(r & e & _ & _ & _ & _ & H)
                                |(r & e & _ & _ & _ & _ & H)]]];
    rewrite H; try discriminate.
  clear H. intros _. unfold fallbackAnswered.
  cbn [answer after events].
  rewrite searchCascade_outcome.
  set (q := Hybrid.searchQueryOf rt e).
  set (ms := (dateNow w EndExtract - dateNow w StartExtract)%Z).
  set (p := cleanPrompt r).
  destruct (Hybrid.keywordHits w q 5) as [|h hs].
  - cbv zeta. cbn [answer after events].
    destruct (geminiFallback_outcome p e q ms (afterFirstEntry w p e q ms st))
      as (_ & Hlog & Hlen & Hex & _).
    unfold logCalls, logWrites in *.
    cbn [filter isAppendFile isWritten existsb isToolExecute List.length orb].
    rewrite Hlen, logFile_afterFirstEntry.
    destruct (isSome (answer (Hybrid.geminiFallback rt w p e q ms
                                (afterFirstEntry w p e q ms st)))).
    + rewrite Hex. cbn [andb].
      destruct (appendFile w (firstEntry w p e q ms));
        cbn [List.length]; split; lia.
    + rewrite andb_false_r.
      destruct (appendFile w (firstEntry w p e q ms));
        cbn [List.length]; split; lia.
  - cbn [answer after events]. unfold logCalls, logWrites.
    cbn [filter isAppendFile isWritten existsb isToolExecute orb].
    rewrite !no_search_in_snippets by reflexivity.
    rewrite (existsb_filter_nil_inv isToolExecute) by
      (apply no_search_in_snippets; reflexivity).
    rewrite logFile_afterFirstEntry.
    destruct (appendFile w (firstEntry w p e q ms));
      cbn [List.length andb]; split; lia.
Qed.

Lemma not_reached_no_qmd (evs : list Event) (q : jsstring) (n : nat) :
  reachedSearch evs = false -> ~ In (QmdExec q n) evs.
Proof.
  unfold reachedSearch. intros H Hin.
  assert (Ht : existsb isQmdExec evs = true).
  { apply existsb_exists. exists (QmdExec q n). now split. }
  congruence.
Qed.

Lemma snippets_no_qmd (results : list Hybrid.QmdResult) (q : jsstring) (n : nat) :
  ~ In (QmdExec q n) (List.map (fun r => HeadExec (Hybrid.path r)) results).
Proof.
  intros Hin. apply in_map_iff in Hin. destruct Hin as (r & Hr & _).
  discriminate.
Qed.

(** The events of the cascade, for the proofs about the search calls. *)
Lemma searchCascade_calls (p e q : jsstring) (ms : Z) (st : State) :
  filter isQmdExec (events (Hybrid.searchCascade rt w p e q ms st))
  = [QmdExec q 5]
  /\ semanticCalls (events (Hybrid.searchCascade rt w p e q ms st))
     = (if noHits (Hybrid.keywordHits w q 5) && toolAvailable w st
        then [ToolExecute (str "preflight-fallback") (slice0 200 p) 5
                minScore03]
        else []).
Proof.
  rewrite searchCascade_outcome. unfold semanticCalls.
  destruct (Hybrid.keywordHits w q 5) as [|h hs].
  - cbv zeta. cbn [events filter isQmdExec isToolExecute noHits andb].
    destruct (geminiFallback_outcome p e q ms (afterFirstEntry w p e q ms st))
      as (Hsem & _ & _ & _ & Hno).
    unfold semanticCalls in Hsem. rewrite Hsem.
    rewrite toolAvailable_afterFirstEntry.
    rewrite (existsb_filter_nil _ _ Hno). now split.
  - cbn [events filter isQmdExec isToolExecute noHits andb].
    rewrite !no_search_in_snippets by reflexivity. now split.
Qed.

(** C3 (amended): on a turn that reaches the search stage, the semantic
    backend is invoked if and only if the keyword backend returned zero
    hits and a memory tool is there (kept from an earlier turn, or
    created now); it is then invoked once, with the normalized message
    text cut to 200 code units, not with the extracted terms.  When the
    keyword backend returned a hit it is never invoked. *)
Theorem C3_semantic_fallback_call (raw : jsstring) (st : State)
  (q : jsstring) (n : nat) :
  In (QmdExec q n) (events (Hybrid.before_agent_start rt w (Some raw) st)) ->
  semanticCalls (events (Hybrid.before_agent_start rt w (Some raw) st))
  = (if noHits (Hybrid.keywordHits w q n) && toolAvailable w st
     then [ToolExecute (str "preflight-fallback")
             (slice0 200 (cleanPrompt raw)) 5 minScore03]
     else []).
Proof.
  destruct (hybrid_turn (Some raw) st)
    as [H|[(r & _ & _ & _ & H)|[(r & e & _ & _ & _ & _ & H)
                                |(r & e & Hr & _ & _ & _ & H)]]];
    rewrite H; cbn [events].
  - intros [].
  - intros [Hin|[]]; discriminate Hin.
  - intros [Hin|[]]; discriminate Hin.
  - injection Hr as <-.
    destruct (searchCascade_calls (cleanPrompt raw) e (Hybrid.searchQueryOf rt e)
                (dateNow w EndExtract - dateNow w StartExtract)%Z st)
      as [Hq Hsem].
    intros [Hin|Hin]; [discriminate Hin|].
    assert (Hin' : In (QmdExec q n)
                     (filter isQmdExec
                        (events (Hybrid.searchCascade rt w (cleanPrompt raw) e
                                   (Hybrid.searchQueryOf rt e)
                                   (dateNow w EndExtract - dateNow w StartExtract)%Z
                                   st)))).
    { apply filter_In. now split. }
    rewrite Hq in Hin'. destruct Hin' as [Heq|[]].
    injection Heq as <- <-.
    unfold semanticCalls in *. cbn [filter isToolExecute]. exact Hsem.
Qed.

Lemma unavailable_entitiesOf (bound : nat) (reply : OllamaReply) :
  extractorUnavailable bound reply = true <-> entitiesOf bound reply = None.
Proof.
  destruct reply as [| | |[response|]]; cbn [extractorUnavailable entitiesOf];
    try (split; reflexivity).
  cbv zeta. set (n := List.length (trim response)).
  destruct (Nat.ltb_spec 0 n), (Nat.ltb_spec n bound), (Nat.eqb_spec n 0),
    (Nat.leb_spec bound n); cbn [andb orb];
    split; intros; try reflexivity; try discriminate; lia.
Qed.

(** C4: when the primary extractor is unavailable (transport failure,
    non-success status, empty or over-length response) on a turn that
    passed the Normalizer, the hybrid handler, which has no deterministic
    fallback extractor, returns exactly the "recall disabled" diagnostic
    hint, the four lines of text given here: it neither returns nothing
    nor throws, it calls no search backend after the one request to the
    extractor, and it leaves the state as it was. *)
Theorem C4_disabled_hint_when_extractor_unavailable (raw : jsstring)
  (st : State) :
  eligible (Some raw) = true ->
  extractorUnavailable 300 (ollama w (cleanPrompt raw)) = true ->
  Hybrid.before_agent_start rt w (Some raw) st
  = mkOutcome
      (Some (str "<memory-hints>" ++ [LF]
             ++ [0x26A0; 0xFE0F]%N
             ++ str " Local LLM (Ollama) not running. Memory search disabled."
             ++ [LF]
             ++ str "Run `ollama serve` and ensure gemma3:4b is available."
             ++ [LF]
             ++ str "</memory-hints>"))
      st [OllamaFetch (cleanPrompt raw)].
Proof.
  intros Hel Hun. rewrite (hybrid_eligible _ st Hel).
  apply unavailable_entitiesOf in Hun.
  rewrite recall_unavailable by exact Hun. reflexivity.
Qed.

(** *** The memory-tool variant *)

Lemma memtool_short (raw : option jsstring) (st : State) :
  rawTooShort raw = true ->
  MemTool.before_agent_start rt w raw st = mkOutcome None st [].
Proof.
  unfold rawTooShort, MemTool.before_agent_start.
  destruct raw as [raw|]; [|reflexivity]. now intros ->.
Qed.

(** A turn whose cleaned prompt fails a check is dropped only after the
    extractor was asked. *)
Lemma memtool_cleaned_rejected (raw : jsstring) (st : State) :
  rawTooShort (Some raw) = false ->
  cleanedRejected (cleanPrompt raw) = true ->
  MemTool.before_agent_start rt w (Some raw) st
  = mkOutcome None st [OllamaFetch (cleanPrompt raw)].
Proof.
  unfold rawTooShort, cleanedRejected, MemTool.before_agent_start.
  intros -> H. cbv zeta.
  unfold MemTool.extractEntities, bind, emit, ret.
  cbn [answer after events app].
  destruct (List.length (cleanPrompt raw) <? 3)%nat; [reflexivity|].
  destruct (startsWith (str "/") (cleanPrompt raw)); [reflexivity|].
  destruct (matchesSkipPattern (cleanPrompt raw)); [reflexivity|].
  discriminate.
Qed.

Lemma memtool_eligible (raw : jsstring) (st : State) :
  eligible (Some raw) = true ->
  MemTool.before_agent_start rt w (Some raw) st
  = mkOutcome
      (answer (MemTool.searchMemory rt w
                 (MemTool.searchQueryOf rt (cleanPrompt raw)
                    (entitiesOf 200 (ollama w (cleanPrompt raw)))) st))
      (after (MemTool.searchMemory rt w
                (MemTool.searchQueryOf rt (cleanPrompt raw)
                   (entitiesOf 200 (ollama w (cleanPrompt raw)))) st))
      (OllamaFetch (cleanPrompt raw)
       :: events (MemTool.searchMemory rt w
                    (MemTool.searchQueryOf rt (cleanPrompt raw)
                       (entitiesOf 200 (ollama w (cleanPrompt raw)))) st)).
Proof.
  unfold eligible, rejected, cleanedRejected, MemTool.before_agent_start.
  destruct (List.length raw <? 10)%nat; [discriminate|].
  cbv zeta. rewrite orb_false_l.
  unfold MemTool.extractEntities, bind, emit, ret.
  cbn [answer after events app].
  destruct (List.length (cleanPrompt raw) <? 3)%nat; [discriminate|].
  destruct (startsWith (str "/") (cleanPrompt raw)); [discriminate|].
  destruct (matchesSkipPattern (cleanPrompt raw)); [discriminate|].
  reflexivity.
Qed.

(** The search of the memory-tool variant: at most one call of the tool,
    none for a query shorter than 3, and never a log record. *)
Lemma searchMemory_outcome (q : jsstring) (st : State) :
  semanticCalls (events (MemTool.searchMemory rt w q st))
  = (if negb (List.length q <? 3)%nat && toolAvailable w st
     then [ToolExecute (str "preflight") q 5 minScore03]
     else [])
  /\ (if (List.length q <? 3)%nat
      then answer (MemTool.searchMemory rt w q st) = None
      else True)
  /\ logCalls (events (MemTool.searchMemory rt w q st)) = 0
  /\ logFile (after (MemTool.searchMemory rt w q st)) = logFile st
  /\ reachedSearch (events (MemTool.searchMemory rt w q st)) = false.
Proof.
  unfold MemTool.searchMemory, ensureMemoryTool, toolExecute, getMemoryTool,
    setMemoryTool, toolAvailable, bind, emit, ret.
  destruct (List.length q <? 3)%nat; cbn [negb andb];
    fallback_cases st; count_events.
Qed.

(** C10: for every eligible turn whose effective search query is
    shorter than the minimum of the variant (2 code units in the hybrid
    variant, after extraction and term-capping; 3 in the memory-tool
    variant), the handler returns nothing: no search-backend call, no
    hint, and no audit record. *)
Theorem C10_short_query_returns_silently (raw : jsstring) (st : State) :
  eligible (Some raw) = true ->
  (forall e,
      entitiesOf 300 (ollama w (cleanPrompt raw)) = Some e ->
      List.length (Hybrid.searchQueryOf rt e) < 2 ->
      Hybrid.before_agent_start rt w (Some raw) st
      = mkOutcome None st [OllamaFetch (cleanPrompt raw)])
  /\ (List.length
        (MemTool.searchQueryOf rt (cleanPrompt raw)
           (entitiesOf 200 (ollama w (cleanPrompt raw)))) < 3 ->
      answer (MemTool.before_agent_start rt w (Some raw) st) = None
      /\ queriesIssued (events (MemTool.before_agent_start rt w (Some raw) st))
         = []
      /\ logCalls (events (MemTool.before_agent_start rt w (Some raw) st)) = 0
      /\ logFile (after (MemTool.before_agent_start rt w (Some raw) st))
         = logFile st).
Proof.
  intros Hel. split.
  - intros e He Hlen. rewrite (hybrid_eligible _ st Hel).
    apply recall_short with (e := e); [exact He|].
    now apply Nat.ltb_lt.
  - intros Hlen. rewrite (memtool_eligible _ st Hel).
    cbn [answer after events].
    set (q := MemTool.searchQueryOf rt (cleanPrompt raw)
                (entitiesOf 200 (ollama w (cleanPrompt raw)))) in *.
    destruct (searchMemory_outcome q st) as (Hsem & Hans & Hlog & Hfile & Hno).
    apply Nat.ltb_lt in Hlen. rewrite Hlen in Hsem, Hans.
    cbn [negb andb] in Hsem.
    repeat split; auto.
    cbn [queriesIssued flat_map app].
    apply queriesIssued_nil; assumption.
Qed.

(** C2, on the memory-tool variant: the turn "thank you." is rejected by
    the Normalizer (it is an acknowledgement), and yet the handler has
    asked the extractor before it drops the turn.  The hybrid variant
    makes no call on a rejected turn ([hybrid_rejected]). *)
Theorem C2_memtool_asks_extractor_on_rejected_turn (st : State) :
  rejected (Some (str "thank you.")) = true
  /\ MemTool.before_agent_start rt w (Some (str "thank you.")) st
     = mkOutcome None st [OllamaFetch (str "thank you.")].
Proof.
  split; [vm_compute; reflexivity|].
  rewrite memtool_cleaned_rejected by (vm_compute; reflexivity).
  vm_compute. reflexivity.
Qed.

(** C5 (amended): when the extractor returns "Toronto, trip", the
    hybrid variant calls the keyword backend once, with the query
    "toronto trip": lower-cased, commas replaced, white space collapsed,
    and at most the first 3 terms kept.  The memory-tool variant hands
    "toronto  trip" to the memory tool: lower-cased, each comma replaced
    by a space, white space not collapsed and the terms not capped. *)
Theorem C5_query_for_Toronto_trip (raw : jsstring) (st : State) :
  eligible (Some raw) = true ->
  ollama w (cleanPrompt raw) = Json (Some (str "Toronto, trip")) ->
  filter isQmdExec (events (Hybrid.before_agent_start rt w (Some raw) st))
  = [QmdExec (str "toronto trip") 5]
  /\ semanticCalls (events (MemTool.before_agent_start rt w (Some raw) st))
     = (if toolAvailable w st
        then [ToolExecute (str "preflight") (str "toronto  trip") 5 minScore03]
        else [])
  /\ Hybrid.searchQueryOf rt (str "Toronto, trip, flights, hotel")
     = str "toronto trip flights".
Proof.
  intros Hel Hollama. split; [|split].
  - assert (He : entitiesOf 300 (ollama w (cleanPrompt raw))
                 = Some (str "Toronto, trip"))
      by (rewrite Hollama; vm_compute; reflexivity).
    assert (Hq : Hybrid.searchQueryOf rt (str "Toronto, trip")
                 = str "toronto trip") by (vm_compute; reflexivity).
    assert (Hs : (List.length (Hybrid.searchQueryOf rt (str "Toronto, trip"))
                  <? 2)%nat = false) by (rewrite Hq; vm_compute; reflexivity).
    rewrite (hybrid_eligible _ st Hel), (recall_search _ st He Hs).
    cbv zeta. cbn [events filter isQmdExec]. rewrite Hq.
    apply searchCascade_calls.
  - assert (Hq : MemTool.searchQueryOf rt (cleanPrompt raw)
                   (entitiesOf 200 (ollama w (cleanPrompt raw)))
                 = str "toronto  trip")
      by (rewrite Hollama; vm_compute; reflexivity).
    rewrite (memtool_eligible _ st Hel), Hq.
    cbn [events]. unfold semanticCalls at 1. cbn [filter isToolExecute].
    destruct (searchMemory_outcome (str "toronto  trip") st) as (Hsem & _).
    exact Hsem.
  - vm_compute. reflexivity.
Qed.

(** C6 (amended): for every input whose normalized text is one of the
    fixed acknowledgement or greeting words ("ok", "thanks", "hello",
    ...), in any mix of upper and lower case, alone or followed by one
    period, no hint is produced, in either variant.  Another trailing
    punctuation mark, or a second period, is not covered. *)
Theorem C6_acknowledgements_give_no_hint (raw word : jsstring) (st : State) :
  In word ackWords ->
  List.map asciiLower (cleanPrompt raw) = word
  \/ List.map asciiLower (cleanPrompt raw) = word ++ str "." ->
  answer (Hybrid.before_agent_start rt w (Some raw) st) = None
  /\ answer (MemTool.before_agent_start rt w (Some raw) st) = None.
Proof.
  intros Hin Hword.
  assert (Hskip : matchesSkipPattern (cleanPrompt raw) = true).
  { rewrite matchesSkipPattern_lowered.
    destruct (ackWords_match Hin) as [H1 H2].
    destruct Hword as [->| ->]; assumption. }
  assert (Hcr : cleanedRejected (cleanPrompt raw) = true).
  { unfold cleanedRejected. rewrite Hskip. now rewrite !orb_true_r. }
  split.
  - rewrite hybrid_rejected; [reflexivity|].
    unfold rejected. rewrite Hcr. now rewrite orb_true_r.
  - destruct (rawTooShort (Some raw)) eqn:Hshort.
    + now rewrite memtool_short.
    + now rewrite memtool_cleaned_rejected.
Qed.

End Handlers.

(* ================================================================== *)
(** ** The keyword backend output *)

Lemma splitOn_without (sep : codeunit) (l : jsstring) :
  ~ In sep l -> splitOn sep l = [l].
Proof.
  induction l as [|c l IH]; intros Hnot; [reflexivity|].
  cbn [splitOn].
  destruct (N.eqb_spec c sep) as [->|Hne].
  - exfalso. apply Hnot. now left.
  - rewrite IH; [reflexivity|]. intro Hin. apply Hnot. now right.
Qed.

Lemma splitOn_app_sep (sep : codeunit) (l t : jsstring) :
  ~ In sep l -> splitOn sep (l ++ sep :: t) = l :: splitOn sep t.
Proof.
  induction l as [|c l IH]; intros Hnot.
  - cbn [app splitOn]. now rewrite N.eqb_refl.
  - cbn [app splitOn].
    destruct (N.eqb_spec c sep) as [->|Hne].
    + exfalso. apply Hnot. now left.
    + rewrite IH; [reflexivity|]. intro Hin. apply Hnot. now right.
Qed.

(** Splitting at line feeds gives back the lines that were joined. *)
Lemma splitOn_join (sep : codeunit) (ls : list jsstring) :
  Forall (fun l => ~ In sep l) ls -> ls <> [] ->
  splitOn sep (join [sep] ls) = ls.
Proof.
  induction ls as [|l ls IH]; intros Hall Hne; [congruence|].
  inversion Hall as [|? ? Hl Hls]; subst.
  destruct ls as [|l2 ls].
  - cbn [join]. now apply splitOn_without.
  - change (join [sep] (l :: l2 :: ls))
      with (l ++ [sep] ++ join [sep] (l2 :: ls)).
    cbn [app]. rewrite splitOn_app_sep by assumption.
    f_equal. apply IH; [assumption|discriminate].
Qed.



(* ================================================================== *)
(** ** The properties on concrete turns *)

(** C1, as stated, fails: the keyword search finds nothing, the fallback
    answers, and the turn leaves two records in the log. *)
Lemma C1_counterexample :
  ~ (reachedSearch
       (events (Hybrid.before_agent_start asciiRuntime worldSemanticHit
                  (Some tripQuestion) initialState)) = true ->
     List.length
       (logFile
          (after (Hybrid.before_agent_start asciiRuntime worldSemanticHit
                    (Some tripQuestion) initialState))) = 1).
Proof.
  intros H.
  assert (Hr : reachedSearch
                 (events (Hybrid.before_agent_start asciiRuntime
                            worldSemanticHit (Some tripQuestion)
                            initialState)) = true)
    by (vm_compute; reflexivity).
  specialize (H Hr). vm_compute in H. discriminate H.
Qed.

Lemma C1_witness :
  reachedSearch
    (events (Hybrid.before_agent_start asciiRuntime worldSemanticHit
               (Some tripQuestion) initialState)) = true
  /\ logCalls
       (events (Hybrid.before_agent_start asciiRuntime worldSemanticHit
                  (Some tripQuestion) initialState))
     = (if fallbackAnswered
             (Hybrid.before_agent_start asciiRuntime worldSemanticHit
                (Some tripQuestion) initialState)
        then 2 else 1)
  /\ List.length
       (logFile
          (after (Hybrid.before_agent_start asciiRuntime worldSemanticHit
                    (Some tripQuestion) initialState)))
     = List.length (logFile initialState)
       + logWrites
           (events (Hybrid.before_agent_start asciiRuntime worldSemanticHit
                      (Some tripQuestion) initialState)).
Proof.
  split; [vm_compute; reflexivity|].
  apply (@C1_audit_records_of_a_search_turn asciiRuntime worldSemanticHit
           (Some tripQuestion) initialState).
  vm_compute; reflexivity.
Defined.

(** C3, as stated, fails: the keyword backend returns zero hits and the
    semantic backend is not invoked, no memory tool being configured. *)
Lemma C3_counterexample :
  In (QmdExec (str "toronto trip") 5)
    (events (Hybrid.before_agent_start asciiRuntime worldNoTool
               (Some tripQuestion) initialState))
  /\ ~ (Hybrid.keywordHits worldNoTool (str "toronto trip") 5 = [] ->
        semanticCalls
          (events (Hybrid.before_agent_start asciiRuntime worldNoTool
                     (Some tripQuestion) initialState)) <> []).
Proof.
  split.
  - vm_compute. right. left. reflexivity.
  - intros H. apply H; vm_compute; reflexivity.
Qed.

Lemma C3_witness :
  In (QmdExec (str "toronto trip") 5)
    (events (Hybrid.before_agent_start asciiRuntime worldSemanticHit
               (Some tripQuestion) initialState))
  /\ semanticCalls
       (events (Hybrid.before_agent_start asciiRuntime worldSemanticHit
                  (Some tripQuestion) initialState))
     = (if noHits (Hybrid.keywordHits worldSemanticHit (str "toronto trip") 5)
           && toolAvailable worldSemanticHit initialState
        then [ToolExecute (str "preflight-fallback")
                (slice0 200 (cleanPrompt tripQuestion)) 5 minScore03]
        else []).
Proof.
  assert (Hin : In (QmdExec (str "toronto trip") 5)
                  (events (Hybrid.before_agent_start asciiRuntime
                             worldSemanticHit (Some tripQuestion)
                             initialState)))
    by (vm_compute; right; left; reflexivity).
  split; [exact Hin|].
  exact (@C3_semantic_fallback_call asciiRuntime worldSemanticHit tripQuestion
           initialState (str "toronto trip") 5 Hin).
Defined.

Lemma C4_witness :
  eligible (Some tripQuestion) = true
  /\ extractorUnavailable 300 (ollama worldOllamaDown (cleanPrompt tripQuestion))
     = true
  /\ Hybrid.before_agent_start asciiRuntime worldOllamaDown (Some tripQuestion)
       initialState
     = mkOutcome
         (Some (str "<memory-hints>" ++ [LF]
             ++ [0x26A0; 0xFE0F]%N
             ++ str " Local LLM (Ollama) not running. Memory search disabled."
             ++ [LF]
             ++ str "Run `ollama serve` and ensure gemma3:4b is available."
             ++ [LF]
             ++ str "</memory-hints>"))
         initialState [OllamaFetch (cleanPrompt tripQuestion)].
Proof.
  split; [vm_compute; reflexivity|]. split; [vm_compute; reflexivity|].
  apply (@C4_disabled_hint_when_extractor_unavailable asciiRuntime
           worldOllamaDown tripQuestion initialState);
    vm_compute; reflexivity.
Defined.

(** C5, as stated, fails on the memory-tool variant: the extractor
    returns "Toronto, trip" and the query "toronto trip" is not issued
    (the query has two spaces). *)
Lemma C5_counterexample :
  entitiesOf 200 (ollama worldSemanticHit (cleanPrompt tripQuestion))
  = Some (str "Toronto, trip")
  /\ ~ In (str "toronto trip")
         (queriesIssued
            (events (MemTool.before_agent_start asciiRuntime worldSemanticHit
                       (Some tripQuestion) initialState))).
Proof.
  split; [vm_compute; reflexivity|].
  vm_compute. intros [H|[]]. discriminate H.
Qed.

Lemma C5_witness :
  eligible (Some tripQuestion) = true
  /\ ollama worldKeywordHit (cleanPrompt tripQuestion)
     = Json (Some (str "Toronto, trip"))
  /\ filter isQmdExec
       (events (Hybrid.before_agent_start asciiRuntime worldKeywordHit
                  (Some tripQuestion) initialState))
     = [QmdExec (str "toronto trip") 5]
  /\ semanticCalls
       (events (MemTool.before_agent_start asciiRuntime worldKeywordHit
                  (Some tripQuestion) initialState))
     = (if toolAvailable worldKeywordHit initialState
        then [ToolExecute (str "preflight") (str "toronto  trip") 5 minScore03]
        else [])
  /\ Hybrid.searchQueryOf asciiRuntime (str "Toronto, trip, flights, hotel")
     = str "toronto trip flights".
Proof.
  split; [vm_compute; reflexivity|]. split; [vm_compute; reflexivity|].
  apply (@C5_query_for_Toronto_trip asciiRuntime worldKeywordHit tripQuestion
           initialState);
    vm_compute; reflexivity.
Defined.

(** C6, as stated, fails: "thank you!" is the word "thank you" with a
    trailing punctuation mark, it is not rejected, and a hint is
    produced. *)
Lemma C6_counterexample :
  List.map asciiLower (cleanPrompt (str "thank you!"))
  = str "thank you" ++ str "!"
  /\ answer (Hybrid.before_agent_start asciiRuntime worldKeywordHit
               (Some (str "thank you!")) initialState) <> None.
Proof.
  split; [vm_compute; reflexivity|]. vm_compute. discriminate.
Qed.

Lemma C6_witness :
  In (str "thanks") ackWords
  /\ (List.map asciiLower
        (cleanPrompt (str "[Mon 2024-01-01 10:00 UTC] Thanks."))
      = str "thanks"
      \/ List.map asciiLower
           (cleanPrompt (str "[Mon 2024-01-01 10:00 UTC] Thanks."))
         = str "thanks" ++ str ".")
  /\ answer (Hybrid.before_agent_start asciiRuntime worldKeywordHit
               (Some (str "[Mon 2024-01-01 10:00 UTC] Thanks."))
               initialState) = None
  /\ answer (MemTool.before_agent_start asciiRuntime worldKeywordHit
               (Some (str "[Mon 2024-01-01 10:00 UTC] Thanks."))
               initialState) = None.
Proof.
  assert (Hin : In (str "thanks") ackWords)
    by (vm_compute; do 3 right; left; reflexivity).
  assert (Hw : List.map asciiLower
                 (cleanPrompt (str "[Mon 2024-01-01 10:00 UTC] Thanks."))
               = str "thanks"
               \/ List.map asciiLower
                    (cleanPrompt (str "[Mon 2024-01-01 10:00 UTC] Thanks."))
                  = str "thanks" ++ str ".")
    by (right; vm_compute; reflexivity).
  split; [exact Hin|]. split; [exact Hw|].
  exact (@C6_acknowledgements_give_no_hint asciiRuntime worldKeywordHit
           (str "[Mon 2024-01-01 10:00 UTC] Thanks.") (str "thanks")
           initialState Hin Hw).
Defined.


Lemma C10_witness :
  eligible (Some tripQuestion) = true
  /\ Hybrid.before_agent_start asciiRuntime worldComma (Some tripQuestion)
       initialState
     = mkOutcome None initialState [OllamaFetch (cleanPrompt tripQuestion)]
  /\ answer (MemTool.before_agent_start asciiRuntime worldComma
               (Some tripQuestion) initialState) = None
  /\ queriesIssued
       (events (MemTool.before_agent_start asciiRuntime worldComma
                  (Some tripQuestion) initialState)) = []
  /\ logCalls
       (events (MemTool.before_agent_start asciiRuntime worldComma
                  (Some tripQuestion) initialState)) = 0
  /\ logFile
       (after (MemTool.before_agent_start asciiRuntime worldComma
                 (Some tripQuestion) initialState))
     = logFile initialState.
Proof.
  assert (Hel : eligible (Some tripQuestion) = true)
    by (vm_compute; reflexivity).
  destruct (@C10_short_query_returns_silently asciiRuntime worldComma
              tripQuestion initialState Hel) as [Hhybrid Hmemtool].
  split; [exact Hel|]. split.
  - apply (Hhybrid (str ",")); [vm_compute; reflexivity|].
    apply Nat.ltb_lt. vm_compute. reflexivity.
  - apply Hmemtool. apply Nat.ltb_lt. vm_compute. reflexivity.
Defined.

(* ================================================================== *)
(** ** Further properties of the code *)

Unset Implicit Arguments.

(** *** Literals and anchored patterns *)

Lemma startsWith_split (p s : jsstring) :
  startsWith p s = true -> s = p ++ skipn (List.length p) s.
Proof.
  revert s. induction p as [|a p IH]; intros s H; [reflexivity|].
  destruct s as [|b s]; [discriminate|].
  cbn [startsWith] in H. apply andb_true_iff in H. destruct H as [Hab Hp].
  apply N.eqb_eq in Hab. subst b.
  cbn [List.length skipn app]. f_equal. now apply IH.
Qed.

(** A literal matches exactly where the text starts with it. *)
Lemma rmatchK_literal (cs : jsstring) :
  forall (k : cont) prev s,
    rmatchK (fold_right (fun c r => Cat (Chr (CLit c)) r) Eps cs) k prev s
    = if startsWith cs s
      then k (lastOr prev cs) (skipn (List.length cs) s)
      else None.
Proof.
  induction cs as [|c cs IH]; intros k prev s; [reflexivity|].
  cbn [fold_right rmatchK].
  destruct s as [|x s]; [reflexivity|].
  cbn [clsMatch startsWith List.length skipn lastOr].
  rewrite (N.eqb_sym c x).
  destruct (N.eqb_spec x c) as [->|Hne]; [|reflexivity].
  cbn [andb]. apply IH.
Qed.

(** A pattern that starts with [^] (no [m] flag) matches at the start of
    the text only. *)
Lemma replaceFirstFrom_anchored (r : regex) (rep s : jsstring) (p : codeunit) :
  replaceFirstFrom (Cat (Bol false) r) rep (Some p) s = s.
Proof.
  revert p. induction s as [|x s IH]; intros p; cbn; [reflexivity|].
  now rewrite IH.
Qed.

Lemma replaceFirst_anchored (r : regex) (rep s : jsstring) :
  replaceFirst (Cat (Bol false) r) rep s
  = match rmatch (Cat (Bol false) r) None s with
    | Some rest => rep ++ rest
    | None => s
    end.
Proof.
  unfold replaceFirst.
  destruct s as [|x s]; cbn [replaceFirstFrom].
  - destruct (rmatch (Cat (Bol false) r) None []); reflexivity.
  - destruct (rmatch (Cat (Bol false) r) None (x :: s)); [reflexivity|].
    now rewrite replaceFirstFrom_anchored.
Qed.

(** *** The lines of the keyword backend *)

Lemma splitOn_nonempty (sep : codeunit) (s : jsstring) : splitOn sep s <> [].
Proof.
  destruct s as [|c s]; cbn [splitOn]; [discriminate|].
  destruct (c =? sep)%N; [discriminate|].
  destruct (splitOn sep s); discriminate.
Qed.

Lemma length_splitOn (sep : codeunit) (s : jsstring) :
  List.length (splitOn sep s) = S (count_occ N.eq_dec s sep).
Proof.
  induction s as [|c s IH]; [reflexivity|].
  cbn [splitOn count_occ].
  destruct (N.eqb_spec c sep) as [->|Hne].
  - destruct (N.eq_dec sep sep); [|congruence]. cbn [List.length]. now rewrite IH.
  - destruct (N.eq_dec c sep); [congruence|].
    destruct (splitOn sep s) as [|p ps] eqn:E; [now destruct (splitOn_nonempty sep s)|].
    cbn [List.length] in *. exact IH.
Qed.

(** Joining the pieces of a split gives the text back. *)
Lemma join_splitOn (sep : codeunit) (s : jsstring) :
  join [sep] (splitOn sep s) = s.
Proof.
  induction s as [|c s IH]; [reflexivity|].
  cbn [splitOn].
  destruct (splitOn sep s) as [|p ps] eqn:E; [now destruct (splitOn_nonempty sep s)|].
  destruct (c =? sep)%N eqn:Hc.
  - apply N.eqb_eq in Hc. subst c.
    change (join [sep] ([] :: p :: ps)) with ([] ++ [sep] ++ join [sep] (p :: ps)).
    rewrite IH. reflexivity.
  - destruct ps as [|q qs].
    + cbn [join] in *. now rewrite IH.
    + change (join [sep] ((c :: p) :: q :: qs))
        with (c :: (p ++ [sep] ++ join [sep] (q :: qs))).
      change (join [sep] (p :: q :: qs))
        with (p ++ [sep] ++ join [sep] (q :: qs)) in IH.
      now rewrite IH.
Qed.

(** The rewriting of the URI of a hit: a leading [qmd://memory/] becomes
    [memory/], and nothing else is touched. *)
Lemma rewrite_qmd_prefix (qmdPath : jsstring) :
  replaceFirst Hybrid.reQmdPrefix (str "memory/") qmdPath
  = if startsWith (str "qmd://memory/") qmdPath
    then str "memory/" ++ skipn 13 qmdPath
    else qmdPath.
Proof.
  unfold Hybrid.reQmdPrefix. cbn [seq fold_right].
  rewrite replaceFirst_anchored. unfold rmatch.
  cbn [rmatchK atLineStart]. unfold Lit. rewrite rmatchK_literal.
  cbn [rmatchK].
  destruct (startsWith (str "qmd://memory/") qmdPath); reflexivity.
Qed.

(** X1: a line of the keyword backend made of a hash and a score that
    have no comma, and a URI that may have commas, gives exactly one hit:
    the hash, the parsed score, and the whole URI with a leading
    [qmd://memory/] rewritten to [memory/]. *)
Theorem parseQmdLine_fields (hash score uri : jsstring) :
  ~ In (chr ",") hash ->
  ~ In (chr ",") score ->
  Hybrid.parseQmdLine (hash ++ str "," ++ score ++ str "," ++ uri)
  = [ {| Hybrid.hash := hash;
         Hybrid.score := parseFloat score;
         Hybrid.path :=
           if startsWith (str "qmd://memory/") uri
           then str "memory/" ++ skipn 13 uri
           else uri |} ].
Proof.
  intros Hh Hs. unfold Hybrid.parseQmdLine.
  change (str ",") with [chr ","]. cbn [app].
  rewrite (@splitOn_app_sep _ _ _ Hh), (@splitOn_app_sep _ _ _ Hs).
  cbn [List.length nth skipn].
  destruct (splitOn (chr ",") uri) as [|p ps] eqn:E;
    [now destruct (splitOn_nonempty (chr ",") uri)|].
  cbn [List.length Nat.leb]. rewrite <- E, join_splitOn, rewrite_qmd_prefix.
  reflexivity.
Qed.

Lemma parseQmdLine_fields_witness :
  Hybrid.parseQmdLine
    (str "#b2" ++ str "," ++ str "0.5" ++ str "," ++ str "qmd://memory/a,b.md")
  = [ {| Hybrid.hash := str "#b2";
         Hybrid.score := parseFloat (str "0.5");
         Hybrid.path :=
           if startsWith (str "qmd://memory/") (str "qmd://memory/a,b.md")
           then str "memory/" ++ skipn 13 (str "qmd://memory/a,b.md")
           else str "qmd://memory/a,b.md" |} ].
Proof.
  apply (@parseQmdLine_fields (str "#b2") (str "0.5") (str "qmd://memory/a,b.md"));
    vm_compute; intuition discriminate.
Defined.

(** X2: a line of the keyword backend gives a hit exactly when it has at
    least two commas, whatever the fields hold (a score that is not a
    number does not drop the line); a line with fewer is skipped. *)
Theorem parseQmdLine_hit_iff_two_commas (line : jsstring) :
  List.length (Hybrid.parseQmdLine line)
  = if (2 <=? count_occ N.eq_dec line (chr ","))%nat then 1 else 0.
Proof.
  unfold Hybrid.parseQmdLine. rewrite length_splitOn.
  change (3 <=? S (count_occ N.eq_dec line (chr ",")))%nat
    with (2 <=? count_occ N.eq_dec line (chr ","))%nat.
  destruct (2 <=? count_occ N.eq_dec line (chr ","))%nat; reflexivity.
Qed.

(* ------------------------------------------------------------------ *)
(** *** Deleting code units *)

Lemma Subseq_refl (s : jsstring) : Subseq s s.
Proof. induction s; constructor; assumption. Qed.

Lemma Subseq_nil (s : jsstring) : Subseq [] s.
Proof. induction s; constructor; assumption. Qed.

Lemma Subseq_length (a b : jsstring) :
  Subseq a b -> List.length a <= List.length b.
Proof. induction 1; cbn [List.length]; lia. Qed.

Lemma Subseq_trans (a b c : jsstring) :
  Subseq a b -> Subseq b c -> Subseq a c.
Proof.
  intros Hab Hbc. revert a Hab.
  induction Hbc as [|x b c Hbc IH|x b c Hbc IH]; intros a Hab.
  - exact Hab.
  - inversion Hab; subst.
    + constructor. now apply IH.
    + apply SubseqDrop. now apply IH.
  - apply SubseqDrop. now apply IH.
Qed.

Lemma Subseq_app (a b c d : jsstring) :
  Subseq a b -> Subseq c d -> Subseq (a ++ c) (b ++ d).
Proof.
  induction 1; intros Hcd; cbn [app]; try constructor; auto.
Qed.

Lemma Subseq_rev (a b : jsstring) : Subseq a b -> Subseq (rev a) (rev b).
Proof.
  induction 1 as [|x a b H IH|x a b H IH]; cbn [rev].
  - constructor.
  - apply Subseq_app; [exact IH|apply Subseq_refl].
  - rewrite <- (app_nil_r (rev a)).
    apply Subseq_app; [exact IH|apply Subseq_nil].
Qed.

Lemma Subseq_In (a b : jsstring) (c : codeunit) :
  Subseq a b -> In c a -> In c b.
Proof.
  induction 1 as [|x a b H IH|x a b H IH]; intros Hin.
  - exact Hin.
  - destruct Hin as [->|Hin]; [now left|right; auto].
  - right; auto.
Qed.

Lemma dropWhile_Subseq (p : codeunit -> bool) (s : jsstring) :
  Subseq (dropWhile p s) s.
Proof.
  induction s as [|x s IH]; cbn [dropWhile]; [constructor|].
  destruct (p x); [now apply SubseqDrop|apply Subseq_refl].
Qed.

Lemma trim_Subseq (s : jsstring) : Subseq (trim s) s.
Proof.
  unfold trim, trimEnd, trimStart.
  apply Subseq_trans with (b := dropWhile isWhiteSpace s);
    [|apply dropWhile_Subseq].
  rewrite <- (rev_involutive (dropWhile isWhiteSpace s)) at 2.
  apply Subseq_rev, dropWhile_Subseq.
Qed.

(** Replacing matches by nothing only deletes. *)
Lemma replaceAllFrom_Subseq (r : regex) (s : jsstring) :
  forall skip prev, Subseq (replaceAllFrom r [] skip prev s) s.
Proof.
  induction s as [|x s IH]; intros skip prev; cbn [replaceAllFrom].
  - destruct skip; [|constructor].
    destruct (rmatch r prev []); constructor.
  - destruct skip as [|n]; [|apply SubseqDrop, IH].
    destruct (rmatch r prev (x :: s)) as [rest|].
    + destruct (List.length (x :: s) - List.length rest) as [|n]; cbn [app].
      * apply SubseqKeep, IH.
      * apply SubseqDrop, IH.
    + apply SubseqKeep, IH.
Qed.

(** X3: the cleaning of the prompt only deletes: the cleaned prompt is
    the raw prompt with some code units removed, in the same order, and
    so it is never longer than the raw prompt. *)
Theorem cleanPrompt_only_deletes (rawPrompt : jsstring) :
  Subseq (cleanPrompt rawPrompt) rawPrompt
  /\ List.length (cleanPrompt rawPrompt) <= List.length rawPrompt.
Proof.
  assert (H : Subseq (cleanPrompt rawPrompt) rawPrompt).
  { unfold cleanPrompt, replaceAll. cbv zeta.
    eapply Subseq_trans; [apply trim_Subseq|].
    do 4 (eapply Subseq_trans; [apply replaceAllFrom_Subseq|]).
    apply replaceAllFrom_Subseq. }
  split; [exact H|now apply Subseq_length].
Qed.

Lemma dropWhile_shorter (p : codeunit -> bool) (x : codeunit) (s : jsstring) :
  p x = true -> List.length (dropWhile p (x :: s)) < List.length (x :: s).
Proof.
  intros Hp. cbn [dropWhile]. rewrite Hp.
  pose proof (Subseq_length _ _ (dropWhile_Subseq p s)). cbn [List.length]. lia.
Qed.

Lemma trimmedEnds_trim (s : jsstring) : trimmedEnds (trim s).
Proof.
  pose proof (trim_idempotent s) as Hidem.
  destruct (trim s) as [|x t] eqn:Ht; [exact I|].
  cbn [trimmedEnds].
  assert (Hx : isWhiteSpace x = false).
  { destruct (isWhiteSpace x) eqn:Hx; [exfalso|reflexivity].
    pose proof (dropWhile_shorter isWhiteSpace x t Hx) as Hlt.
    pose proof (Subseq_length _ _
                  (Subseq_rev _ _ (dropWhile_Subseq isWhiteSpace
                     (rev (dropWhile isWhiteSpace (x :: t)))))) as Hle.
    unfold trim, trimEnd, trimStart in Hidem.
    rewrite Hidem in Hle. rewrite !length_rev in Hle. lia. }
  split; [exact Hx|].
  destruct (isWhiteSpace (last (x :: t) x)) eqn:Hl; [exfalso|reflexivity].
  unfold trim, trimEnd, trimStart in Hidem.
  assert (Hd : dropWhile isWhiteSpace (x :: t) = x :: t)
    by (cbn [dropWhile]; now rewrite Hx).
  rewrite Hd in Hidem.
  destruct (rev (x :: t)) as [|y v] eqn:Hr.
  { apply (f_equal (@List.length _)) in Hr.
    rewrite length_rev in Hr. discriminate Hr. }
  assert (Hy : y = last (x :: t) x).
  { rewrite <- (rev_involutive (x :: t)), Hr. cbn [rev].
    now rewrite last_last. }
  subst y.
  pose proof (dropWhile_shorter isWhiteSpace _ v Hl) as Hlt.
  apply (f_equal (@List.length _)) in Hidem, Hr.
  rewrite length_rev in Hidem, Hr. cbn [List.length] in *. lia.
Qed.

(** X4: the cleaned prompt has no white space at either end. *)
Theorem cleanPrompt_trimmedEnds (rawPrompt : jsstring) :
  trimmedEnds (cleanPrompt rawPrompt).
Proof. unfold cleanPrompt. apply trimmedEnds_trim. Qed.

(* ------------------------------------------------------------------ *)
(** *** Collapsing white space *)

Lemma starGreedy_all (c : cls) (s : jsstring) :
  forall prev,
    starGreedy c (fun _ rest => Some rest) prev s
    = Some (dropWhile (clsMatch c) s).
Proof.
  induction s as [|x s IH]; intros prev; cbn [starGreedy dropWhile];
    [reflexivity|].
  destruct (clsMatch c x); [|reflexivity]. now rewrite IH.
Qed.

Lemma rmatch_spaces (prev : option codeunit) (s : jsstring) :
  rmatch (Plus CSpace) prev s
  = match s with
    | x :: s' =>
        if isWhiteSpace x then Some (dropWhile isWhiteSpace s') else None
    | [] => None
    end.
Proof.
  unfold rmatch, Plus. cbn [rmatchK].
  destruct s as [|x s]; [reflexivity|]. cbn [clsMatch].
  destruct (isWhiteSpace x); [|reflexivity].
  apply (starGreedy_all CSpace).
Qed.

Lemma dropWhile_length (p : codeunit -> bool) (s : jsstring) :
  List.length (dropWhile p s) <= List.length s.
Proof. apply Subseq_length, dropWhile_Subseq. Qed.

(** The [replace] with [/\s+/g] does what [collapseSpaces] says. *)
Lemma replaceAll_spaces (s : jsstring) :
  (forall prev,
      replaceAllFrom (Plus CSpace) (str " ") 0 prev s
      = collapseSpaces false s)
  /\ (forall prev,
        replaceAllFrom (Plus CSpace) (str " ")
          (List.length s - List.length (dropWhile isWhiteSpace s)) prev s
        = collapseSpaces true s).
Proof.
  induction s as [|x s [IH0 IHrun]].
  - split; intros prev; cbn [replaceAllFrom List.length dropWhile Nat.sub];
      rewrite rmatch_spaces; reflexivity.
  - assert (H0 : forall prev,
               replaceAllFrom (Plus CSpace) (str " ") 0 prev (x :: s)
               = collapseSpaces false (x :: s)).
    { intros prev. cbn [replaceAllFrom collapseSpaces].
      rewrite rmatch_spaces.
      destruct (isWhiteSpace x) eqn:Hx.
      - pose proof (dropWhile_length isWhiteSpace s) as Hle.
        replace (List.length (x :: s)
                 - List.length (dropWhile isWhiteSpace s))
          with (S (List.length s - List.length (dropWhile isWhiteSpace s)))
          by (cbn [List.length]; lia).
        rewrite IHrun. reflexivity.
      - now rewrite IH0. }
    split; [exact H0|]. intros prev.
    cbn [dropWhile].
    destruct (isWhiteSpace x) eqn:Hx.
    + pose proof (dropWhile_length isWhiteSpace s) as Hle.
      replace (List.length (x :: s) - List.length (dropWhile isWhiteSpace s))
        with (S (List.length s - List.length (dropWhile isWhiteSpace s)))
        by (cbn [List.length]; lia).
      cbn [replaceAllFrom collapseSpaces]. rewrite Hx. apply IHrun.
    + rewrite Nat.sub_diag. rewrite H0.
      cbn [collapseSpaces]. now rewrite Hx.
Qed.

Lemma inked_collapseSpaces (b : bool) (s : jsstring) :
  inked (collapseSpaces b s) = inked s.
Proof.
  revert b. induction s as [|x s IH]; intros b; [reflexivity|].
  unfold inked in *. cbn [collapseSpaces filter].
  destruct (isWhiteSpace x) eqn:Hx; cbn [negb].
  - destruct b; cbn [filter]; [apply IH|].
    change (isWhiteSpace 32%N) with true. cbn [negb]. apply IH.
  - cbn [filter]. rewrite Hx. cbn [negb]. now rewrite IH.
Qed.

Lemma singleSpaced_collapseSpaces (s : jsstring) :
  forall b,
    singleSpaced (collapseSpaces b s) = true
    /\ (b = true ->
        match collapseSpaces b s with
        | y :: _ => isWhiteSpace y = false
        | [] => True
        end).
Proof.
  induction s as [|x s IH]; intros b; [split; [reflexivity|intros _; exact I]|].
  cbn [collapseSpaces].
  destruct (isWhiteSpace x) eqn:Hx.
  - destruct (IH true) as [Hs Hh]. specialize (Hh eq_refl).
    destruct b; [split; [exact Hs|intros _; exact Hh]|].
    split; [|discriminate].
    cbn [singleSpaced]. rewrite Hs.
    change (isWhiteSpace 32%N) with true. cbn [negb orb andb N.eqb Pos.eqb].
    destruct (collapseSpaces true s) as [|y t]; [reflexivity|].
    now rewrite Hh.
  - destruct (IH false) as [Hs _].
    split; [|intros _; exact Hx].
    cbn [singleSpaced]. rewrite Hs, Hx. cbn [negb orb andb].
    destruct (collapseSpaces false s); reflexivity.
Qed.

Lemma replaceAll_spaces_facts (s : jsstring) :
  inked (replaceAll (Plus CSpace) (str " ") s) = inked s
  /\ singleSpaced (replaceAll (Plus CSpace) (str " ") s) = true.
Proof.
  unfold replaceAll. destruct (replaceAll_spaces s) as [H0 _].
  rewrite H0. split.
  - apply inked_collapseSpaces.
  - apply (singleSpaced_collapseSpaces s false).
Qed.

(** X5: [s.replace(/\s+/g, " ")], as used for the query, the snippets
    and the previews, keeps every code unit that is not white space, in
    order, and leaves no white space but single plain spaces. *)
Theorem collapse_white_space (s : jsstring) :
  inked (replaceAll (Plus CSpace) (str " ") s) = inked s
  /\ singleSpaced (replaceAll (Plus CSpace) (str " ") s) = true.
Proof. exact (replaceAll_spaces_facts s). Qed.

Lemma singleSpaced_tail (x : codeunit) (s : jsstring) :
  singleSpaced (x :: s) = true -> singleSpaced s = true.
Proof.
  cbn [singleSpaced]. intros H.
  apply andb_true_iff in H. now destruct H.
Qed.

Lemma singleSpaced_prefix (a b : jsstring) :
  singleSpaced (a ++ b) = true -> singleSpaced a = true.
Proof.
  induction a as [|x a IH]; intros H; [reflexivity|].
  cbn [app singleSpaced] in *.
  apply andb_true_iff in H. destruct H as [H Hs].
  apply andb_true_iff in H. destruct H as [Hx Hxy].
  rewrite (IH Hs), Hx. cbn [andb].
  destruct a as [|y a]; [reflexivity|]. cbn [app] in Hxy. now rewrite Hxy.
Qed.

Lemma singleSpaced_dropWhile (p : codeunit -> bool) (s : jsstring) :
  singleSpaced s = true -> singleSpaced (dropWhile p s) = true.
Proof.
  induction s as [|x s IH]; intros H; [reflexivity|].
  cbn [dropWhile]. destruct (p x); [|exact H].
  apply IH. now apply singleSpaced_tail in H.
Qed.

Lemma trimEnd_prefix (s : jsstring) : exists z, s = trimEnd s ++ z.
Proof.
  unfold trimEnd.
  destruct (dropWhile_suffix isWhiteSpace (rev s)) as [u Hu].
  exists (rev u).
  rewrite <- rev_app_distr, <- Hu. now rewrite rev_involutive.
Qed.

Lemma singleSpaced_trim (s : jsstring) :
  singleSpaced s = true -> singleSpaced (trim s) = true.
Proof.
  intros H. unfold trim.
  destruct (trimEnd_prefix (trimStart s)) as [z Hz].
  apply singleSpaced_prefix with (b := z). rewrite <- Hz.
  now apply singleSpaced_dropWhile.
Qed.

Lemma singleSpaced_firstn (n : nat) (s : jsstring) :
  singleSpaced s = true -> singleSpaced (firstn n s) = true.
Proof.
  intros H. apply singleSpaced_prefix with (b := skipn n s).
  now rewrite firstn_skipn.
Qed.

(** In a single-spaced text the only white space is the plain space: no
    line break, no tab. *)
Lemma singleSpaced_plain (s : jsstring) :
  singleSpaced s = true ->
  Forall (fun c => isWhiteSpace c = true -> c = 32%N) s.
Proof.
  induction s as [|x s IH]; intros H; constructor.
  - cbn [singleSpaced] in H.
    apply andb_true_iff in H. destruct H as [H _].
    apply andb_true_iff in H. destruct H as [H _].
    intros Hx. rewrite Hx in H. cbn [negb orb] in H. now apply N.eqb_eq.
  - apply IH. now apply singleSpaced_tail in H.
Qed.

(** X6: a snippet is one line of text: whatever the file holds, the
    snippet has no line break and no tab (its only white space is single
    plain spaces), it does not start with white space, and it is not
    longer than the maximum asked for. *)
Theorem getSnippet_single_line (w : World) (path : jsstring) (maxChars : nat)
  (st : State) :
  singleSpaced (answer (Hybrid.getSnippet w path maxChars st)) = true
  /\ Forall (fun c => isLineTerminator c = false)
       (answer (Hybrid.getSnippet w path maxChars st))
  /\ match answer (Hybrid.getSnippet w path maxChars st) with
     | x :: _ => isWhiteSpace x = false
     | [] => True
     end
  /\ List.length (answer (Hybrid.getSnippet w path maxChars st)) <= maxChars.
Proof.
  assert (Hs : singleSpaced (answer (Hybrid.getSnippet w path maxChars st))
               = true
               /\ match answer (Hybrid.getSnippet w path maxChars st) with
                  | x :: _ => isWhiteSpace x = false
                  | [] => True
                  end
               /\ List.length (answer (Hybrid.getSnippet w path maxChars st))
                  <= maxChars).
  { unfold Hybrid.getSnippet, bind, emit, ret. cbn [answer after events].
    destruct (head500 w path) as [stdout|]; cbn [answer];
      [|repeat split; cbn [List.length]; lia].
    unfold Hybrid.snippetOf, slice0.
    set (c := replaceAll (Plus CSpace) (str " ")
                (replaceFirst Hybrid.reHeading [] stdout)).
    split; [|split].
    - apply singleSpaced_firstn, singleSpaced_trim.
      apply replaceAll_spaces_facts.
    - pose proof (trimmedEnds_trim c) as Ht.
      destruct (trim c) as [|x t]; [now destruct maxChars|].
      destruct maxChars; [exact I|]. cbn [firstn]. now destruct Ht.
    - apply firstn_le_length. }
  destruct Hs as (Hs & Hh & Hl). repeat split; try assumption.
  apply Forall_forall. intros c Hc.
  pose proof (singleSpaced_plain _ Hs) as Hp.
  rewrite Forall_forall in Hp. specialize (Hp c Hc).
  destruct (isLineTerminator c) eqn:Hlt; [|reflexivity].
  assert (Hw : isWhiteSpace c = true)
    by (unfold isWhiteSpace; rewrite Hlt; now rewrite !orb_true_r).
  rewrite (Hp Hw) in Hlt. discriminate Hlt.
Qed.

(* ------------------------------------------------------------------ *)
(** *** The query of the hybrid variant *)

Lemma replaceAll_one (c d : codeunit) (s : jsstring) :
  replaceAll (Chr (CLit c)) [d] s
  = List.map (fun x => if (x =? c)%N then d else x) s.
Proof.
  unfold replaceAll. generalize (@None codeunit).
  induction s as [|x s IH]; intros prev; [reflexivity|].
  cbn [replaceAllFrom List.map]. unfold rmatch. cbn [rmatchK clsMatch].
  destruct (x =? c)%N.
  - replace (List.length (x :: s) - List.length s) with 1
      by (cbn [List.length]; lia).
    cbn [app]. now rewrite IH.
  - now rewrite IH.
Qed.

Lemma splitOn_pieces (sep : codeunit) (s : jsstring) :
  Forall (fun p => ~ In sep p) (splitOn sep s).
Proof.
  induction s as [|c s IH]; [repeat constructor; intros []|].
  cbn [splitOn].
  destruct (N.eqb_spec c sep) as [->|Hne].
  - constructor; [intros []|exact IH].
  - destruct (splitOn sep s) as [|p ps]; [repeat constructor; intros [H|[]]; congruence|].
    inversion IH; subst. constructor; [|assumption].
    intros [H|H]; [congruence|contradiction].
Qed.

Lemma join_firstn_prefix (sep : jsstring) (n : nat) (ps : list jsstring) :
  exists z, join sep ps = join sep (firstn n ps) ++ z.
Proof.
  revert n. induction ps as [|p ps IH]; intros n.
  - exists []. now destruct n.
  - destruct n as [|n]; [now exists (join sep (p :: ps))|].
    cbn [firstn]. destruct (IH n) as [z Hz].
    destruct ps as [|q qs].
    + exists []. destruct n; cbn [firstn join]; now rewrite app_nil_r.
    + destruct n as [|n].
      * exists (sep ++ join sep (q :: qs)). reflexivity.
      * cbn [firstn] in *. exists z.
        change (join sep (p :: q :: qs)) with (p ++ sep ++ join sep (q :: qs)).
        change (join sep (p :: q :: firstn n qs))
          with (p ++ sep ++ join sep (q :: firstn n qs)).
        rewrite Hz. now rewrite <- !app_assoc.
Qed.

(** X7: whatever the extractor returned, the query handed to the keyword
    backend has no comma, no white space but single plain spaces, and
    splits at its spaces into at most three terms: the first three terms
    of the cleaned entities. *)
Theorem searchQuery_shape (rt : Runtime) (llmEntities : jsstring) :
  ~ In (chr ",") (Hybrid.searchQueryOf rt llmEntities)
  /\ singleSpaced (Hybrid.searchQueryOf rt llmEntities) = true
  /\ splitOn (chr " ") (Hybrid.searchQueryOf rt llmEntities)
     = firstn 3 (Hybrid.allTermsOf rt llmEntities)
  /\ List.length (splitOn (chr " ") (Hybrid.searchQueryOf rt llmEntities)) <= 3.
Proof.
  unfold Hybrid.searchQueryOf, Hybrid.allTermsOf. cbv zeta.
  set (lowered := toLowerCase rt llmEntities).
  set (spaced := replaceAll (Chr (CLit (chr ","))) (str " ") lowered).
  set (t := trim (replaceAll (Plus CSpace) (str " ") spaced)).
  assert (Hcomma : ~ In (chr ",") t).
  { intros Hin.
    assert (Hsp : ~ In (chr ",") spaced).
    { unfold spaced. change (str " ") with [chr " "]. rewrite replaceAll_one.
      intros H. apply in_map_iff in H. destruct H as (x & Hx & _).
      destruct (N.eqb_spec x (chr ",")); [discriminate Hx|congruence]. }
    apply Hsp.
    assert (Hink : In (chr ",") (inked (replaceAll (Plus CSpace) (str " ") spaced))).
    { apply filter_In. split; [|reflexivity].
      exact (@Subseq_In _ _ _ (trim_Subseq _) Hin). }
    destruct (replaceAll_spaces_facts spaced) as [Heq _]. rewrite Heq in Hink.
    now apply filter_In in Hink. }
  assert (Hsingle : singleSpaced t = true)
    by (apply singleSpaced_trim, replaceAll_spaces_facts).
  destruct (join_firstn_prefix (str " ") 3 (splitOn (chr " ") t)) as [z Hz].
  change (str " ") with [chr " "] in *. rewrite join_splitOn in Hz.
  assert (Hsplit : splitOn (chr " ") (join [chr " "] (firstn 3 (splitOn (chr " ") t)))
                   = firstn 3 (splitOn (chr " ") t)).
  { apply splitOn_join.
    - pose proof (splitOn_pieces (chr " ") t) as Hp.
      rewrite <- (firstn_skipn 3 (splitOn (chr " ") t)) in Hp.
      now apply Forall_app in Hp.
    - destruct (splitOn (chr " ") t) eqn:E;
        [now destruct (splitOn_nonempty (chr " ") t)|discriminate]. }
  split; [|split; [|split]].
  - intros Hin. apply Hcomma. rewrite Hz. apply in_or_app. now left.
  - apply singleSpaced_prefix with (b := z). now rewrite <- Hz.
  - exact Hsplit.
  - rewrite Hsplit. apply firstn_le_length.
Qed.

(* ------------------------------------------------------------------ *)
(** *** The hybrid handler, in full *)

Ltac turn_cases w :=
  repeat (cbn [answer after events app memoryTool logFile];
          match goal with
          | |- context [appendFile w ?e] =>
              destruct (appendFile w e) eqn:?
          | |- context [createMemorySearchTool w] =>
              destruct (createMemorySearchTool w) as [|[|]] eqn:?
          | |- context [execute w ?a ?b ?c ?d] =>
              destruct (execute w a b c d) as [| |[|[|] [[|? ?]|]]] eqn:?
          end).

(** The semantic fallback, described by what the collaborators answer. *)
Lemma geminiFallback_full (rt : Runtime) (w : World) (p e q : jsstring)
  (ms : Z) (st : State) :
  answer (Hybrid.geminiFallback rt w p e q ms st)
  = match fallbackResults w p st with
    | [] => None
    | rs => Some (hintBlock (join [LF] (List.map (Hybrid.geminiHint rt) rs)))
    end
  /\ memoryTool (after (Hybrid.geminiFallback rt w p e q ms st))
     = toolAfter w st
  /\ logFile (after (Hybrid.geminiFallback rt w p e q ms st))
     = logFile st ++ written (events (Hybrid.geminiFallback rt w p e q ms st))
  /\ events (Hybrid.geminiFallback rt w p e q ms st)
     = (match memoryTool st with
        | Some _ => []
        | None => [CreateMemorySearchTool]
        end)
       ++ (if toolAvailable w st
           then [ToolExecute (str "preflight-fallback") (slice0 200 p) 5
                   minScore03]
           else [])
       ++ (match fallbackResults w p st with
           | [] => []
           | rs => [AppendFile (fallbackEntry w p e q ms rs)
                      (appendFile w (fallbackEntry w p e q ms rs))]
           end).
Proof.
  destruct st as [[t|] lf];
    unfold Hybrid.geminiFallback, ensureMemoryTool, toolExecute,
      getMemoryTool, setMemoryTool, fallbackResults, toolAvailable,
      toolAfter, fallbackEntry, resultsOf, bind, emit, ret;
    cbn [answer after events app memoryTool logFile];
    turn_cases w; rewrite ?logSearch_outcome; turn_cases w;
    cbn [written flat_map app]; rewrite ?app_nil_r; repeat split;
    congruence.
Qed.

Lemma mapM_hintWithSnippet_answer (rt : Runtime) (w : World)
  (hits : list Hybrid.QmdResult) (st : State) :
  answer (mapM (Hybrid.hintWithSnippet rt w) hits st)
  = List.map (fun r => hintLine rt (Hybrid.path r) (Hybrid.score r)
                         (snippetFor w (Hybrid.path r))) hits.
Proof.
  revert st. induction hits as [|r hits IH]; intros st; [reflexivity|].
  cbn [mapM List.map]. unfold bind at 1 2, ret at 1.
  cbn [answer after]. rewrite IH. f_equal.
  unfold Hybrid.hintWithSnippet, Hybrid.getSnippet, snippetFor, bind, emit, ret.
  cbn [answer after events].
  destruct (head500 w (Hybrid.path r)); reflexivity.
Qed.

Lemma toolAvailable_same (w : World) (st st' : State) :
  memoryTool st' = memoryTool st -> toolAvailable w st' = toolAvailable w st.
Proof. unfold toolAvailable. now intros ->. Qed.

Lemma memoryTool_afterFirstEntry (w : World) (p e q : jsstring) (ms : Z)
  (st : State) :
  memoryTool (afterFirstEntry w p e q ms st) = memoryTool st.
Proof.
  unfold afterFirstEntry.
  destruct (appendFile w (firstEntry w p e q ms)); reflexivity.
Qed.

Lemma fallbackResults_afterFirstEntry (w : World) (p e q : jsstring) (ms : Z)
  (st : State) :
  fallbackResults w p (afterFirstEntry w p e q ms st) = fallbackResults w p st.
Proof.
  unfold fallbackResults.
  now rewrite (toolAvailable_same w _ _ (memoryTool_afterFirstEntry w p e q ms st)).
Qed.

(** A turn of the hybrid handler that called the keyword backend. *)
Lemma hybrid_search_turn (rt : Runtime) (w : World) (raw : jsstring)
  (st : State) (q : jsstring) (n : nat) :
  In (QmdExec q n) (events (Hybrid.before_agent_start rt w (Some raw) st)) ->
  exists e,
    eligible (Some raw) = true
    /\ entitiesOf 300 (ollama w (cleanPrompt raw)) = Some e
    /\ q = Hybrid.searchQueryOf rt e
    /\ n = 5
    /\ (List.length q <? 2)%nat = false
    /\ Hybrid.before_agent_start rt w (Some raw) st
       = mkOutcome
           (answer (Hybrid.searchCascade rt w (cleanPrompt raw) e q
                      (dateNow w EndExtract - dateNow w StartExtract)%Z st))
           (after (Hybrid.searchCascade rt w (cleanPrompt raw) e q
                     (dateNow w EndExtract - dateNow w StartExtract)%Z st))
           (OllamaFetch (cleanPrompt raw)
            :: events (Hybrid.searchCascade rt w (cleanPrompt raw) e q
                         (dateNow w EndExtract - dateNow w StartExtract)%Z st)).
Proof.
  destruct (hybrid_turn rt w (Some raw) st)
    as [H|[(r & _ & _ & _ & H)|[(r & e & _ & _ & _ & _ & H)
                                |(r & e & Hr & Hel & He & Hs & H)]]];
    rewrite H; cbn [events].
  - intros [].
  - intros [Hin|[]]; discriminate Hin.
  - intros [Hin|[]]; discriminate Hin.
  - injection Hr as <-. intros [Hin|Hin]; [discriminate Hin|].
    destruct (searchCascade_calls rt w (cleanPrompt raw) e
                (Hybrid.searchQueryOf rt e)
                (dateNow w EndExtract - dateNow w StartExtract)%Z st)
      as [Hq _].
    assert (Hin' : In (QmdExec q n) [QmdExec (Hybrid.searchQueryOf rt e) 5]).
    { rewrite <- Hq. apply filter_In. now split. }
    destruct Hin' as [Heq|[]]. injection Heq as <- <-.
    exists e. repeat split; assumption.
Qed.

(** X8: what [extractEntities] lets through is never empty, shorter than
    300 code units, free of white space at both ends, and is the trimmed
    [response] of a successful reply; the memory-tool variant lets the
    same text through when it is shorter than 200. *)
Theorem extractEntities_result (w : World) (query e : jsstring) (st : State) :
  answer (Hybrid.extractEntities w query st) = Some e ->
  0 < List.length e
  /\ List.length e < 300
  /\ trimmedEnds e
  /\ (exists response,
         ollama w query = Json (Some response) /\ e = trim response)
  /\ answer (MemTool.extractEntities w query st)
     = if (List.length e <? 200)%nat then Some e else None.
Proof.
  unfold Hybrid.extractEntities, MemTool.extractEntities, bind, emit, ret.
  cbn [answer after events]. unfold entitiesOf.
  destruct (ollama w query) as [| | |[response|]]; try discriminate.
  cbv zeta.
  destruct (Nat.ltb_spec 0 (List.length (trim response))) as [H0|H0];
    [|discriminate].
  destruct (Nat.ltb_spec (List.length (trim response)) 300) as [H3|H3];
    [|discriminate].
  cbn [andb]. intros [= <-].
  repeat split; try assumption.
  - apply trimmedEnds_trim.
  - now exists response.
Qed.

Lemma extractEntities_result_witness :
  answer (Hybrid.extractEntities worldKeywordHit tripQuestion initialState)
  = Some (str "Toronto, trip")
  /\ 0 < List.length (str "Toronto, trip")
  /\ List.length (str "Toronto, trip") < 300
  /\ trimmedEnds (str "Toronto, trip")
  /\ (exists response,
         ollama worldKeywordHit tripQuestion = Json (Some response)
         /\ str "Toronto, trip" = trim response)
  /\ answer (MemTool.extractEntities worldKeywordHit tripQuestion initialState)
     = if (List.length (str "Toronto, trip") <? 200)%nat
       then Some (str "Toronto, trip") else None.
Proof.
  assert (H : answer (Hybrid.extractEntities worldKeywordHit tripQuestion
                        initialState) = Some (str "Toronto, trip"))
    by (vm_compute; reflexivity).
  split; [exact H|].
  exact (@extractEntities_result worldKeywordHit tripQuestion
           (str "Toronto, trip") initialState H).
Defined.

Lemma escapeQuotes_spec (query : jsstring) :
  escapeQuotes query = backslashBeforeQuotes query.
Proof.
  unfold escapeQuotes, backslashBeforeQuotes, replaceAll.
  generalize (@None codeunit).
  induction query as [|x q IH]; intros prev; [reflexivity|].
  cbn [replaceAllFrom flat_map]. unfold rmatch. cbn [rmatchK clsMatch].
  destruct (x =? 34)%N.
  - replace (List.length (x :: q) - List.length q) with 1
      by (cbn [List.length]; lia).
    now rewrite IH.
  - now rewrite IH.
Qed.

(** X9: [searchWithQmd] is only ever called on an eligible turn, with
    [maxResults] 5 and a query, a JavaScript string of at least 2 code
    units, made from the entities that the extractor returned.  The
    command line that it hands to the shell is the path of [qmd],
    [search], the query between double quotes with a backslash put before
    each double quote of the query and every other code unit (dollar,
    backquote and backslash included) as it is, and [-n 5 --files
    2>/dev/null].  What [qmd] receives once the shell has read that line
    is not part of the statement. *)
Theorem qmd_call_preconditions (rt : Runtime) (w : World) (raw : jsstring)
  (st : State) (q : jsstring) (n : nat) (home : jsstring) :
  In (QmdExec q n) (events (Hybrid.before_agent_start rt w (Some raw) st)) ->
  n = 5
  /\ 2 <= List.length q
  /\ eligible (Some raw) = true
  /\ (exists e,
         answer (Hybrid.extractEntities w (cleanPrompt raw) st) = Some e
         /\ q = Hybrid.searchQueryOf rt e)
  /\ qmdCommandLine home q n
     = home ++ str "/.bun/bin/qmd search " ++ [34%N]
       ++ backslashBeforeQuotes q ++ [34%N]
       ++ str " -n 5 --files 2>/dev/null".
Proof.
  intros Hin.
  destruct (hybrid_search_turn rt w raw st q n Hin)
    as (e & Hel & He & Hq & Hn & Hs & _).
  apply Nat.ltb_ge in Hs.
  split; [exact Hn|]. split; [exact Hs|]. split; [exact Hel|]. split.
  - exists e. split; [|exact Hq].
    unfold Hybrid.extractEntities, bind, emit, ret. cbn [answer after].
    exact He.
  - rewrite Hn. unfold qmdCommandLine. rewrite escapeQuotes_spec.
    rewrite <- app_assoc. reflexivity.
Qed.

Lemma qmd_call_preconditions_witness :
  In (QmdExec (str "toronto trip") 5)
    (events (Hybrid.before_agent_start asciiRuntime worldKeywordHit
               (Some tripQuestion) initialState))
  /\ 5 = 5
  /\ 2 <= List.length (str "toronto trip")
  /\ eligible (Some tripQuestion) = true
  /\ (exists e,
         answer (Hybrid.extractEntities worldKeywordHit
                   (cleanPrompt tripQuestion) initialState) = Some e
         /\ str "toronto trip" = Hybrid.searchQueryOf asciiRuntime e)
  /\ qmdCommandLine (str "/home/dan") (str "toronto trip") 5
     = str "/home/dan" ++ str "/.bun/bin/qmd search " ++ [34%N]
       ++ backslashBeforeQuotes (str "toronto trip") ++ [34%N]
       ++ str " -n 5 --files 2>/dev/null".
Proof.
  assert (Hin : In (QmdExec (str "toronto trip") 5)
                  (events (Hybrid.before_agent_start asciiRuntime
                             worldKeywordHit (Some tripQuestion)
                             initialState)))
    by (vm_compute; right; left; reflexivity).
  split; [exact Hin|].
  exact (@qmd_call_preconditions asciiRuntime worldKeywordHit tripQuestion
           initialState (str "toronto trip") 5 (str "/home/dan") Hin).
Defined.

(** X10: on a turn that reached the keyword backend, the answer is
    decided by the hits.  With hits, the hint block has one line per hit,
    in the order of the backend, each with the path, the score and the
    snippet of the file, and one file is read per hit, in that order.
    Without hits, the hint block has one line per result of the semantic
    fallback, in its order, and no file is read; when the fallback brings
    nothing the handler returns nothing. *)
Theorem hybrid_search_answer (rt : Runtime) (w : World) (raw : jsstring)
  (st : State) (q : jsstring) (n : nat) :
  In (QmdExec q n) (events (Hybrid.before_agent_start rt w (Some raw) st)) ->
  answer (Hybrid.before_agent_start rt w (Some raw) st)
  = match Hybrid.keywordHits w q n with
    | [] =>
        match fallbackResults w (cleanPrompt raw) st with
        | [] => None
        | rs =>
            Some (hintBlock (join [LF] (List.map (Hybrid.geminiHint rt) rs)))
        end
    | hits =>
        Some (hintBlock
                (join [LF]
                   (List.map (fun r => hintLine rt (Hybrid.path r)
                                         (Hybrid.score r)
                                         (snippetFor w (Hybrid.path r)))
                      hits)))
    end
  /\ filter isHeadExec
       (events (Hybrid.before_agent_start rt w (Some raw) st))
     = List.map (fun r => HeadExec (Hybrid.path r)) (Hybrid.keywordHits w q n).
Proof.
  intros Hin.
  destruct (hybrid_search_turn rt w raw st q n Hin)
    as (e & _ & _ & _ & -> & _ & H).
  rewrite H. cbn [answer events filter isHeadExec].
  rewrite searchCascade_outcome.
  destruct (Hybrid.keywordHits w q 5) as [|h hs].
  - cbv zeta. cbn [answer events filter isHeadExec List.map].
    destruct (geminiFallback_full rt w (cleanPrompt raw) e q
                (dateNow w EndExtract - dateNow w StartExtract)%Z
                (afterFirstEntry w (cleanPrompt raw) e q
                   (dateNow w EndExtract - dateNow w StartExtract)%Z st))
      as (Ha & _ & _ & He).
    rewrite Ha, He, fallbackResults_afterFirstEntry. split; [reflexivity|].
    destruct (memoryTool _), (toolAvailable w _), (fallbackResults w _ st);
      reflexivity.
  - cbn [answer events filter isHeadExec].
    rewrite mapM_hintWithSnippet_answer. split; [reflexivity|].
    generalize (h :: hs). intros l.
    induction l as [|r l IH]; [reflexivity|].
    cbn [List.map filter isHeadExec]. now rewrite IH.
Qed.

Lemma hybrid_search_answer_witness :
  In (QmdExec (str "toronto trip") 5)
    (events (Hybrid.before_agent_start asciiRuntime worldKeywordHit
               (Some tripQuestion) initialState))
  /\ answer (Hybrid.before_agent_start asciiRuntime worldKeywordHit
               (Some tripQuestion) initialState)
     = match Hybrid.keywordHits worldKeywordHit (str "toronto trip") 5 with
       | [] =>
           match fallbackResults worldKeywordHit (cleanPrompt tripQuestion)
                   initialState with
           | [] => None
           | rs =>
               Some (hintBlock
                       (join [LF]
                          (List.map (Hybrid.geminiHint asciiRuntime) rs)))
           end
       | hits =>
           Some (hintBlock
                   (join [LF]
                      (List.map (fun r => hintLine asciiRuntime (Hybrid.path r)
                                            (Hybrid.score r)
                                            (snippetFor worldKeywordHit
                                               (Hybrid.path r)))
                         hits)))
       end
  /\ filter isHeadExec
       (events (Hybrid.before_agent_start asciiRuntime worldKeywordHit
                  (Some tripQuestion) initialState))
     = List.map (fun r => HeadExec (Hybrid.path r))
         (Hybrid.keywordHits worldKeywordHit (str "toronto trip") 5).
Proof.
  assert (Hin : In (QmdExec (str "toronto trip") 5)
                  (events (Hybrid.before_agent_start asciiRuntime
                             worldKeywordHit (Some tripQuestion)
                             initialState)))
    by (vm_compute; right; left; reflexivity).
  split; [exact Hin|].
  exact (@hybrid_search_answer asciiRuntime worldKeywordHit tripQuestion
           initialState (str "toronto trip") 5 Hin).
Defined.

Lemma filter_snippets (f : Event -> bool) (hits : list Hybrid.QmdResult) :
  (forall p, f (HeadExec p) = false) ->
  filter f (List.map (fun r => HeadExec (Hybrid.path r)) hits) = [].
Proof.
  intros Hf. induction hits as [|r hits IH]; [reflexivity|].
  cbn [List.map filter]. now rewrite Hf.
Qed.

Lemma written_snippets (hits : list Hybrid.QmdResult) :
  written (List.map (fun r => HeadExec (Hybrid.path r)) hits) = [].
Proof. induction hits as [|r hits IH]; [reflexivity|exact IH]. Qed.

Ltac count_now :=
  unfold countEvents, logCalls;
  cbn [filter isOllamaFetch isQmdExec isCreateTool isToolExecute isHeadExec
       isAppendFile List.length app Nat.add];
  rewrite ?filter_snippets by reflexivity;
  cbn [List.length Nat.add].

(** X11: in one turn the hybrid handler makes at most one Ollama
    request, one keyword search, one creation of the memory tool, one
    call of the memory tool and two appends to the log; it reads snippet
    files only on a turn where it neither creates nor calls the memory
    tool; and the first call of a turn is always the Ollama request. *)
Theorem hybrid_calls_per_turn (rt : Runtime) (w : World)
  (raw : option jsstring) (st : State) :
  countEvents isOllamaFetch (events (Hybrid.before_agent_start rt w raw st)) <= 1
  /\ countEvents isQmdExec (events (Hybrid.before_agent_start rt w raw st)) <= 1
  /\ countEvents isCreateTool
       (events (Hybrid.before_agent_start rt w raw st)) <= 1
  /\ countEvents isToolExecute
       (events (Hybrid.before_agent_start rt w raw st)) <= 1
  /\ logCalls (events (Hybrid.before_agent_start rt w raw st)) <= 2
  /\ (countEvents isHeadExec (events (Hybrid.before_agent_start rt w raw st)) = 0
      \/ countEvents isToolExecute
           (events (Hybrid.before_agent_start rt w raw st))
         + countEvents isCreateTool
             (events (Hybrid.before_agent_start rt w raw st)) = 0)
  /\ match events (Hybrid.before_agent_start rt w raw st) with
     | [] => True
     | e :: _ => isOllamaFetch e = true
     end.
Proof.
  destruct (hybrid_turn rt w raw st)
    as [H|[(r & _ & _ & _ & H)|[(r & e & _ & _ & _ & _ & H)
                                |(r & e & _ & _ & _ & _ & H)]]];
    rewrite H; cbn [events];
    try (count_now; repeat split; auto; lia).
  rewrite searchCascade_outcome.
  destruct (Hybrid.keywordHits w (Hybrid.searchQueryOf rt e) 5) as [|h hs].
  - cbv zeta. cbn [events].
    destruct (geminiFallback_full rt w (cleanPrompt r) e
                (Hybrid.searchQueryOf rt e)
                (dateNow w EndExtract - dateNow w StartExtract)%Z
                (afterFirstEntry w (cleanPrompt r) e (Hybrid.searchQueryOf rt e)
                   (dateNow w EndExtract - dateNow w StartExtract)%Z st))
      as (_ & _ & _ & He).
    rewrite He.
    destruct (memoryTool _), (toolAvailable w _), (fallbackResults w _ _);
      count_now; repeat split; auto; lia.
  - cbn [events]. count_now.
    repeat split; auto; try lia.
Qed.

Lemma written_app (a b : list Event) : written (a ++ b) = written a ++ written b.
Proof. unfold written. apply flat_map_app. Qed.

Lemma logFile_afterFirstEntry_app (w : World) (p e q : jsstring) (ms : Z)
  (st : State) :
  logFile (afterFirstEntry w p e q ms st)
  = logFile st
    ++ written [AppendFile (firstEntry w p e q ms)
                  (appendFile w (firstEntry w p e q ms))].
Proof.
  unfold afterFirstEntry.
  destruct (appendFile w (firstEntry w p e q ms)); cbn [logFile written flat_map app];
    now rewrite ?app_nil_r.
Qed.

Lemma geminiFallback_written (rt : Runtime) (w : World) (p e q : jsstring)
  (ms : Z) (st : State) :
  written (events (Hybrid.geminiFallback rt w p e q ms st))
  = match fallbackResults w p st with
    | [] => []
    | rs => written [AppendFile (fallbackEntry w p e q ms rs)
                       (appendFile w (fallbackEntry w p e q ms rs))]
    end.
Proof.
  destruct (geminiFallback_full rt w p e q ms st) as (_ & _ & _ & He).
  rewrite He, !written_app.
  destruct (memoryTool st), (toolAvailable w st), (fallbackResults w p st);
    cbn [written flat_map app]; now rewrite ?app_nil_r.
Qed.

Lemma written_one_length (entry : SearchLog) (b : bool) :
  List.length (written [AppendFile entry b]) <= 1.
Proof. destruct b; cbn; lia. Qed.

Lemma written_one_Forall (P : SearchLog -> Prop) (entry : SearchLog) (b : bool) :
  P entry -> Forall P (written [AppendFile entry b]).
Proof. intros H. destruct b; cbn; repeat constructor; exact H. Qed.

(** X12: the audit log is append-only.  After a turn of the hybrid
    handler the log is the log before the turn followed by the records
    that [appendFile] wrote in the turn, at most two; each of them
    carries the first 200 code units of the cleaned prompt and the
    entities that the extractor returned. *)
Theorem hybrid_log_append_only (rt : Runtime) (w : World) (raw : jsstring)
  (st : State) :
  logFile (after (Hybrid.before_agent_start rt w (Some raw) st))
  = logFile st
    ++ written (events (Hybrid.before_agent_start rt w (Some raw) st))
  /\ List.length
       (written (events (Hybrid.before_agent_start rt w (Some raw) st))) <= 2
  /\ Forall (fun entry =>
               prompt entry = slice0 200 (cleanPrompt raw)
               /\ List.length (prompt entry) <= 200
               /\ entities entry
                  = answer (Hybrid.extractEntities w (cleanPrompt raw) st))
       (written (events (Hybrid.before_agent_start rt w (Some raw) st))).
Proof.
  destruct (hybrid_turn rt w (Some raw) st)
    as [H|[(r & _ & _ & _ & H)|[(r & e & _ & _ & _ & _ & H)
                                |(r & e & Hr & _ & Hent & _ & H)]]];
    rewrite H; cbn [events after];
    try (cbn [written flat_map app]; rewrite app_nil_r;
         repeat split; auto; constructor).
  injection Hr as <-.
  assert (Hans : answer (Hybrid.extractEntities w (cleanPrompt raw) st) = Some e).
  { unfold Hybrid.extractEntities, bind, emit, ret. cbn [answer after].
    exact Hent. }
  rewrite Hans.
  set (q := Hybrid.searchQueryOf rt e).
  set (ms := (dateNow w EndExtract - dateNow w StartExtract)%Z).
  set (p := cleanPrompt raw).
  assert (Hslice : List.length (slice0 200 p) <= 200)
    by (unfold slice0; apply firstn_le_length).
  assert (Hfirst : (fun entry =>
                      prompt entry = slice0 200 p
                      /\ List.length (prompt entry) <= 200
                      /\ entities entry = Some e) (firstEntry w p e q ms))
    by (cbn; auto).
  rewrite searchCascade_outcome.
  set (f := firstEntry w p e q ms) in *.
  destruct (Hybrid.keywordHits w q 5) as [|h hs] eqn:Hhits.
  - cbv zeta. cbn [events after].
    destruct (geminiFallback_full rt w p e q ms (afterFirstEntry w p e q ms st))
      as (_ & _ & Hlog & _).
    pose proof (geminiFallback_written rt w p e q ms
                  (afterFirstEntry w p e q ms st)) as Hw.
    change (OllamaFetch p :: QmdExec q 5 :: AppendFile f (appendFile w f)
            :: events (Hybrid.geminiFallback rt w p e q ms
                         (afterFirstEntry w p e q ms st)))
      with ([OllamaFetch p; QmdExec q 5] ++ [AppendFile f (appendFile w f)]
            ++ events (Hybrid.geminiFallback rt w p e q ms
                         (afterFirstEntry w p e q ms st))).
    rewrite !written_app, Hlog, logFile_afterFirstEntry_app, Hw.
    fold f. change (written [OllamaFetch p; QmdExec q 5]) with (@nil SearchLog).
    cbn [app]. rewrite <- app_assoc.
    pose proof (written_one_length f (appendFile w f)) as Hl1.
    split; [reflexivity|].
    destruct (fallbackResults w p (afterFirstEntry w p e q ms st)) as [|r rs].
    + rewrite app_nil_r. split; [lia|].
      now apply written_one_Forall.
    + pose proof (written_one_length
                    (fallbackEntry w p e q ms (r :: rs))
                    (appendFile w (fallbackEntry w p e q ms (r :: rs)))) as Hl2.
      rewrite length_app. split; [lia|].
      apply Forall_app. split; apply written_one_Forall; cbn; auto.
  - cbn [events after].
    change (OllamaFetch p :: QmdExec q 5 :: AppendFile f (appendFile w f)
            :: List.map (fun r => HeadExec (Hybrid.path r)) (h :: hs))
      with ([OllamaFetch p; QmdExec q 5] ++ [AppendFile f (appendFile w f)]
            ++ List.map (fun r => HeadExec (Hybrid.path r)) (h :: hs)).
    rewrite !written_app, written_snippets, app_nil_r,
      logFile_afterFirstEntry_app.
    fold f. change (written [OllamaFetch p; QmdExec q 5]) with (@nil SearchLog).
    cbn [app].
    pose proof (written_one_length f (appendFile w f)) as Hl1.
    split; [reflexivity|]. split; [lia|].
    now apply written_one_Forall.
Qed.

(* ------------------------------------------------------------------ *)
(** *** The memory-tool handler, in full *)

Lemma searchMemory_full (rt : Runtime) (w : World) (q : jsstring) (st : State) :
  answer (MemTool.searchMemory rt w q st)
  = match memtoolResults w q st with
    | [] => None
    | rs => Some (hintBlock (join [LF] (List.map (MemTool.hint rt) rs)))
    end
  /\ memoryTool (after (MemTool.searchMemory rt w q st)) = toolAfter w st
  /\ logFile (after (MemTool.searchMemory rt w q st)) = logFile st
  /\ events (MemTool.searchMemory rt w q st)
     = (match memoryTool st with
        | Some _ => []
        | None => [CreateMemorySearchTool]
        end)
       ++ (if negb (List.length q <? 3)%nat && toolAvailable w st
           then [ToolExecute (str "preflight") q 5 minScore03]
           else []).
Proof.
  destruct st as [[t|] lf];
    unfold MemTool.searchMemory, ensureMemoryTool, toolExecute,
      getMemoryTool, setMemoryTool, memtoolResults, toolAvailable,
      toolAfter, resultsOf, bind, emit, ret;
    cbn [answer after events app memoryTool logFile];
    destruct (List.length q <? 3)%nat; cbn [negb andb];
    turn_cases w; repeat split.
Qed.

(** The three ways a turn of the memory-tool handler goes. *)
Lemma memtool_turn (rt : Runtime) (w : World) (raw : option jsstring)
  (st : State) :
  (rawTooShort raw = true
   /\ MemTool.before_agent_start rt w raw st = mkOutcome None st [])
  \/ (exists r, raw = Some r
        /\ rejected raw = true
        /\ MemTool.before_agent_start rt w raw st
           = mkOutcome None st [OllamaFetch (cleanPrompt r)])
  \/ (exists r, raw = Some r
        /\ eligible raw = true
        /\ MemTool.before_agent_start rt w raw st
           = mkOutcome
               (answer (MemTool.searchMemory rt w
                          (MemTool.searchQueryOf rt (cleanPrompt r)
                             (entitiesOf 200 (ollama w (cleanPrompt r)))) st))
               (after (MemTool.searchMemory rt w
                         (MemTool.searchQueryOf rt (cleanPrompt r)
                            (entitiesOf 200 (ollama w (cleanPrompt r)))) st))
               (OllamaFetch (cleanPrompt r)
                :: events (MemTool.searchMemory rt w
                             (MemTool.searchQueryOf rt (cleanPrompt r)
                                (entitiesOf 200 (ollama w (cleanPrompt r))))
                             st))).
Proof.
  destruct (rawTooShort raw) eqn:Hshort.
  - left. split; [reflexivity|]. now apply memtool_short.
  - destruct raw as [r|]; [|discriminate Hshort].
    destruct (cleanedRejected (cleanPrompt r)) eqn:Hcr.
    + right. left. exists r. split; [reflexivity|]. split.
      * unfold rejected. rewrite Hcr. now rewrite orb_true_r.
      * now apply memtool_cleaned_rejected.
    + right. right. exists r. split; [reflexivity|].
      assert (Hel : eligible (Some r) = true).
      { unfold eligible, rejected. unfold rawTooShort in Hshort.
        now rewrite Hshort, Hcr. }
      split; [exact Hel|]. now apply memtool_eligible.
Qed.

(** X13: the memory tool is only ever called on an eligible turn, under
    the name "preflight", for up to 5 results with a score of 0.3 or
    more, with the query of that turn, never shorter than 3 code units;
    and the turn then answers with one hint line per result returned, in
    the order of the tool, or with nothing when there is no result. *)
Theorem memtool_call (rt : Runtime) (w : World) (raw : jsstring) (st : State)
  (callId q : jsstring) (n : nat) (minScore : number) :
  In (ToolExecute callId q n minScore)
    (events (MemTool.before_agent_start rt w (Some raw) st)) ->
  callId = str "preflight"
  /\ n = 5
  /\ minScore = minScore03
  /\ 3 <= List.length q
  /\ eligible (Some raw) = true
  /\ q = MemTool.searchQueryOf rt (cleanPrompt raw)
           (answer (MemTool.extractEntities w (cleanPrompt raw) st))
  /\ answer (MemTool.before_agent_start rt w (Some raw) st)
     = match resultsOf (execute w callId q n minScore) with
       | [] => None
       | rs => Some (hintBlock (join [LF] (List.map (MemTool.hint rt) rs)))
       end.
Proof.
  destruct (memtool_turn rt w (Some raw) st)
    as [[_ H]|[(r & _ & _ & H)|(r & Hr & Hel & H)]];
    rewrite H; cbn [events answer].
  - intros [].
  - intros [Hin|[]]; discriminate Hin.
  - injection Hr as <-. intros [Hin|Hin]; [discriminate Hin|].
    change (answer (MemTool.extractEntities w (cleanPrompt raw) st))
      with (entitiesOf 200 (ollama w (cleanPrompt raw))).
    set (q' := MemTool.searchQueryOf rt (cleanPrompt raw)
                 (entitiesOf 200 (ollama w (cleanPrompt raw)))) in *.
    destruct (searchMemory_full rt w q' st) as (Ha & _ & _ & He).
    rewrite He in Hin. rewrite Ha. unfold memtoolResults.
    apply in_app_or in Hin. destruct Hin as [Hin|Hin].
    { destruct (memoryTool st); [destruct Hin|].
      destruct Hin as [Hin|[]]; discriminate Hin. }
    destruct (List.length q' <? 3)%nat eqn:Hlen; cbn [negb andb] in *;
      [destruct Hin|].
    destruct (toolAvailable w st); [|destruct Hin].
    destruct Hin as [Hin|[]]. injection Hin as <- <- <- <-.
    apply Nat.ltb_ge in Hlen. repeat split; auto.
Qed.

Lemma memtool_call_witness :
  In (ToolExecute (str "preflight") (str "toronto  trip") 5 minScore03)
    (events (MemTool.before_agent_start asciiRuntime worldSemanticHit
               (Some tripQuestion) initialState))
  /\ str "preflight" = str "preflight"
  /\ 5 = 5
  /\ minScore03 = minScore03
  /\ 3 <= List.length (str "toronto  trip")
  /\ eligible (Some tripQuestion) = true
  /\ str "toronto  trip"
     = MemTool.searchQueryOf asciiRuntime (cleanPrompt tripQuestion)
         (answer (MemTool.extractEntities worldSemanticHit
                    (cleanPrompt tripQuestion) initialState))
  /\ answer (MemTool.before_agent_start asciiRuntime worldSemanticHit
               (Some tripQuestion) initialState)
     = match resultsOf (execute worldSemanticHit (str "preflight")
                          (str "toronto  trip") 5 minScore03) with
       | [] => None
       | rs => Some (hintBlock
                       (join [LF] (List.map (MemTool.hint asciiRuntime) rs)))
       end.
Proof.
  assert (Hin : In (ToolExecute (str "preflight") (str "toronto  trip") 5
                      minScore03)
                  (events (MemTool.before_agent_start asciiRuntime
                             worldSemanticHit (Some tripQuestion)
                             initialState)))
    by (vm_compute; do 2 right; left; reflexivity).
  split; [exact Hin|].
  exact (@memtool_call asciiRuntime worldSemanticHit tripQuestion initialState
           (str "preflight") (str "toronto  trip") 5 minScore03 Hin).
Defined.

(** X14: in one turn the memory-tool handler makes at most one Ollama
    request, one creation of the memory tool and one call of it; it
    never runs the keyword backend, reads no file and writes no audit
    record: the log is left as it was. *)
Theorem memtool_calls_per_turn (rt : Runtime) (w : World)
  (raw : option jsstring) (st : State) :
  countEvents isOllamaFetch (events (MemTool.before_agent_start rt w raw st)) <= 1
  /\ countEvents isCreateTool
       (events (MemTool.before_agent_start rt w raw st)) <= 1
  /\ countEvents isToolExecute
       (events (MemTool.before_agent_start rt w raw st)) <= 1
  /\ countEvents isQmdExec (events (MemTool.before_agent_start rt w raw st)) = 0
  /\ countEvents isHeadExec (events (MemTool.before_agent_start rt w raw st)) = 0
  /\ logCalls (events (MemTool.before_agent_start rt w raw st)) = 0
  /\ logFile (after (MemTool.before_agent_start rt w raw st)) = logFile st.
Proof.
  destruct (memtool_turn rt w raw st)
    as [[_ H]|[(r & _ & _ & H)|(r & _ & _ & H)]];
    rewrite H; cbn [events after];
    try (count_now; repeat split; auto; lia).
  destruct (searchMemory_full rt w
              (MemTool.searchQueryOf rt (cleanPrompt r)
                 (entitiesOf 200 (ollama w (cleanPrompt r)))) st)
    as (_ & _ & Hlog & He).
  rewrite He, Hlog.
  destruct (memoryTool st), (negb _ && toolAvailable w st);
    count_now; repeat split; auto; lia.
Qed.

(** X15: a turn that the Normalizer rejects never reaches the memory
    tool in the memory-tool variant: no tool is created or called, no
    hint is returned and the state is left as it was (the extractor may
    have been asked, once). *)
Theorem memtool_rejected_turn (rt : Runtime) (w : World)
  (raw : option jsstring) (st : State) :
  rejected raw = true ->
  answer (MemTool.before_agent_start rt w raw st) = None
  /\ after (MemTool.before_agent_start rt w raw st) = st
  /\ countEvents isCreateTool
       (events (MemTool.before_agent_start rt w raw st)) = 0
  /\ countEvents isToolExecute
       (events (MemTool.before_agent_start rt w raw st)) = 0.
Proof.
  intros Hrej.
  destruct (memtool_turn rt w raw st)
    as [[_ H]|[(r & _ & _ & H)|(r & _ & Hel & H)]];
    [rewrite H; repeat split..|].
  unfold eligible in Hel. rewrite Hrej in Hel. discriminate Hel.
Qed.

Lemma memtool_rejected_turn_witness :
  rejected (Some (str "/status now")) = true
  /\ answer (MemTool.before_agent_start asciiRuntime worldSemanticHit
               (Some (str "/status now")) initialState) = None
  /\ after (MemTool.before_agent_start asciiRuntime worldSemanticHit
              (Some (str "/status now")) initialState) = initialState
  /\ countEvents isCreateTool
       (events (MemTool.before_agent_start asciiRuntime worldSemanticHit
                  (Some (str "/status now")) initialState)) = 0
  /\ countEvents isToolExecute
       (events (MemTool.before_agent_start asciiRuntime worldSemanticHit
                  (Some (str "/status now")) initialState)) = 0.
Proof.
  assert (H : rejected (Some (str "/status now")) = true)
    by (vm_compute; reflexivity).
  split; [exact H|].
  exact (@memtool_rejected_turn asciiRuntime worldSemanticHit
           (Some (str "/status now")) initialState H).
Defined.

(** X16: the hybrid handler makes no call at all exactly on the turns
    that the Normalizer rejects, and such a turn returns nothing and
    leaves the state as it was; on every other turn the extractor is
    asked with the cleaned prompt. *)
Theorem hybrid_silent_iff_rejected (rt : Runtime) (w : World)
  (raw : option jsstring) (st : State) :
  (events (Hybrid.before_agent_start rt w raw st) = [] <-> rejected raw = true)
  /\ (if rejected raw
      then Hybrid.before_agent_start rt w raw st = mkOutcome None st []
      else match raw with
           | Some r =>
               hd_error (events (Hybrid.before_agent_start rt w raw st))
               = Some (OllamaFetch (cleanPrompt r))
           | None => False
           end).
Proof.
  destruct (rejected raw) eqn:Hrej.
  - rewrite (hybrid_rejected rt w raw st Hrej).
    split; [split; reflexivity|reflexivity].
  - destruct raw as [r|]; [|discriminate Hrej].
    assert (Hel : eligible (Some r) = true)
      by (unfold eligible; now rewrite Hrej).
    destruct (hybrid_turn rt w (Some r) st)
      as [H|[(r' & Hr & _ & _ & H)|[(r' & e & Hr & _ & _ & _ & H)
                                    |(r' & e & Hr & _ & _ & _ & H)]]].
    + exfalso. rewrite (hybrid_eligible rt w r st Hel) in H.
      unfold Hybrid.recall, Hybrid.extractEntities, bind, emit in H.
      apply (f_equal (@events _)) in H. cbn [events app] in H.
      discriminate H.
    + injection Hr as <-. rewrite H. cbn [events hd_error].
      split; [split; discriminate|reflexivity].
    + injection Hr as <-. rewrite H. cbn [events hd_error].
      split; [split; discriminate|reflexivity].
    + injection Hr as <-. rewrite H. cbn [events hd_error].
      split; [split; discriminate|reflexivity].
Qed.

(* ------------------------------------------------------------------ *)
(** *** The plugin over several turns *)

Lemma toolAfter_kept (w : World) (st : State) (t : MemorySearchTool) :
  memoryTool st = Some t -> toolAfter w st = Some t.
Proof. unfold toolAfter. now intros ->. Qed.

(** A handle that is there is kept, and not created again. *)
Lemma hybrid_tool_kept (rt : Runtime) (w : World) (raw : option jsstring)
  (st : State) (t : MemorySearchTool) :
  memoryTool st = Some t ->
  memoryTool (after (Hybrid.before_agent_start rt w raw st)) = Some t
  /\ countEvents isCreateTool (events (Hybrid.before_agent_start rt w raw st))
     = 0.
Proof.
  intros Ht.
  destruct (hybrid_turn rt w raw st)
    as [H|[(r & _ & _ & _ & H)|[(r & e & _ & _ & _ & _ & H)
                                |(r & e & _ & _ & _ & _ & H)]]];
    rewrite H; cbn [events after]; try (split; [exact Ht|reflexivity]).
  rewrite searchCascade_outcome.
  set (q := Hybrid.searchQueryOf rt e).
  set (ms := (dateNow w EndExtract - dateNow w StartExtract)%Z).
  pose proof (memoryTool_afterFirstEntry w (cleanPrompt r) e q ms st) as Hm.
  rewrite Ht in Hm.
  destruct (Hybrid.keywordHits w q 5) as [|h hs].
  - cbv zeta. cbn [events after].
    destruct (geminiFallback_full rt w (cleanPrompt r) e q ms
                (afterFirstEntry w (cleanPrompt r) e q ms st))
      as (_ & Htool & _ & He).
    rewrite Htool, He, Hm. split; [now apply toolAfter_kept|].
    destruct (toolAvailable w _), (fallbackResults w _ _); reflexivity.
  - cbn [events after]. split; [exact Hm|]. count_now. reflexivity.
Qed.

Lemma memtool_tool_kept (rt : Runtime) (w : World) (raw : option jsstring)
  (st : State) (t : MemorySearchTool) :
  memoryTool st = Some t ->
  memoryTool (after (MemTool.before_agent_start rt w raw st)) = Some t
  /\ countEvents isCreateTool (events (MemTool.before_agent_start rt w raw st))
     = 0.
Proof.
  intros Ht.
  destruct (memtool_turn rt w raw st)
    as [[_ H]|[(r & _ & _ & H)|(r & _ & _ & H)]];
    rewrite H; cbn [events after]; try (split; [exact Ht|reflexivity]).
  destruct (searchMemory_full rt w
              (MemTool.searchQueryOf rt (cleanPrompt r)
                 (entitiesOf 200 (ollama w (cleanPrompt r)))) st)
    as (_ & Htool & _ & He).
  rewrite Htool, He, Ht. split; [now apply toolAfter_kept|].
  destruct (negb _ && toolAvailable w st); reflexivity.
Qed.

Lemma countEvents_app (f : Event -> bool) (a b : list Event) :
  countEvents f (a ++ b) = countEvents f a + countEvents f b.
Proof. unfold countEvents. now rewrite filter_app, length_app. Qed.

(** X17: the handle of the memory tool is created at most once in the
    life of the plugin.  Once a turn has left a handle in the state, no
    later turn creates the tool again, whatever the prompts and whatever
    the collaborators answer, and the handle stays the same; this holds
    for both variants. *)
Theorem tool_created_once (rt : Runtime)
  (turns : list (World * option jsstring)) (st : State)
  (t : MemorySearchTool) :
  memoryTool st = Some t ->
  countEvents isCreateTool
    (runTurns (Hybrid.before_agent_start rt) turns st) = 0
  /\ memoryTool (stateAfterTurns (Hybrid.before_agent_start rt) turns st)
     = Some t
  /\ countEvents isCreateTool
       (runTurns (MemTool.before_agent_start rt) turns st) = 0
  /\ memoryTool (stateAfterTurns (MemTool.before_agent_start rt) turns st)
     = Some t.
Proof.
  revert st.
  assert (Hh : forall st, memoryTool st = Some t ->
               countEvents isCreateTool
                 (runTurns (Hybrid.before_agent_start rt) turns st) = 0
               /\ memoryTool (stateAfterTurns (Hybrid.before_agent_start rt)
                                turns st) = Some t).
  { induction turns as [|[w raw] turns IH]; intros st Ht.
    - split; [reflexivity|exact Ht].
    - cbn [runTurns stateAfterTurns].
      destruct (hybrid_tool_kept rt w raw st t Ht) as [Hk Hc].
      destruct (IH _ Hk) as [IHc IHs].
      rewrite countEvents_app, Hc, IHc. now split. }
  assert (Hm : forall st, memoryTool st = Some t ->
               countEvents isCreateTool
                 (runTurns (MemTool.before_agent_start rt) turns st) = 0
               /\ memoryTool (stateAfterTurns (MemTool.before_agent_start rt)
                                turns st) = Some t).
  { clear Hh. induction turns as [|[w raw] turns IH]; intros st Ht.
    - split; [reflexivity|exact Ht].
    - cbn [runTurns stateAfterTurns].
      destruct (memtool_tool_kept rt w raw st t Ht) as [Hk Hc].
      destruct (IH _ Hk) as [IHc IHs].
      rewrite countEvents_app, Hc, IHc. now split. }
  intros st Ht. destruct (Hh st Ht), (Hm st Ht). repeat split; assumption.
Qed.

Lemma tool_created_once_witness :
  memoryTool stateWithTool = Some Tool
  /\ countEvents isCreateTool
       (runTurns (Hybrid.before_agent_start asciiRuntime) threeTurns
          stateWithTool) = 0
  /\ memoryTool (stateAfterTurns (Hybrid.before_agent_start asciiRuntime)
                   threeTurns stateWithTool) = Some Tool
  /\ countEvents isCreateTool
       (runTurns (MemTool.before_agent_start asciiRuntime) threeTurns
          stateWithTool) = 0
  /\ memoryTool (stateAfterTurns (MemTool.before_agent_start asciiRuntime)
                   threeTurns stateWithTool) = Some Tool.
Proof.
  split; [reflexivity|].
  exact (@tool_created_once asciiRuntime threeTurns stateWithTool Tool
           eq_refl).
Defined.

(** The log of the hybrid variant after one turn. *)
Lemma hybrid_log_step (rt : Runtime) (w : World) (raw : option jsstring)
  (st : State) :
  logFile (after (Hybrid.before_agent_start rt w raw st))
  = logFile st ++ written (events (Hybrid.before_agent_start rt w raw st)).
Proof.
  destruct (hybrid_turn rt w raw st)
    as [H|[(r & _ & _ & _ & H)|[(r & e & _ & _ & _ & _ & H)
                                |(r & e & _ & _ & _ & _ & H)]]];
    rewrite H; cbn [events after];
    try (cbn [written flat_map app]; now rewrite app_nil_r).
  set (q := Hybrid.searchQueryOf rt e).
  set (ms := (dateNow w EndExtract - dateNow w StartExtract)%Z).
  set (p := cleanPrompt r).
  rewrite searchCascade_outcome.
  set (f := firstEntry w p e q ms).
  destruct (Hybrid.keywordHits w q 5) as [|h hs].
  - cbv zeta. cbn [events after].
    destruct (geminiFallback_full rt w p e q ms (afterFirstEntry w p e q ms st))
      as (_ & _ & Hlog & _).
    change (OllamaFetch p :: QmdExec q 5 :: AppendFile f (appendFile w f)
            :: events (Hybrid.geminiFallback rt w p e q ms
                         (afterFirstEntry w p e q ms st)))
      with ([OllamaFetch p; QmdExec q 5] ++ [AppendFile f (appendFile w f)]
            ++ events (Hybrid.geminiFallback rt w p e q ms
                         (afterFirstEntry w p e q ms st))).
    rewrite !written_app, Hlog, logFile_afterFirstEntry_app.
    fold f. change (written [OllamaFetch p; QmdExec q 5]) with (@nil SearchLog).
    cbn [app]. now rewrite <- app_assoc.
  - cbn [events after].
    change (OllamaFetch p :: QmdExec q 5 :: AppendFile f (appendFile w f)
            :: List.map (fun r => HeadExec (Hybrid.path r)) (h :: hs))
      with ([OllamaFetch p; QmdExec q 5] ++ [AppendFile f (appendFile w f)]
            ++ List.map (fun r => HeadExec (Hybrid.path r)) (h :: hs)).
    rewrite !written_app, written_snippets, app_nil_r,
      logFile_afterFirstEntry_app.
    reflexivity.
Qed.

(** X18: over any sequence of turns of the hybrid variant, the log at
    the end is the log at the start followed by the records written in
    those turns, in the order they were written: nothing is ever removed
    from the log or changed in it. *)
Theorem hybrid_log_over_turns (rt : Runtime)
  (turns : list (World * option jsstring)) (st : State) :
  logFile (stateAfterTurns (Hybrid.before_agent_start rt) turns st)
  = logFile st
    ++ written (runTurns (Hybrid.before_agent_start rt) turns st).
Proof.
  revert st. induction turns as [|[w raw] turns IH]; intros st.
  - cbn [stateAfterTurns runTurns written flat_map]. now rewrite app_nil_r.
  - cbn [stateAfterTurns runTurns].
    rewrite IH, hybrid_log_step, written_app. now rewrite app_assoc.
Qed.

(* ------------------------------------------------------------------ *)
(** *** The envelope of a message *)

Lemma starGreedy_stop (c : cls) (k : cont) (prev : option codeunit)
  (y : codeunit) (v : jsstring) :
  clsMatch c y = false -> starGreedy c k prev (y :: v) = k prev (y :: v).
Proof. intros H. cbn [starGreedy]. now rewrite H. Qed.

Lemma starGreedy_run (c : cls) (k : cont) (u v res : jsstring) :
  Forall (fun x => clsMatch c x = true) u ->
  forall prev,
    starGreedy c k (lastOr prev u) v = Some res ->
    starGreedy c k prev (u ++ v) = Some res.
Proof.
  induction 1 as [|x u Hx Hu IH]; intros prev Hk; [exact Hk|].
  cbn [app starGreedy]. rewrite Hx.
  now rewrite (IH (Some x) Hk).
Qed.

(** Where the message-id pattern cannot match. *)
Lemma rmatch_messageId_none (prev : option codeunit) (x : codeunit)
  (s : jsstring) :
  startsWith (str "[message_id:") (x :: s) = false ->
  startsWith (str "[message_id:") s = false ->
  rmatch reMessageId prev (x :: s) = None.
Proof.
  intros H1 H2. unfold rmatch, reMessageId, seq, Opt. cbn [fold_right].
  cbn [rmatchK]. unfold Lit.
  destruct (clsMatch (CLit LF) x).
  - rewrite !rmatchK_literal, H1, H2. reflexivity.
  - rewrite rmatchK_literal, H1. reflexivity.
Qed.

Lemma rmatch_messageId_end (prev : option codeunit) :
  rmatch reMessageId prev [] = None.
Proof. reflexivity. Qed.

(** The annotation is matched whole. *)
Lemma rmatch_messageId_suffix (prev : option codeunit) (id : jsstring) :
  id <> [] ->
  Forall (fun c => c <> chr "]" /\ isWhiteSpace c = false) id ->
  rmatch reMessageId prev (messageIdSuffix id) = Some [].
Proof.
  intros Hne Hid. destruct id as [|i0 id]; [congruence|].
  inversion Hid as [|? ? [Hi0 Hw0] Hid']; subst.
  unfold rmatch, reMessageId, messageIdSuffix, seq, Opt, Plus.
  cbn [fold_right]. cbn [rmatchK].
  change (clsMatch (CLit LF) LF) with true. cbv iota.
  unfold Lit at 1. rewrite rmatchK_literal.
  change (startsWith (str "[message_id:")
            (str "[message_id: " ++ (i0 :: id) ++ str "]")) with true.
  cbv iota.
  change (skipn (List.length (str "[message_id:"))
            (str "[message_id: " ++ (i0 :: id) ++ str "]"))
    with (32%N :: i0 :: id ++ str "]").
  assert (Hne0 : negb (i0 =? chr "]")%N = true)
    by (destruct (N.eqb_spec i0 (chr "]")); [contradiction|reflexivity]).
  assert (Hrun : forall k,
             k (lastOr (Some i0) id) (str "]") = Some (@nil codeunit) ->
             starGreedy (CNotLit (chr "]")) k (Some i0) (id ++ str "]")
             = Some []).
  { intros k Hk. apply starGreedy_run.
    - eapply Forall_impl; [|exact Hid'].
      intros c [Hc _]. cbn [clsMatch].
      destruct (N.eqb_spec c (chr "]")); [contradiction|reflexivity].
    - exact Hk. }
  cbn [rmatchK starGreedy clsMatch].
  change (isWhiteSpace 32%N) with true. cbv iota.
  rewrite Hw0, Hne0, Hrun; reflexivity.
Qed.

Lemma replaceAllFrom_skip_all (r : regex) (c : codeunit) (s : jsstring) :
  requires c r = true ->
  forall prev, replaceAllFrom r [] (List.length s) prev s = [].
Proof.
  intros Hreq. induction s as [|x s IH]; intros prev.
  - cbn [replaceAllFrom List.length].
    now rewrite (@rmatch_without c r prev [] Hreq (fun H => H)).
  - cbn [replaceAllFrom List.length]. apply IH.
Qed.

Lemma noIdStart_tail (x : codeunit) (s : jsstring) :
  noIdStart (x :: s) = true -> noIdStart s = true.
Proof.
  cbn [noIdStart]. intros H. apply andb_true_iff in H. now destruct H.
Qed.

Lemma noIdStart_no_literal (x : codeunit) (s t : jsstring) :
  noIdStart (x :: s) = true ->
  startsWith (str "[message_id:") (x :: s ++ LF :: t) = false.
Proof.
  cbn [noIdStart]. intros H. apply andb_true_iff in H. destruct H as [H _].
  change (str "[message_id:")
    with (chr "[" :: chr "m" :: str "essage_id:").
  destruct s as [|y s]; cbn [app startsWith].
  - destruct (chr "[" =? x)%N; reflexivity.
  - rewrite (N.eqb_sym (chr "[") x), (N.eqb_sym (chr "m") y).
    destruct (x =? chr "[")%N, (y =? chr "m")%N; cbn [andb negb] in *;
      try reflexivity; discriminate H.
Qed.

Lemma replaceAllFrom_match (r : regex) (rep : jsstring)
  (prev : option codeunit) (x : codeunit) (s rest : jsstring) (n : nat) :
  rmatch r prev (x :: s) = Some rest ->
  List.length (x :: s) - List.length rest = S n ->
  replaceAllFrom r rep 0 prev (x :: s)
  = rep ++ replaceAllFrom r rep n (Some x) s.
Proof. intros Hm Hn. cbn [replaceAllFrom]. now rewrite Hm, Hn. Qed.

Lemma replaceAllFrom_no_match (r : regex) (rep : jsstring)
  (prev : option codeunit) (x : codeunit) (s : jsstring) :
  rmatch r prev (x :: s) = None ->
  replaceAllFrom r rep 0 prev (x :: s)
  = x :: replaceAllFrom r rep 0 (Some x) s.
Proof. intros Hm. cbn [replaceAllFrom]. now rewrite Hm. Qed.

(** The message-id pattern removes the annotation at the end and
    nothing before it. *)
Lemma replaceAll_messageId (p id : jsstring) :
  noIdStart p = true ->
  id <> [] ->
  Forall (fun c => c <> chr "]" /\ isWhiteSpace c = false) id ->
  replaceAll reMessageId [] (p ++ messageIdSuffix id) = p.
Proof.
  intros Hp Hne Hid. unfold replaceAll. generalize (@None codeunit).
  induction p as [|x p IH]; intros prev.
  - change ([] ++ messageIdSuffix id)
      with (LF :: (str "[message_id: " ++ id ++ str "]")).
    rewrite (replaceAllFrom_match reMessageId [] prev LF
               (str "[message_id: " ++ id ++ str "]") []
               (List.length (str "[message_id: " ++ id ++ str "]"))).
    + apply (replaceAllFrom_skip_all reMessageId (chr "[")). reflexivity.
    + exact (rmatch_messageId_suffix prev id Hne Hid).
    + apply Nat.sub_0_r.
  - change ((x :: p) ++ messageIdSuffix id)
      with (x :: (p ++ messageIdSuffix id)).
    rewrite replaceAllFrom_no_match.
    + rewrite IH; [reflexivity|]. now apply noIdStart_tail in Hp.
    + apply rmatch_messageId_none.
      * unfold messageIdSuffix. now apply noIdStart_no_literal.
      * destruct p as [|y p]; [reflexivity|].
        unfold messageIdSuffix. apply noIdStart_no_literal.
        now apply noIdStart_tail in Hp.
Qed.

Lemma noIdStart_without_bracket (s : jsstring) :
  ~ In (chr "[") s -> noIdStart s = true.
Proof.
  induction s as [|x s IH]; intros Hnot; [reflexivity|].
  cbn [noIdStart].
  destruct (N.eqb_spec x (chr "[")) as [->|Hne].
  - exfalso. apply Hnot. now left.
  - cbn [andb negb]. apply IH. intro Hin. apply Hnot. now right.
Qed.

(** X19: a message followed by the annotation that the host adds, a line
    feed and [[message_id: id]], is cleaned to the message itself,
    trimmed: this holds for every message without an opening bracket or
    brace, and every id that is not empty and has neither a closing
    bracket nor white space. *)
Theorem cleanPrompt_strips_message_id (body id : jsstring) :
  ~ In (chr "[") body ->
  ~ In (chr "{") body ->
  id <> [] ->
  Forall (fun c => c <> chr "]" /\ isWhiteSpace c = false) id ->
  cleanPrompt (body ++ messageIdSuffix id) = trim body.
Proof.
  intros Hb Hc Hne Hid. unfold cleanPrompt.
  rewrite (replaceAll_messageId body id (noIdStart_without_bracket body Hb)
             Hne Hid).
  rewrite (@replaceAll_without (chr "[") reTimestamp [] body); auto.
  rewrite (@replaceAll_without (chr "[") reSystemLine [] body); auto.
  rewrite (@replaceAll_without (chr "[") reSystemBracketJson [] body); auto.
  rewrite (@replaceAll_without (chr "{") reSystemJson [] body); auto.
Qed.

Lemma cleanPrompt_strips_message_id_witness :
  cleanPrompt (str "what about the trip? " ++ messageIdSuffix (str "a1b2-c3"))
  = trim (str "what about the trip? ").
Proof.
  apply (@cleanPrompt_strips_message_id (str "what about the trip? ")
           (str "a1b2-c3")).
  - vm_compute. intuition discriminate.
  - vm_compute. intuition discriminate.
  - discriminate.
  - repeat constructor; try discriminate.
Defined.

(* ------------------------------------------------------------------ *)
(** *** The timestamp prefix *)

Lemma literal_ok (cs s res : jsstring) (k : cont) (prev : option codeunit) :
  k (lastOr prev cs) s = Some res ->
  rmatchK (fold_right (fun c r => Cat (Chr (CLit c)) r) Eps cs) k prev
    (cs ++ s) = Some res.
Proof.
  revert prev. induction cs as [|c cs IH]; intros prev Hk; [exact Hk|].
  cbn [fold_right rmatchK app clsMatch]. rewrite N.eqb_refl.
  apply IH. exact Hk.
Qed.

Lemma rep_ok (n : nat) (c : cls) (u s res : jsstring) (k : cont) :
  List.length u = n ->
  Forall (fun x => clsMatch c x = true) u ->
  forall prev,
    k (lastOr prev u) s = Some res ->
    rmatchK (Rep n c) k prev (u ++ s) = Some res.
Proof.
  revert u. induction n as [|n IH]; intros u Hlen Hall prev Hk.
  - destruct u; [exact Hk|discriminate Hlen].
  - destruct u as [|x u]; [discriminate Hlen|].
    inversion Hall; subst. cbn [Rep rmatchK app].
    match goal with H : clsMatch c x = true |- _ => rewrite H end.
    apply IH; auto.
Qed.

Lemma plus_ok (c : cls) (u s res : jsstring) (k : cont) :
  u <> [] ->
  Forall (fun x => clsMatch c x = true) u ->
  match s with y :: _ => clsMatch c y = false | [] => True end ->
  forall prev,
    k (lastOr prev u) s = Some res ->
    rmatchK (Plus c) k prev (u ++ s) = Some res.
Proof.
  intros Hne Hall Hs prev Hk. destruct u as [|x u]; [congruence|].
  inversion Hall; subst. unfold Plus. cbn [rmatchK app].
  match goal with H : clsMatch c x = true |- _ => rewrite H end.
  apply starGreedy_run; [assumption|].
  destruct s as [|y s]; [exact Hk|].
  rewrite starGreedy_stop by exact Hs. exact Hk.
Qed.

Lemma weekday_ok (day s res : jsstring) (k : cont) (prev : option codeunit) :
  In day weekdays ->
  k (lastOr prev day) s = Some res ->
  rmatchK (alts [Lit "Mon"; Lit "Tue"; Lit "Wed"; Lit "Thu"; Lit "Fri";
                 Lit "Sat"; Lit "Sun"]) k prev (day ++ s) = Some res.
Proof.
  unfold weekdays. cbn [List.map In].
  intros Hd Hk. cbn [alts rmatchK]. unfold Lit. rewrite !rmatchK_literal.
  repeat (destruct Hd as [<-|Hd];
          [cbn [startsWith str list_ascii_of_string List.map app N_of_ascii
                  N.eqb Pos.eqb andb List.length skipn] in *;
             cbn in *; rewrite Hk; reflexivity|]).
  destruct Hd.
Qed.

Lemma cat_step (r1 r2 : regex) (k : cont) (prev : option codeunit)
  (s : jsstring) :
  rmatchK (Cat r1 r2) k prev s = rmatchK r1 (rmatchK r2 k) prev s.
Proof. reflexivity. Qed.

Lemma bol_start (m : bool) (k : cont) (s : jsstring) :
  rmatchK (Bol m) k None s = k None s.
Proof. reflexivity. Qed.

Lemma digit_not_space (c : codeunit) :
  isDigit c = true -> isWhiteSpace c = false.
Proof.
  unfold isDigit, isWhiteSpace, isLineTerminator. intros H.
  apply andb_true_iff in H. destruct H as [H1 H2].
  apply N.leb_le in H1. apply N.leb_le in H2.
  repeat match goal with
         | |- context [(c =? ?n)%N] =>
             destruct (N.eqb_spec c n); [lia|]
         end.
  destruct (N.leb_spec 0x2000 c); [|reflexivity].
  exfalso. lia.
Qed.

Lemma upper_not_space (c : codeunit) :
  clsMatch CUpper c = true -> isWhiteSpace c = false.
Proof.
  unfold clsMatch, isWhiteSpace, isLineTerminator. intros H.
  apply andb_true_iff in H. destruct H as [H1 H2].
  apply N.leb_le in H1. apply N.leb_le in H2.
  repeat match goal with
         | |- context [(c =? ?n)%N] =>
             destruct (N.eqb_spec c n); [lia|]
         end.
  destruct (N.leb_spec 0x2000 c); [|reflexivity].
  exfalso. lia.
Qed.

Lemma head_stops (c : cls) (u t : jsstring) :
  u <> [] ->
  Forall (fun x => clsMatch c x = false) u ->
  match u ++ t with y :: _ => clsMatch c y = false | [] => True end.
Proof.
  intros Hne Hall. destruct u as [|x u]; [congruence|].
  now inversion Hall.
Qed.

Lemma digits_nonempty (n : nat) (s : jsstring) : digits (S n) s -> s <> [].
Proof. intros [Hlen _] ->. discriminate Hlen. Qed.

Lemma digits_not_space (n : nat) (s : jsstring) :
  digits n s -> Forall (fun x => clsMatch CSpace x = false) s.
Proof.
  intros [_ Hall]. eapply Forall_impl; [|exact Hall].
  intros c Hc. now apply digit_not_space.
Qed.

Lemma hour_ok (r : regex) (k : cont) (hour t res : jsstring)
  (prev : option codeunit) :
  digits 1 hour \/ digits 2 hour ->
  match t with y :: _ => isDigit y = false | [] => True end ->
  rmatchK r k (lastOr prev hour) t = Some res ->
  rmatchK (Chr CDigit) (rmatchK (Cat (Opt (Chr CDigit)) r) k) prev
    (hour ++ t) = Some res.
Proof.
  intros [[Hlen Hall]|[Hlen Hall]] Ht Hk.
  - destruct hour as [|h1 [|]]; try discriminate Hlen.
    inversion Hall as [|? ? H1 _]; subst. unfold isDigit in H1.
    cbn [app rmatchK clsMatch Opt]. rewrite H1.
    destruct t as [|y t]; [exact Hk|].
    unfold isDigit in Ht. rewrite Ht. exact Hk.
  - destruct hour as [|h1 [|h2 [|]]]; try discriminate Hlen.
    inversion Hall as [|? ? H1 Hall']; subst.
    inversion Hall' as [|? ? H2 _]; subst. unfold isDigit in H1, H2.
    cbn [app rmatchK clsMatch Opt]. rewrite H1, H2.
    cbn [lastOr] in Hk. now rewrite Hk.
Qed.

(** The timestamp pattern matches a well-formed prefix at the start of
    the text, with the white space that follows it. *)
Lemma rmatch_timestamp (day year month dayOfMonth hour minute zone rest
  : jsstring) :
  wellFormedTimestamp day year month dayOfMonth hour minute zone ->
  rmatch reTimestamp None
    (timestampPrefix day year month dayOfMonth hour minute zone ++ rest)
  = Some (dropWhile isWhiteSpace rest).
Proof.
  intros (Hday & Hy & Hm & Hd & Hh & Hmi & Hz & Hzu).
  unfold rmatch, reTimestamp, timestampPrefix, seq. cbn [fold_right].
  rewrite <- !app_assoc.
  rewrite cat_step, bol_start.
  rewrite cat_step. unfold Lit at 1. apply literal_ok.
  rewrite cat_step. apply weekday_ok; [exact Hday|].
  rewrite cat_step. apply plus_ok;
    [discriminate|repeat constructor
    |apply head_stops; [exact (digits_nonempty _ _ Hy)
                       |exact (digits_not_space _ _ Hy)]|].
  rewrite cat_step. apply rep_ok; [apply Hy|apply Hy|].
  rewrite cat_step. unfold Lit at 1. apply literal_ok.
  rewrite cat_step. apply rep_ok; [apply Hm|apply Hm|].
  rewrite cat_step. unfold Lit at 1. apply literal_ok.
  rewrite cat_step. apply rep_ok; [apply Hd|apply Hd|].
  rewrite cat_step. apply plus_ok;
    [discriminate|repeat constructor| |].
  { destruct Hh as [Hh|Hh];
      (apply head_stops; [exact (digits_nonempty _ _ Hh)
                         |exact (digits_not_space _ _ Hh)]). }
  rewrite cat_step. apply hour_ok; [exact Hh|reflexivity|].
  rewrite cat_step. unfold Lit at 1. apply literal_ok.
  rewrite cat_step. apply rep_ok; [apply Hmi|apply Hmi|].
  rewrite cat_step. apply plus_ok;
    [discriminate|repeat constructor| |].
  { apply head_stops; [exact Hz|].
    eapply Forall_impl; [|exact Hzu].
    intros c Hc. now apply upper_not_space. }
  rewrite cat_step. apply plus_ok; [exact Hz|exact Hzu|reflexivity|].
  rewrite cat_step. unfold Lit at 1. apply literal_ok.
  rewrite cat_step. exact (starGreedy_all CSpace rest _).
Qed.

Lemma replaceAllFrom_skip (r : regex) (rep u s : jsstring) (n : nat) :
  forall prev,
    replaceAllFrom r rep (List.length u + n) prev (u ++ s)
    = replaceAllFrom r rep n (lastOr prev u) s.
Proof.
  induction u as [|x u IH]; intros prev; [reflexivity|].
  cbn [List.length plus app replaceAllFrom lastOr]. apply IH.
Qed.

Lemma replaceAllFrom_without (c : codeunit) (r : regex) (rep s : jsstring) :
  requires c r = true -> ~ In c s ->
  forall prev, replaceAllFrom r rep 0 prev s = s.
Proof.
  intros Hreq. induction s as [|x s IH]; intros Hnot prev;
    cbn [replaceAllFrom]; rewrite (@rmatch_without c r prev _ Hreq Hnot);
    [reflexivity|].
  f_equal. apply IH. intro Hin. apply Hnot. now right.
Qed.

(** Dropping the rest of a match that ends in the white space at the
    start of a text without the code unit that the pattern requires. *)
Lemma replaceAllFrom_rest (c : codeunit) (r : regex) (s : jsstring) :
  requires c r = true -> ~ In c s ->
  forall prev,
    replaceAllFrom r []
      (List.length s - List.length (dropWhile isWhiteSpace s)) prev s
    = dropWhile isWhiteSpace s.
Proof.
  intros Hreq. induction s as [|x s IH]; intros Hnot prev.
  - cbn [List.length dropWhile Nat.sub replaceAllFrom].
    now rewrite (@rmatch_without c r prev [] Hreq Hnot).
  - cbn [dropWhile]. destruct (isWhiteSpace x) eqn:Hx.
    + pose proof (dropWhile_length isWhiteSpace s) as Hle.
      replace (List.length (x :: s) - List.length (dropWhile isWhiteSpace s))
        with (S (List.length s - List.length (dropWhile isWhiteSpace s)))
        by (cbn [List.length]; lia).
      cbn [replaceAllFrom]. apply IH. intro Hin. apply Hnot. now right.
    + rewrite Nat.sub_diag.
      exact (replaceAllFrom_without c r [] (x :: s) Hreq Hnot prev).
Qed.

Lemma digits_without (n : nat) (s : jsstring) (c : codeunit) :
  isDigit c = false -> digits n s -> ~ In c s.
Proof.
  intros Hc [_ Hall] Hin. rewrite Forall_forall in Hall.
  specialize (Hall c Hin). congruence.
Qed.

Lemma weekday_without_bracket (day : jsstring) :
  In day weekdays ->
  ~ In (chr "[") day
  /\ match day with y :: _ => (y =? chr "m")%N = false | [] => False end.
Proof.
  unfold weekdays. cbn [List.map In].
  intros Hd.
  repeat (destruct Hd as [<-|Hd];
          [split; [vm_compute; intuition discriminate|reflexivity]|]).
  destruct Hd.
Qed.

Lemma timestamp_without_bracket (day year month dayOfMonth hour minute zone
  body : jsstring) :
  wellFormedTimestamp day year month dayOfMonth hour minute zone ->
  ~ In (chr "[") body ->
  ~ In (chr "[")
      (day ++ str " " ++ year ++ str "-" ++ month ++ str "-" ++ dayOfMonth
       ++ str " " ++ hour ++ str ":" ++ minute ++ str " " ++ zone
       ++ str "]" ++ body).
Proof.
  intros (Hday & Hy & Hm & Hd & Hh & Hmi & Hz & Hzu) Hb.
  assert (Hlit : forall t : string,
             existsb (N.eqb (chr "[")) (str t) = false ->
             ~ In (chr "[") (str t)).
  { intros t Ht Hin.
    assert (E : existsb (N.eqb (chr "[")) (str t) = true).
    { apply existsb_exists. exists (chr "["). split; [exact Hin|].
      apply N.eqb_refl. }
    congruence. }
  rewrite !in_app_iff.
  intros [H|[H|[H|[H|[H|[H|[H|[H|[H|[H|[H|[H|[H|[H|H]]]]]]]]]]]]]].
  - exact (proj1 (weekday_without_bracket day Hday) H).
  - exact (Hlit " "%string eq_refl H).
  - exact (digits_without 4 year (chr "[") eq_refl Hy H).
  - exact (Hlit "-"%string eq_refl H).
  - exact (digits_without 2 month (chr "[") eq_refl Hm H).
  - exact (Hlit "-"%string eq_refl H).
  - exact (digits_without 2 dayOfMonth (chr "[") eq_refl Hd H).
  - exact (Hlit " "%string eq_refl H).
  - destruct Hh as [Hh|Hh];
      [exact (digits_without 1 hour (chr "[") eq_refl Hh H)
      |exact (digits_without 2 hour (chr "[") eq_refl Hh H)].
  - exact (Hlit ":"%string eq_refl H).
  - exact (digits_without 2 minute (chr "[") eq_refl Hmi H).
  - exact (Hlit " "%string eq_refl H).
  - rewrite Forall_forall in Hzu. specialize (Hzu _ H). discriminate Hzu.
  - exact (Hlit "]"%string eq_refl H).
  - exact (Hb H).
Qed.

Lemma noIdStart_timestamp (day year month dayOfMonth hour minute zone body
  : jsstring) :
  wellFormedTimestamp day year month dayOfMonth hour minute zone ->
  ~ In (chr "[") body ->
  noIdStart
    (timestampPrefix day year month dayOfMonth hour minute zone ++ body)
  = true.
Proof.
  intros Hw Hb.
  pose proof (timestamp_without_bracket _ _ _ _ _ _ _ body Hw Hb) as Hno.
  pose proof (noIdStart_without_bracket _ Hno) as Hrest.
  destruct Hw as (Hday & _).
  destruct (weekday_without_bracket day Hday) as [_ Hhead].
  unfold timestampPrefix. rewrite <- !app_assoc.
  change (str "[" ++ ?t) with (chr "[" :: t).
  cbn [noIdStart]. rewrite Hrest.
  destruct day as [|y day]; [destruct Hhead|].
  cbn [app]. rewrite Hhead. reflexivity.
Qed.

(** The timestamp pattern removes a well-formed prefix, with the white
    space after it, and nothing of a text without an opening bracket. *)
Lemma replaceAll_timestamp (day year month dayOfMonth hour minute zone body
  : jsstring) :
  wellFormedTimestamp day year month dayOfMonth hour minute zone ->
  ~ In (chr "[") body ->
  replaceAll reTimestamp []
    (timestampPrefix day year month dayOfMonth hour minute zone ++ body)
  = dropWhile isWhiteSpace body.
Proof.
  intros Hw Hb. unfold replaceAll.
  pose proof (rmatch_timestamp day year month dayOfMonth hour minute zone
                body Hw) as Hm.
  pose proof (dropWhile_length isWhiteSpace body) as Hle.
  remember (timestampPrefix day year month dayOfMonth hour minute zone)
    as ts eqn:Hts.
  destruct ts as [|x ts]; [discriminate Hts|].
  cbn [app] in *.
  rewrite (replaceAllFrom_match reTimestamp [] None x (ts ++ body)
             (dropWhile isWhiteSpace body)
             (List.length ts
              + (List.length body
                 - List.length (dropWhile isWhiteSpace body))) Hm).
  - cbn [app]. rewrite replaceAllFrom_skip.
    apply (replaceAllFrom_rest (chr "[")); [reflexivity|exact Hb].
  - cbn [List.length]. rewrite length_app. lia.
Qed.

Lemma trim_dropWhile (s : jsstring) :
  trim (dropWhile isWhiteSpace s) = trim s.
Proof.
  unfold trim, trimStart. f_equal.
  apply dropWhile_fixed, dropWhile_head.
Qed.

(** X20: a message inside the envelope that the host puts around it, the
    prefix [[Day YYYY-MM-DD HH:MM TZ]] before and a line feed and
    [[message_id: id]] after, is cleaned to the message itself, trimmed:
    for every well-formed prefix, every message without an opening
    bracket or brace, and every id that is not empty and has neither a
    closing bracket nor white space. *)
Theorem cleanPrompt_strips_envelope (day year month dayOfMonth hour minute
  zone body id : jsstring) :
  wellFormedTimestamp day year month dayOfMonth hour minute zone ->
  ~ In (chr "[") body ->
  ~ In (chr "{") body ->
  id <> [] ->
  Forall (fun c => c <> chr "]" /\ isWhiteSpace c = false) id ->
  cleanPrompt
    (timestampPrefix day year month dayOfMonth hour minute zone
     ++ body ++ messageIdSuffix id)
  = trim body.
Proof.
  intros Hw Hb Hc Hne Hid. unfold cleanPrompt.
  rewrite app_assoc.
  rewrite (replaceAll_messageId _ id
             (noIdStart_timestamp _ _ _ _ _ _ _ body Hw Hb) Hne Hid).
  rewrite (replaceAll_timestamp _ _ _ _ _ _ _ body Hw Hb).
  assert (Hb' : ~ In (chr "[") (dropWhile isWhiteSpace body)).
  { intro Hin. apply Hb.
    exact (Subseq_In _ _ _ (dropWhile_Subseq isWhiteSpace body) Hin). }
  assert (Hc' : ~ In (chr "{") (dropWhile isWhiteSpace body)).
  { intro Hin. apply Hc.
    exact (Subseq_In _ _ _ (dropWhile_Subseq isWhiteSpace body) Hin). }
  rewrite (@replaceAll_without (chr "[") reSystemLine [] _); auto.
  rewrite (@replaceAll_without (chr "[") reSystemBracketJson [] _); auto.
  rewrite (@replaceAll_without (chr "{") reSystemJson [] _); auto.
  apply trim_dropWhile.
Qed.

Lemma cleanPrompt_strips_envelope_witness :
  cleanPrompt
    (timestampPrefix (str "Tue") (str "2026") (str "02") (str "03")
       (str "9") (str "41") (str "EST")
     ++ str " what about the trip?" ++ messageIdSuffix (str "a1b2-c3"))
  = trim (str " what about the trip?").
Proof.
  apply (cleanPrompt_strips_envelope (str "Tue") (str "2026") (str "02")
           (str "03") (str "9") (str "41") (str "EST")
           (str " what about the trip?") (str "a1b2-c3")).
  - unfold wellFormedTimestamp, digits, weekdays.
    split; [cbn [List.map In]; right; left; reflexivity|].
    split; [split; [reflexivity|repeat constructor]|].
    split; [split; [reflexivity|repeat constructor]|].
    split; [split; [reflexivity|repeat constructor]|].
    split; [left; split; [reflexivity|repeat constructor]|].
    split; [split; [reflexivity|repeat constructor]|].
    split; [discriminate|repeat constructor].
  - vm_compute. intuition discriminate.
  - vm_compute. intuition discriminate.
  - discriminate.
  - repeat constructor; try discriminate.
Defined.

(* ------------------------------------------------------------------ *)
(** *** The stop-word fallback *)

(** The pieces of a split at [/\s+/] hold no white space. *)
Lemma splitReFrom_spaces (s : jsstring) :
  (forall cur prev,
      Forall (fun c => isWhiteSpace c = false) cur ->
      Forall (Forall (fun c => isWhiteSpace c = false))
        (splitReFrom (Plus CSpace) 0 cur prev s))
  /\ (forall cur prev,
        Forall (fun c => isWhiteSpace c = false) cur ->
        Forall (Forall (fun c => isWhiteSpace c = false))
          (splitReFrom (Plus CSpace)
             (List.length s - List.length (dropWhile isWhiteSpace s))
             cur prev s)).
Proof.
  induction s as [|x s [IH0 IHrun]].
  - split; intros cur prev Hcur; cbn [splitReFrom List.length Nat.sub];
      (constructor; [now apply Forall_rev|constructor]).
  - assert (H0 : forall cur prev,
               Forall (fun c => isWhiteSpace c = false) cur ->
               Forall (Forall (fun c => isWhiteSpace c = false))
                 (splitReFrom (Plus CSpace) 0 cur prev (x :: s))).
    { intros cur prev Hcur. cbn [splitReFrom]. rewrite rmatch_spaces.
      destruct (isWhiteSpace x) eqn:Hx.
      - pose proof (dropWhile_length isWhiteSpace s) as Hle.
        replace (List.length (x :: s)
                 - List.length (dropWhile isWhiteSpace s))
          with (S (List.length s - List.length (dropWhile isWhiteSpace s)))
          by (cbn [List.length]; lia).
        constructor; [now apply Forall_rev|]. apply IHrun. constructor.
      - apply IH0. now constructor. }
    split; [exact H0|]. intros cur prev Hcur.
    cbn [dropWhile]. destruct (isWhiteSpace x) eqn:Hx.
    + pose proof (dropWhile_length isWhiteSpace s) as Hle.
      replace (List.length (x :: s) - List.length (dropWhile isWhiteSpace s))
        with (S (List.length s - List.length (dropWhile isWhiteSpace s)))
        by (cbn [List.length]; lia).
      cbn [splitReFrom]. now apply IHrun.
    + rewrite Nat.sub_diag. now apply H0.
Qed.

Lemma splitRe_spaces (s : jsstring) :
  Forall (Forall (fun c => isWhiteSpace c = false))
    (splitRe (Plus CSpace) s).
Proof.
  destruct s as [|x s].
  - unfold splitRe. rewrite rmatch_spaces. repeat constructor.
  - unfold splitRe. apply (proj1 (splitReFrom_spaces (x :: s))). constructor.
Qed.

Lemma stopWordQuery_kept (rt : Runtime) (prompt : jsstring) :
  MemTool.stopWordQuery rt prompt = []
  \/ exists kept,
       MemTool.stopWordQuery rt prompt = join (str " ") kept
       /\ splitOn (chr " ") (MemTool.stopWordQuery rt prompt) = kept
       /\ incl kept (splitRe (Plus CSpace) (toLowerCase rt prompt))
       /\ Forall (fun word =>
                    2 <= List.length word
                    /\ MemTool.isStopWord
                         (replaceAll MemTool.rePunctuation [] word) = false
                    /\ Forall (fun c => isWhiteSpace c = false) word) kept.
Proof.
  unfold MemTool.stopWordQuery.
  set (pieces := splitRe (Plus CSpace) (toLowerCase rt prompt)).
  match goal with |- context [filter ?g pieces] => set (f := g) end.
  assert (Hall : Forall (fun word =>
                    2 <= List.length word
                    /\ MemTool.isStopWord
                         (replaceAll MemTool.rePunctuation [] word) = false
                    /\ Forall (fun c => isWhiteSpace c = false) word)
                   (filter f pieces)).
  { apply Forall_forall. intros word Hin. apply filter_In in Hin.
    destruct Hin as [Hin Hf]. unfold f in Hf.
    apply andb_true_iff in Hf. destruct Hf as [Hlen Hstop].
    apply Nat.ltb_lt in Hlen. apply negb_true_iff in Hstop.
    pose proof (splitRe_spaces (toLowerCase rt prompt)) as Hsp.
    rewrite Forall_forall in Hsp.
    split; [lia|]. split; [exact Hstop|]. exact (Hsp word Hin). }
  destruct (filter f pieces) as [|k ks] eqn:E; [now left|].
  right. exists (k :: ks). split; [reflexivity|].
  split; [|split; [|exact Hall]].
  - change (str " ") with [chr " "]. apply splitOn_join; [|discriminate].
    eapply Forall_impl; [|exact Hall].
    intros word (_ & _ & Hws) Hin. rewrite Forall_forall in Hws.
    specialize (Hws _ Hin). discriminate Hws.
  - rewrite <- E. intros word Hin. now apply filter_In in Hin.
Qed.

(** X21: when the extractor gives nothing, the query of the memory-tool
    variant is built from the words of the prompt: it is empty, or it
    splits at its spaces into words of the lowered prompt, each of at
    least two code units, without white space, and none a stop word once
    its question marks, full stops, commas and exclamation marks are
    taken out. *)
Theorem stopWordQuery_terms (rt : Runtime) (prompt : jsstring) :
  MemTool.searchQueryOf rt prompt None = []
  \/ Forall (fun term =>
               In term (splitRe (Plus CSpace) (toLowerCase rt prompt))
               /\ 2 <= List.length term
               /\ Forall (fun c => isWhiteSpace c = false) term
               /\ MemTool.isStopWord
                    (replaceAll MemTool.rePunctuation [] term) = false)
       (splitOn (chr " ") (MemTool.searchQueryOf rt prompt None)).
Proof.
  cbn [MemTool.searchQueryOf].
  destruct (stopWordQuery_kept rt prompt)
    as [Hq|(kept & _ & Hsplit & Hincl & Hall)]; [now left|].
  right. rewrite Hsplit. apply Forall_forall. intros term Hin.
  rewrite Forall_forall in Hall. destruct (Hall term Hin) as (H2 & Hs & Hw).
  split; [exact (Hincl term Hin)|]. now repeat split.
Qed.

(* ------------------------------------------------------------------ *)
(** *** The path of a hint, relative to the workspace *)

Lemma occursIn_suffix (lit a t : jsstring) :
  occursIn lit (a ++ t) = false -> startsWith lit t = false.
Proof.
  induction a as [|x a IH]; cbn [app].
  - destruct t; cbn [occursIn]; [auto|].
    intros H. now apply orb_false_iff in H.
  - cbn [occursIn]. intros H. apply orb_false_iff in H. now apply IH.
Qed.

Lemma startsWith_app (p s : jsstring) : startsWith p (p ++ s) = true.
Proof.
  induction p as [|c p IH]; [reflexivity|].
  cbn [app startsWith]. now rewrite N.eqb_refl.
Qed.

Lemma skipn_length_app (p s : jsstring) : skipn (List.length p) (p ++ s) = s.
Proof. induction p as [|c p IH]; [reflexivity|exact IH]. Qed.

(** A greedy star in front of a continuation that fails everywhere
    fails. *)
Lemma starGreedy_none (c : cls) (k : cont) (s : jsstring) :
  (forall p a t, s = a ++ t -> k p t = None) ->
  forall prev, starGreedy c k prev s = None.
Proof.
  induction s as [|x s IH]; intros Hk prev; cbn [starGreedy].
  - exact (Hk prev [] [] eq_refl).
  - rewrite IH.
    + destruct (clsMatch c x); exact (Hk prev [] (x :: s) eq_refl).
    + intros p a t ->. exact (Hk p (x :: a) t eq_refl).
Qed.

(** A greedy star gives the text back down to the last place where the
    continuation succeeds. *)
Lemma starGreedy_last (c : cls) (k : cont) (u s res : jsstring) :
  Forall (fun x => clsMatch c x = true) u ->
  (forall p a t, a <> [] -> s = a ++ t -> k p t = None) ->
  forall prev,
    k (lastOr prev u) s = Some res ->
    starGreedy c k prev (u ++ s) = Some res.
Proof.
  intros Hu Hk. induction Hu as [|x u Hx Hu IH]; intros prev Hres.
  - cbn [app lastOr] in *. destruct s as [|y s]; [exact Hres|].
    cbn [starGreedy].
    rewrite starGreedy_none.
    + destruct (clsMatch c y); exact Hres.
    + intros p a t ->. apply (Hk p (y :: a) t); [discriminate|reflexivity].
  - cbn [app starGreedy]. rewrite Hx.
    now rewrite (IH (Some x) Hres).
Qed.

Lemma rmatch_workspacePrefix (s : jsstring) :
  rmatch reWorkspacePrefix None s
  = starGreedy CDot
      (fun _ t => if startsWith workspaceDir t
                  then Some (skipn (List.length workspaceDir) t) else None)
      None s.
Proof.
  unfold rmatch, reWorkspacePrefix, seq. cbn [fold_right].
  rewrite cat_step, bol_start, cat_step.
  change (rmatchK (Star CDot) ?k None s) with (starGreedy CDot k None s).
  assert (Hk : forall p t,
             rmatchK (Cat (Lit ".openclaw/workspace/") Eps)
               (fun _ rest => Some rest) p t
             = if startsWith workspaceDir t
               then Some (skipn (List.length workspaceDir) t) else None).
  { intros p t. rewrite cat_step. unfold Lit. rewrite rmatchK_literal.
    reflexivity. }
  generalize (@None codeunit).
  induction s as [|x s IH]; intros prev; cbn [starGreedy].
  - apply Hk.
  - rewrite IH, Hk. reflexivity.
Qed.

(** The directory name does not overlap itself: where it stands, its
    next occurrence starts after it. *)
Lemma workspaceDir_next (rel a t : jsstring) :
  occursIn workspaceDir rel = false ->
  a <> [] ->
  workspaceDir ++ rel = a ++ t ->
  startsWith workspaceDir t = false.
Proof.
  intros Hrel Ha Heq.
  apply app_eq_app in Heq. destruct Heq as [d [[Hl Ht]|[Hl Ht]]].
  - subst t. destruct a as [|a1 a]; [congruence|].
    destruct d as [|y d].
    + exact (occursIn_suffix workspaceDir [] rel Hrel).
    + assert (Htail : Forall (fun c => c <> chr ".") (a ++ y :: d)).
      { injection Hl as _ <-. repeat constructor; discriminate. }
      apply Forall_app in Htail. destruct Htail as [_ Hd].
      inversion Hd as [|? ? Hy _]; subst.
      change workspaceDir with (chr "." :: str "openclaw/workspace/").
      cbn [app startsWith].
      destruct (N.eqb_spec (chr ".") y) as [E|_]; [congruence|reflexivity].
  - subst rel. exact (occursIn_suffix workspaceDir d t Hrel).
Qed.

(** X22: the path shown in a hint is the path inside the workspace: from
    a path that goes through [.openclaw/workspace/], on one line up to
    there and not again after it, everything up to and including that
    directory is taken away. *)
Theorem workspace_prefix_removed (home rel : jsstring) :
  Forall (fun c => isLineTerminator c = false) home ->
  occursIn workspaceDir rel = false ->
  replaceFirst reWorkspacePrefix [] (home ++ workspaceDir ++ rel) = rel.
Proof.
  intros Hhome Hrel.
  unfold reWorkspacePrefix, seq. cbn [fold_right].
  rewrite replaceFirst_anchored.
  change (Cat (Bol false)
            (Cat (Star CDot) (Cat (Lit ".openclaw/workspace/") Eps)))
    with reWorkspacePrefix.
  rewrite rmatch_workspacePrefix.
  rewrite (starGreedy_last CDot _ home (workspaceDir ++ rel) rel).
  - reflexivity.
  - eapply Forall_impl; [|exact Hhome].
    intros c Hc. cbn [clsMatch]. now rewrite Hc.
  - intros p a t Ha Heq.
    now rewrite (workspaceDir_next rel a t Hrel Ha Heq).
  - now rewrite startsWith_app, skipn_length_app.
Qed.

Lemma workspace_prefix_removed_witness :
  replaceFirst reWorkspacePrefix []
    (str "/home/dan/" ++ workspaceDir ++ str "memory/2026-02-03.md")
  = str "memory/2026-02-03.md".
Proof.
  apply (workspace_prefix_removed (str "/home/dan/")
           (str "memory/2026-02-03.md")).
  - repeat constructor.
  - reflexivity.
Defined.

(** X23: a path that does not go through [.openclaw/workspace/] is shown
    in a hint as it is. *)
Theorem workspace_prefix_absent (path : jsstring) :
  occursIn workspaceDir path = false ->
  replaceFirst reWorkspacePrefix [] path = path.
Proof.
  intros Hpath.
  unfold reWorkspacePrefix, seq. cbn [fold_right].
  rewrite replaceFirst_anchored.
  change (Cat (Bol false)
            (Cat (Star CDot) (Cat (Lit ".openclaw/workspace/") Eps)))
    with reWorkspacePrefix.
  rewrite rmatch_workspacePrefix.
  rewrite starGreedy_none; [reflexivity|].
  intros p a t ->. now rewrite (occursIn_suffix workspaceDir a t Hpath).
Qed.

Lemma workspace_prefix_absent_witness :
  replaceFirst reWorkspacePrefix [] (str "memory/people/ana.md")
  = str "memory/people/ana.md".
Proof.
  apply (workspace_prefix_absent (str "memory/people/ana.md")).
  reflexivity.
Defined.

(* ================================================================== *)
(** ** The preview *)

Lemma starGreedy_heading (s : jsstring) :
  forall prev,
    starGreedy CDot
      (rmatchK (Cat (Chr (CLit LF)) Eps) (fun _ rest => Some rest)) prev s
    = afterFirstLine s.
Proof.
  induction s as [|x s IH]; intros prev; [reflexivity|].
  cbn [starGreedy afterFirstLine clsMatch]. rewrite IH.
  destruct (isLineTerminator x) eqn:Hlt; cbn [negb].
  - cbn [rmatchK clsMatch]. destruct (x =? LF)%N; reflexivity.
  - destruct (afterFirstLine s); [reflexivity|].
    cbn [rmatchK clsMatch].
    destruct (N.eqb_spec x LF) as [->|_]; [|reflexivity].
    vm_compute in Hlt. discriminate Hlt.
Qed.

(** The [replace] with [/^#.*\n/] does what [withoutHeadingLine] says. *)
Lemma replaceFirst_heading (stdout : jsstring) :
  replaceFirst Hybrid.reHeading [] stdout = withoutHeadingLine stdout.
Proof.
  unfold Hybrid.reHeading, seq. cbn [fold_right].
  rewrite replaceFirst_anchored. unfold rmatch.
  rewrite cat_step, bol_start, cat_step.
  unfold Lit at 1. rewrite rmatchK_literal.
  destruct stdout as [|x s]; [reflexivity|].
  change (str "#") with [chr "#"].
  cbn [startsWith List.length skipn withoutHeadingLine lastOr].
  rewrite (N.eqb_sym (chr "#") x), andb_true_r.
  destruct (x =? chr "#")%N; [|reflexivity].
  rewrite cat_step.
  change (rmatchK (Star CDot) ?k ?p s) with (starGreedy CDot k p s).
  rewrite starGreedy_heading. destruct (afterFirstLine s); reflexivity.
Qed.

(** C9: for every file content, the preview is the text left after
    taking away a leading heading line (a first line that starts with [#]
    and ends in a line feed) and collapsing white space (each run of
    white space becomes one plain space, and none is left at the ends),
    cut to at most the maximum length, 100 code units in the handler.
    The preview has no white space but single plain spaces.  The
    computation returns a string in every case, also when the cut falls
    inside a surrogate pair, and the empty string when the read fails. *)
Theorem C9_snippet_is_bounded (rt : Runtime) (w : World) (path : jsstring)
  (maxChars : nat) (r : Hybrid.QmdResult) (st : State) :
  List.length (answer (Hybrid.getSnippet w path maxChars st)) <= maxChars
  /\ answer (Hybrid.getSnippet w path maxChars st)
     = match head500 w path with
       | Some stdout =>
           firstn maxChars
             (trim (collapseSpaces false (withoutHeadingLine stdout)))
       | None => []
       end
  /\ singleSpaced (answer (Hybrid.getSnippet w path maxChars st)) = true
  /\ answer (Hybrid.hintWithSnippet rt w r st)
     = hintLine rt (Hybrid.path r) (Hybrid.score r)
         (answer (Hybrid.getSnippet w (Hybrid.path r) 100 st))
  /\ Hybrid.snippetOf
       (str "# Trip" ++ [LF] ++ str "  the   end" ++ [9%N; LF]
        ++ repeat 97%N 91 ++ [0xD83D; 0xDE00]%N ++ str " tail") 100
     = str "the end " ++ repeat 97%N 91 ++ [0xD83D%N].
Proof.
  assert (Hsnip : forall stdout n,
             Hybrid.snippetOf stdout n
             = firstn n
                 (trim (collapseSpaces false (withoutHeadingLine stdout)))).
  { intros stdout n. unfold Hybrid.snippetOf, slice0, replaceAll.
    rewrite replaceFirst_heading.
    now rewrite (proj1 (replaceAll_spaces (withoutHeadingLine stdout))). }
  assert (Hget : answer (Hybrid.getSnippet w path maxChars st)
                 = match head500 w path with
                   | Some stdout =>
                       firstn maxChars
                         (trim (collapseSpaces false
                                  (withoutHeadingLine stdout)))
                   | None => []
                   end).
  { unfold Hybrid.getSnippet, bind, emit, ret. cbn [answer after events].
    destruct (head500 w path) as [stdout|]; cbn [answer];
      [apply Hsnip|reflexivity]. }
  split; [|split; [exact Hget|split; [|split]]].
  - rewrite Hget. destruct (head500 w path) as [stdout|];
      [apply firstn_le_length|cbn [List.length]; lia].
  - rewrite Hget. destruct (head500 w path) as [stdout|]; [|reflexivity].
    apply singleSpaced_firstn, singleSpaced_trim.
    apply (singleSpaced_collapseSpaces (withoutHeadingLine stdout) false).
  - unfold Hybrid.hintWithSnippet, Hybrid.getSnippet, bind, emit, ret.
    cbn [answer after events].
    destruct (head500 w (Hybrid.path r)); reflexivity.
  - rewrite Hsnip. vm_compute. reflexivity.
Qed.

(* ================================================================== *)
(** ** A second pass of the cleaning *)

Lemma bol_step (m : bool) (k : cont) (prev : option codeunit)
  (s : jsstring) :
  rmatchK (Bol m) k prev s = if atLineStart m prev then k prev s else None.
Proof. reflexivity. Qed.

Lemma alt_step (r1 r2 : regex) (k : cont) (prev : option codeunit)
  (s : jsstring) :
  rmatchK (Alt r1 r2) k prev s
  = match rmatchK r1 k prev s with
    | Some res => Some res
    | None => rmatchK r2 k prev s
    end.
Proof. reflexivity. Qed.

Lemma somewhere_suffix (f : jsstring -> bool) (a t : jsstring) :
  somewhere f (a ++ t) = false -> f t = false.
Proof.
  induction a as [|x a IH]; cbn [app].
  - destruct t; cbn [somewhere]; intros H; apply orb_false_iff in H;
      now destruct H.
  - cbn [somewhere]. intros H. apply orb_false_iff in H. now apply IH.
Qed.

(** A pattern that matches nowhere in a text leaves it as it is. *)
Lemma replaceAll_no_match (r : regex) (rep s : jsstring) :
  (forall prev a t, s = a ++ t -> rmatch r prev t = None) ->
  replaceAll r rep s = s.
Proof.
  unfold replaceAll. generalize (@None codeunit).
  induction s as [|x s IH]; intros prev H.
  - cbn [replaceAllFrom]. now rewrite (H prev [] [] eq_refl).
  - rewrite replaceAllFrom_no_match by exact (H prev [] (x :: s) eq_refl).
    f_equal. apply IH. intros p a t ->. exact (H p (x :: a) t eq_refl).
Qed.

Lemma rmatch_timestamp_unmarked (prev : option codeunit) (t : jsstring) :
  existsb (fun day => startsWith (chr "[" :: day) t) weekdays = false ->
  rmatch reTimestamp prev t = None.
Proof.
  intros H. unfold rmatch, reTimestamp, seq. cbn [fold_right].
  rewrite cat_step, bol_step.
  destruct (atLineStart true prev); [|reflexivity].
  rewrite cat_step. unfold Lit at 1. rewrite rmatchK_literal.
  destruct t as [|x t]; [reflexivity|].
  change (str "[") with [chr "["]. cbn [startsWith].
  destruct (N.eqb_spec (chr "[") x) as [<-|_]; [|reflexivity].
  cbn [andb List.length skipn lastOr].
  unfold weekdays in H. cbn [List.map existsb startsWith] in H.
  rewrite N.eqb_refl in H. cbn [andb] in H.
  repeat (apply orb_false_iff in H; destruct H as [? H]).
  rewrite cat_step. cbn [alts]. rewrite !alt_step.
  unfold Lit. rewrite !rmatchK_literal.
  repeat match goal with
         | E : startsWith _ t = false |- _ => rewrite E; clear E
         end.
  reflexivity.
Qed.

Lemma space_not_bracket (x : codeunit) :
  isWhiteSpace x = true -> ((x =? chr "[") || (x =? chr "{"))%N = false.
Proof.
  intros H.
  destruct (N.eqb_spec x (chr "[")) as [->|_];
    [vm_compute in H; discriminate H|].
  destruct (N.eqb_spec x (chr "{")) as [->|_];
    [vm_compute in H; discriminate H|reflexivity].
Qed.

(** White space in front of a continuation that needs a bracket or a
    brace: no match when the white space is followed by neither. *)
Lemma starGreedy_spaces_none (k : cont) (u : jsstring) :
  (forall p t,
      match t with
      | x :: _ => ((x =? chr "[") || (x =? chr "{"))%N = false
      | [] => True
      end -> k p t = None) ->
  match dropWhile isWhiteSpace u with
  | x :: _ => ((x =? chr "[") || (x =? chr "{"))%N = false
  | [] => True
  end ->
  forall prev, starGreedy CSpace k prev u = None.
Proof.
  intros Hk. induction u as [|x u IH]; intros Hu prev;
    cbn [starGreedy clsMatch].
  - apply Hk. exact I.
  - cbn [dropWhile] in Hu. destruct (isWhiteSpace x) eqn:Hx.
    + rewrite (IH Hu). apply Hk. now apply space_not_bracket.
    + apply Hk. exact Hu.
Qed.

Lemma bracket_fails (c : codeunit) (r : regex) (k : cont)
  (p : option codeunit) (u : jsstring) :
  c = chr "[" \/ c = chr "{" ->
  match u with
  | x :: _ => ((x =? chr "[") || (x =? chr "{"))%N = false
  | [] => True
  end ->
  rmatchK (Cat (Cat (Chr (CLit c)) Eps) r) k p u = None.
Proof.
  intros Hc Hu. rewrite !cat_step. destruct u as [|x u]; [reflexivity|].
  cbn [rmatchK clsMatch]. apply orb_false_iff in Hu. destruct Hu as [H1 H2].
  destruct Hc as [->| ->]; [now rewrite H1|now rewrite H2].
Qed.

Lemma system_unmarked (K : cont) (prev : option codeunit) (t : jsstring) :
  (forall p u,
      match u with
      | x :: _ => ((x =? chr "[") || (x =? chr "{"))%N = false
      | [] => True
      end -> K p u = None) ->
  systemStart t = false ->
  rmatchK (Lit "System:") (starGreedy CSpace K) prev t = None.
Proof.
  intros HK Hs. unfold Lit. rewrite rmatchK_literal.
  unfold systemStart in Hs.
  destruct (startsWith (str "System:") t); [|reflexivity].
  cbn [andb] in Hs. change (List.length (str "System:")) with 7.
  apply starGreedy_spaces_none; [exact HK|].
  destruct (dropWhile isWhiteSpace (skipn 7 t)); [exact I|exact Hs].
Qed.

Lemma rmatch_systemLine_unmarked (prev : option codeunit) (t : jsstring) :
  systemStart t = false -> rmatch reSystemLine prev t = None.
Proof.
  intros Hs. unfold rmatch, reSystemLine, seq. cbn [fold_right].
  rewrite cat_step, bol_step.
  destruct (atLineStart true prev); [|reflexivity].
  rewrite cat_step.
  match goal with
  | |- rmatchK _ (rmatchK (Cat (Star CSpace) (Cat (Lit "[") ?R)) ?k) _ _ = _ =>
      exact (system_unmarked (rmatchK (Cat (Lit "[") R) k) prev t
               (fun p u Hu =>
                  bracket_fails (chr "[") R k p u (or_introl eq_refl) Hu)
               Hs)
  end.
Qed.

Lemma rmatch_systemBracketJson_unmarked (prev : option codeunit)
  (t : jsstring) :
  systemStart t = false -> rmatch reSystemBracketJson prev t = None.
Proof.
  intros Hs. unfold rmatch, reSystemBracketJson, seq. cbn [fold_right].
  rewrite cat_step.
  match goal with
  | |- rmatchK _ (rmatchK (Cat (Star CSpace) (Cat (Lit "[") ?R)) ?k) _ _ = _ =>
      exact (system_unmarked (rmatchK (Cat (Lit "[") R) k) prev t
               (fun p u Hu =>
                  bracket_fails (chr "[") R k p u (or_introl eq_refl) Hu)
               Hs)
  end.
Qed.

Lemma rmatch_systemJson_unmarked (prev : option codeunit) (t : jsstring) :
  systemStart t = false -> rmatch reSystemJson prev t = None.
Proof.
  intros Hs. unfold rmatch, reSystemJson, seq. cbn [fold_right].
  rewrite cat_step.
  match goal with
  | |- rmatchK _ (rmatchK (Cat (Star CSpace) (Cat (Lit "{") ?R)) ?k) _ _ = _ =>
      exact (system_unmarked (rmatchK (Cat (Lit "{") R) k) prev t
               (fun p u Hu =>
                  bracket_fails (chr "{") R k p u (or_intror eq_refl) Hu)
               Hs)
  end.
Qed.

(** A text that holds no start of a message-id annotation, of a
    timestamp or of a System message is only trimmed by the cleaning. *)
Lemma cleanPrompt_unmarked (t : jsstring) :
  hasMarker t = false -> cleanPrompt t = trim t.
Proof.
  intros H.
  assert (Hparts : forall a u,
             t = a ++ u ->
             startsWith (str "[message_id:") u = false
             /\ existsb (fun day => startsWith (chr "[" :: day) u) weekdays
                = false
             /\ systemStart u = false).
  { intros a u ->. pose proof (somewhere_suffix startsMarker a u H) as Hm.
    unfold startsMarker in Hm.
    apply orb_false_iff in Hm. destruct Hm as [Hm H3].
    apply orb_false_iff in Hm. destruct Hm as [H1 H2]. auto. }
  unfold cleanPrompt.
  rewrite (replaceAll_no_match reMessageId [] t).
  2:{ intros prev a u E. destruct u as [|x u];
        [apply rmatch_messageId_end|].
      apply rmatch_messageId_none; [exact (proj1 (Hparts a _ E))|].
      apply (Hparts (a ++ [x]) u). rewrite E, <- app_assoc. reflexivity. }
  rewrite (replaceAll_no_match reTimestamp [] t).
  2:{ intros prev a u E. apply rmatch_timestamp_unmarked.
      exact (proj1 (proj2 (Hparts a u E))). }
  rewrite (replaceAll_no_match reSystemLine [] t).
  2:{ intros prev a u E. apply rmatch_systemLine_unmarked.
      exact (proj2 (proj2 (Hparts a u E))). }
  rewrite (replaceAll_no_match reSystemBracketJson [] t).
  2:{ intros prev a u E. apply rmatch_systemBracketJson_unmarked.
      exact (proj2 (proj2 (Hparts a u E))). }
  rewrite (replaceAll_no_match reSystemJson [] t).
  2:{ intros prev a u E. apply rmatch_systemJson_unmarked.
      exact (proj2 (proj2 (Hparts a u E))). }
  reflexivity.
Qed.

(** C7 (amended): the normalization pipeline (message-id removal,
    timestamp-prefix removal, System-block removal, trim) gives the same
    text when applied twice as when applied once, for every input whose
    normalized text holds no place where a pattern could start again: no
    [[message_id:], no [[Mon], [[Tue], [[Wed], [[Thu], [[Fri], [[Sat] or
    [[Sun], and no [System:] followed, after any white space, by an
    opening bracket or brace.  Brackets and braces elsewhere in the text
    do no harm. *)
Theorem C7_cleanPrompt_idempotent_without_markers (raw : jsstring) :
  hasMarker (cleanPrompt raw) = false ->
  cleanPrompt (cleanPrompt raw) = cleanPrompt raw.
Proof.
  intros H. rewrite (cleanPrompt_unmarked (cleanPrompt raw) H).
  apply cleanPrompt_trimmed.
Qed.

Lemma C7_witness :
  hasMarker
    (cleanPrompt
       (str "[Mon 2024-01-01 10:00 UTC] what does arr[0] = {a: 1} do?"
        ++ messageIdSuffix (str "a1b2-c3"))) = false
  /\ cleanPrompt
       (cleanPrompt
          (str "[Mon 2024-01-01 10:00 UTC] what does arr[0] = {a: 1} do?"
           ++ messageIdSuffix (str "a1b2-c3")))
     = cleanPrompt
         (str "[Mon 2024-01-01 10:00 UTC] what does arr[0] = {a: 1} do?"
          ++ messageIdSuffix (str "a1b2-c3")).
Proof.
  split; [vm_compute; reflexivity|].
  apply (C7_cleanPrompt_idempotent_without_markers
           (str "[Mon 2024-01-01 10:00 UTC] what does arr[0] = {a: 1} do?"
            ++ messageIdSuffix (str "a1b2-c3"))).
  vm_compute. reflexivity.
Defined.
